(** * CloudFlow: idempotency registry, circuit breaker, inventory steps,
      order repository and saga definition

    A shallow embedding of the Python services of CloudFlow
    ([services/shared/idempotency.py], [services/shared/circuit_breaker.py],
    [services/shared/dynamodb.py], [services/inventory_service/handler.py],
    [services/payment_service/handler.py], [services/order_service/repository.py],
    order creation in [services/order_service/handler.py],
    [services/notification_service/handler.py])
    and of the way [infrastructure/cloudflow/saga_stack.py] puts the Step
    Functions definition together.

    The DynamoDB tables are finite maps held in one [World] record that every
    operation threads through a state-and-exception monad [M].  A Python
    exception leaves the effects made before it in place, so [M] returns the
    world on both outcomes.

    Conventions of the embedding:
    - [time.time()] is a rational read from the [clock] of the world; a
      callable may advance it.  [int(x)] truncates toward zero.  The product
      of two floats is rounded as IEEE 754 binary64 rounds it ([float_mul]).
    - [update_item] follows DynamoDB: it edits the stored item or, when there
      is none, creates an item holding the key and the attributes it sets.
    - A [ConditionalCheckFailedException] is the [false] answer of the
      conditional operation.  The store itself never fails: throttling and
      outages are outside the embedding.
    - One handler invocation runs without interleaving; concurrency shows only
      as the arbitrary world a call starts from.
    - Logging and X-Ray subsegments have no effect on the world and are left
      out.
    - Integers are unbounded, as in Python.  boto3 refuses to send a number
      of more than 38 digits: the conditional put of an order checks it
      ([dynamodb_number]); a statement that takes quantities or prices from
      a request says when it needs them within that range.
    - Request and message bodies are records of the keys the handlers read,
      already parsed and of the types the pydantic models declare.  Calls to
      EventBridge, Step Functions and SNS are entries of [ext_log]. *)

From Stdlib Require Import ZArith QArith Qround String List Lia.
From Stdlib Require Import Decimal DecimalString.
From stdpp Require Import base option gmap strings list fin_maps.

Set Warnings "-register-all".
Local Open Scope Z_scope.

(** ** Python values and their JSON image *)

(** The values a wrapped function can return.  [PDecimal] is what boto3 hands
    back for DynamoDB numbers; [json.dumps] refuses it. Dictionaries carry
    [str] keys, as every result built in the services does. *)
Inductive pyval : Type :=
| PNone
| PBool (b : bool)
| PInt (z : Z)
| PStr (s : string)
| PDecimal (z : Z)
| PList (l : list pyval)
| PTuple (l : list pyval)
| PDict (d : list (string * pyval)).

(** The JSON document stored in the [result] attribute.  The text produced by
    [json.dumps] is represented by the document it denotes. *)
Inductive json : Type :=
| JNull
| JBool (b : bool)
| JNum (z : Z)
| JStr (s : string)
| JArr (l : list json)
| JObj (d : list (string * json)).

(** [json.dumps]: tuples and lists both become arrays; a [Decimal] raises
    [TypeError], modelled by [None]. *)
Fixpoint json_dumps (v : pyval) : option json :=
  match v with
  | PNone => Some JNull
  | PBool b => Some (JBool b)
  | PInt z => Some (JNum z)
  | PStr s => Some (JStr s)
  | PDecimal _ => None
  | PList l | PTuple l =>
      option_map JArr
        ((fix go (l : list pyval) : option (list json) :=
            match l with
            | [] => Some []
            | x :: r =>
                match json_dumps x, go r with
                | Some a, Some b => Some (a :: b)
                | _, _ => None
                end
            end) l)
  | PDict d =>
      option_map JObj
        ((fix go (d : list (string * pyval)) : option (list (string * json)) :=
            match d with
            | [] => Some []
            | (k, x) :: r =>
                match json_dumps x, go r with
                | Some a, Some b => Some ((k, a) :: b)
                | _, _ => None
                end
            end) d)
  end.

(** [json.loads]: arrays come back as lists, objects as dictionaries. *)
Fixpoint json_loads (j : json) : pyval :=
  match j with
  | JNull => PNone
  | JBool b => PBool b
  | JNum z => PInt z
  | JStr s => PStr s
  | JArr l => PList (List.map json_loads l)
  | JObj d => PDict (List.map (fun kv => (fst kv, json_loads (snd kv))) d)
  end.

(** Values that [json.loads (json.dumps v)] gives back unchanged. *)
Fixpoint json_stable (v : pyval) : bool :=
  match v with
  | PNone | PBool _ | PInt _ | PStr _ => true
  | PDecimal _ | PTuple _ => false
  | PList l => forallb json_stable l
  | PDict d => forallb (fun kv => json_stable (snd kv)) d
  end.

(** Dictionary access [d.get(k)] and [d[k]] on a [PDict]. *)
Fixpoint assoc_get {A : Type} (k : string) (d : list (string * A)) : option A :=
  match d with
  | [] => None
  | (k', v) :: r => if String.eqb k k' then Some v else assoc_get k r
  end.

Definition py_get (k : string) (v : pyval) : option pyval :=
  match v with
  | PDict d => assoc_get k d
  | _ => None
  end.

(** ** Exceptions *)

Inductive exn : Type :=
| CircuitBreakerOpenError (name : string) (resets_at : Z)
| IdempotencyError (status : option string)
| IdempotencyAlreadyInProgressError (key : string)
| InsufficientStockError (product_id : string) (quantity : Z)
| OptimisticLockError (version : Z)
| PaymentDeclinedError (reason : string)
| ValidationError
| KeyError (k : string)
| ValueError (msg : string)
| TypeError
| ConnectionError (msg : string)
| RuntimeError (msg : string)
| OverflowError        (* [int / int] beyond the range of a float *)
| DecimalException.    (* a signal of the [decimal] module: [Inexact],
                          [Rounded], [Overflow], [InvalidOperation] *)

(** ** Table items *)

(** [cloudflow-idempotency]: one item per key. Attributes are optional because
    [update_item] creates an item holding only the attributes it sets. *)
Record IdemItem : Type := {
  idem_status : option string;
  idem_result : option json;
  idem_created_at : option Z;
  idem_ttl : option Z
}.

Inductive CircuitState : Type := CLOSED | OPEN | HALF_OPEN.

(** [cloudflow-circuit-breakers]: one item per breaker name. *)
Record CbItem : Type := {
  circuit_state : option CircuitState;
  failure_count : option Z;
  success_count : option Z;
  resets_at : option Z
}.

(** [cloudflow-inventory]: the [quantity] attribute and the timestamp the
    reserve path writes. *)
Record InvItem : Type := {
  quantity : Z;
  updated_at : option Q
}.

(** [OrderItem] of [shared/events.py]. *)
Record OrderItem : Type := {
  product_id : string;
  item_quantity : Z;
  unit_price_cents : Z
}.

(** [cloudflow-reservations]. *)
Record ResItem : Type := {
  res_order_id : string;
  res_items : list OrderItem;
  res_status : string;
  res_created_at : Q
}.

(** [cloudflow-payments]. *)
Record PayItem : Type := {
  pay_order_id : string;
  pay_customer_id : string;
  pay_amount_cents : Z;
  provider_charge_id : string;
  pay_status : string;
  pay_created_at : Q
}.

Inductive OrderStatus : Type :=
| PENDING | INVENTORY_RESERVED | PAYMENT_CHARGED | CONFIRMED
| INVENTORY_FAILED | PAYMENT_FAILED | FAILED | COMPENSATING.

(** [cloudflow-orders], single-table design: the item under sort key [META]
    and the items under [EVENT#<ts>]. *)
Record OrderMeta : Type := {
  om_customer_id : option string;
  om_items : list OrderItem;
  om_total_cents : option Z;
  om_status : option OrderStatus;
  om_correlation_id : option string;
  om_created_at : option Q;
  om_updated_at : option Q;
  om_version : option Z
}.

Record OrderEvent : Type := {
  oe_status : OrderStatus;
  oe_metadata : list (string * pyval);
  oe_occurred_at : Q
}.

Inductive OrdersRow : Type :=
| MetaRow (m : OrderMeta)
| EventRow (e : OrderEvent).

(** Key of the orders table: [(order_id, None)] is [(ORDER#id, META)] and
    [(order_id, Some ts)] is [(ORDER#id, EVENT#ts)]. *)
Definition OrdersKey : Type := (string * option Z)%type.

(** ** The world: tables, clock and sources of fresh values *)

Record World : Type := {
  idempotency_table : gmap string IdemItem;
  cb_table : gmap string CbItem;
  inv_table : gmap string InvItem;
  res_table : gmap string ResItem;
  payments_table : gmap string PayItem;
  orders_table : gmap OrdersKey OrdersRow;
  notification_queue : list pyval;   (* bodies sent to the SQS queue *)
  ext_log : list string;             (* effects outside the tables *)
  clock : Q;                         (* what [time.time()] returns *)
  uuid_counter : nat;                (* number of [uuid.uuid4()] draws *)
  random_source : nat -> Q;          (* successive draws of [random] *)
  random_pos : nat
}.

Definition set_idempotency_table (f : gmap string IdemItem -> gmap string IdemItem)
    (w : World) : World :=
  {| idempotency_table := f (idempotency_table w); cb_table := cb_table w;
     inv_table := inv_table w; res_table := res_table w;
     payments_table := payments_table w; orders_table := orders_table w;
     notification_queue := notification_queue w; ext_log := ext_log w;
     clock := clock w; uuid_counter := uuid_counter w;
     random_source := random_source w; random_pos := random_pos w |}.

Definition set_cb_table (f : gmap string CbItem -> gmap string CbItem)
    (w : World) : World :=
  {| idempotency_table := idempotency_table w; cb_table := f (cb_table w);
     inv_table := inv_table w; res_table := res_table w;
     payments_table := payments_table w; orders_table := orders_table w;
     notification_queue := notification_queue w; ext_log := ext_log w;
     clock := clock w; uuid_counter := uuid_counter w;
     random_source := random_source w; random_pos := random_pos w |}.

Definition set_inv_table (f : gmap string InvItem -> gmap string InvItem)
    (w : World) : World :=
  {| idempotency_table := idempotency_table w; cb_table := cb_table w;
     inv_table := f (inv_table w); res_table := res_table w;
     payments_table := payments_table w; orders_table := orders_table w;
     notification_queue := notification_queue w; ext_log := ext_log w;
     clock := clock w; uuid_counter := uuid_counter w;
     random_source := random_source w; random_pos := random_pos w |}.

Definition set_res_table (f : gmap string ResItem -> gmap string ResItem)
    (w : World) : World :=
  {| idempotency_table := idempotency_table w; cb_table := cb_table w;
     inv_table := inv_table w; res_table := f (res_table w);
     payments_table := payments_table w; orders_table := orders_table w;
     notification_queue := notification_queue w; ext_log := ext_log w;
     clock := clock w; uuid_counter := uuid_counter w;
     random_source := random_source w; random_pos := random_pos w |}.

Definition set_payments_table (f : gmap string PayItem -> gmap string PayItem)
    (w : World) : World :=
  {| idempotency_table := idempotency_table w; cb_table := cb_table w;
     inv_table := inv_table w; res_table := res_table w;
     payments_table := f (payments_table w); orders_table := orders_table w;
     notification_queue := notification_queue w; ext_log := ext_log w;
     clock := clock w; uuid_counter := uuid_counter w;
     random_source := random_source w; random_pos := random_pos w |}.

Definition set_orders_table (f : gmap OrdersKey OrdersRow -> gmap OrdersKey OrdersRow)
    (w : World) : World :=
  {| idempotency_table := idempotency_table w; cb_table := cb_table w;
     inv_table := inv_table w; res_table := res_table w;
     payments_table := payments_table w; orders_table := f (orders_table w);
     notification_queue := notification_queue w; ext_log := ext_log w;
     clock := clock w; uuid_counter := uuid_counter w;
     random_source := random_source w; random_pos := random_pos w |}.

Definition set_notification_queue (f : list pyval -> list pyval) (w : World) : World :=
  {| idempotency_table := idempotency_table w; cb_table := cb_table w;
     inv_table := inv_table w; res_table := res_table w;
     payments_table := payments_table w; orders_table := orders_table w;
     notification_queue := f (notification_queue w); ext_log := ext_log w;
     clock := clock w; uuid_counter := uuid_counter w;
     random_source := random_source w; random_pos := random_pos w |}.

Definition set_ext_log (f : list string -> list string) (w : World) : World :=
  {| idempotency_table := idempotency_table w; cb_table := cb_table w;
     inv_table := inv_table w; res_table := res_table w;
     payments_table := payments_table w; orders_table := orders_table w;
     notification_queue := notification_queue w; ext_log := f (ext_log w);
     clock := clock w; uuid_counter := uuid_counter w;
     random_source := random_source w; random_pos := random_pos w |}.

Definition set_clock (f : Q -> Q) (w : World) : World :=
  {| idempotency_table := idempotency_table w; cb_table := cb_table w;
     inv_table := inv_table w; res_table := res_table w;
     payments_table := payments_table w; orders_table := orders_table w;
     notification_queue := notification_queue w; ext_log := ext_log w;
     clock := f (clock w); uuid_counter := uuid_counter w;
     random_source := random_source w; random_pos := random_pos w |}.

Definition set_uuid_counter (f : nat -> nat) (w : World) : World :=
  {| idempotency_table := idempotency_table w; cb_table := cb_table w;
     inv_table := inv_table w; res_table := res_table w;
     payments_table := payments_table w; orders_table := orders_table w;
     notification_queue := notification_queue w; ext_log := ext_log w;
     clock := clock w; uuid_counter := f (uuid_counter w);
     random_source := random_source w; random_pos := random_pos w |}.

Definition set_random_pos (f : nat -> nat) (w : World) : World :=
  {| idempotency_table := idempotency_table w; cb_table := cb_table w;
     inv_table := inv_table w; res_table := res_table w;
     payments_table := payments_table w; orders_table := orders_table w;
     notification_queue := notification_queue w; ext_log := ext_log w;
     clock := clock w; uuid_counter := uuid_counter w;
     random_source := random_source w; random_pos := f (random_pos w) |}.

(** A world with empty tables, at time [t]. *)
Definition empty_world (t : Q) : World :=
  {| idempotency_table := ∅; cb_table := ∅; inv_table := ∅; res_table := ∅;
     payments_table := ∅; orders_table := ∅; notification_queue := [];
     ext_log := []; clock := t; uuid_counter := 0%nat;
     random_source := fun _ => 1%Q; random_pos := 0%nat |}.

(** ** The state-and-exception monad *)

Inductive Outcome (A : Type) : Type :=
| Ok (a : A)
| Raise (e : exn).
Arguments Ok {A} a.
Arguments Raise {A} e.

Definition M (A : Type) : Type := World -> Outcome A * World.

Definition ret {A : Type} (a : A) : M A := fun w => (Ok a, w).
Definition raise {A : Type} (e : exn) : M A := fun w => (Raise e, w).

Definition bind {A B : Type} (c : M A) (k : A -> M B) : M B :=
  fun w =>
    match c w with
    | (Ok a, w') => k a w'
    | (Raise e, w') => (Raise e, w')
    end.

(** [try: c except Exception as e: h e]. *)
Definition try_except {A : Type} (c : M A) (h : exn -> M A) : M A :=
  fun w =>
    match c w with
    | (Ok a, w') => (Ok a, w')
    | (Raise e, w') => h e w'
    end.

Definition gets {A : Type} (f : World -> A) : M A := fun w => (Ok (f w), w).
Definition modify (f : World -> World) : M unit := fun w => (Ok tt, f w).

Notation "'let*' x ':=' c 'in' k" := (bind c (fun x => k))
  (at level 10, x name, c at level 100, k at level 200).
Notation "c '>>' k" := (bind c (fun _ => k))
  (at level 100, k at level 200, right associativity).

(** [time.time()], [int(x)] on a float (truncation toward zero) and
    [str(uuid.uuid4())]. *)
Definition time_time : M Q := gets clock.

Definition py_int (q : Q) : Z := Z.quot (Qnum q) (Z.pos (Qden q)).

(** Python floats are IEEE 754 binary64 numbers: the result of an operation
    is the exact result rounded to a 53-bit significand, to nearest, ties to
    even.  The range of the exponent plays no part at the magnitudes of clock
    readings and is left out. *)
Definition pow2 (e : Z) : Q :=
  if 0 <=? e then inject_Z (2 ^ e) else (1 / inject_Z (2 ^ (- e)))%Q.

Definition round_half_even (q : Q) : Z :=
  let f := Qfloor q in
  match (q - inject_Z f ?= 1 # 2)%Q with
  | Lt => f
  | Gt => f + 1
  | Eq => if Z.even f then f else f + 1
  end.

(** For [q > 0]: [k] is the integer with [2^k <= q < 2^(k+1)]. *)
Definition float_round_pos (q : Q) : Q :=
  let k0 := Z.log2 (Qnum q) - Z.log2 (Z.pos (Qden q)) in
  let k := if Qle_bool (pow2 k0) q then k0 else k0 - 1 in
  let e := k - 52 in
  (inject_Z (round_half_even (q / pow2 e)) * pow2 e)%Q.

Definition float_round (q : Q) : Q :=
  match Qnum q with
  | 0 => 0%Q
  | Z.pos _ => float_round_pos q
  | Z.neg _ => (- float_round_pos (- q))%Q
  end.

(** [x * y] on floats. *)
Definition float_mul (x y : Q) : Q := float_round (x * y).

Definition Qltb (a b : Q) : bool := negb (Qle_bool b a).

Definition string_of_nat (n : nat) : string :=
  NilZero.string_of_uint (Nat.to_uint n).

Definition string_of_Z (z : Z) : string :=
  NilZero.string_of_int (Z.to_int z).

Definition uuid4 : M string :=
  fun w => (Ok ("uuid-" +:+ string_of_nat (uuid_counter w)), set_uuid_counter S w).

(** [random.random()]. *)
Definition random_random : M Q :=
  fun w => (Ok (random_source w (random_pos w)), set_random_pos S w).

(** [Table.update_item]: DynamoDB edits the item, or creates one holding the
    key and the attributes set when no item exists. *)
Definition update_item {K V : Type} `{Countable K}
    (blank : V) (f : V -> V) (k : K) (m : gmap K V) : gmap K V :=
  <[k := f (default blank (m !! k))]> m.

(** ** [services/shared/idempotency.py] *)

Module idempotency.

Definition IDEMPOTENCY_TTL_SECONDS : Z := 86400.

Definition blank_item : IdemItem :=
  {| idem_status := None; idem_result := None;
     idem_created_at := None; idem_ttl := None |}.

(** [table.put_item(Item=..., ConditionExpression=
    "attribute_not_exists(idempotency_key)")]; [false] stands for the
    [ConditionalCheckFailedException]. *)
Definition put_item_if_absent (key : string) (item : IdemItem) : M bool :=
  fun w =>
    match idempotency_table w !! key with
    | Some _ => (Ok false, w)
    | None => (Ok true, set_idempotency_table (insert key item) w)
    end.

(** [table.get_item(Key=...).get("Item", {})]. *)
Definition get_item (key : string) : M IdemItem :=
  gets (fun w => default blank_item (idempotency_table w !! key)).

Definition delete_item (key : string) : M unit :=
  modify (set_idempotency_table (delete key)).

(** [update_item(... "SET #s = :s, #r = :r" ...)] with [COMPLETE] and the
    serialised result. *)
Definition set_complete (j : json) (it : IdemItem) : IdemItem :=
  {| idem_status := Some "COMPLETE"; idem_result := Some j;
     idem_created_at := idem_created_at it; idem_ttl := idem_ttl it |}.

Definition update_complete (key : string) (j : json) : M unit :=
  modify (set_idempotency_table (update_item blank_item (set_complete j) key)).

Definition status_is (s : string) (status : option string) : bool :=
  match status with
  | Some s' => String.eqb s' s
  | None => false
  end.

(** The [wrapper] built by [idempotent(key_fn)(fn)]; [key] is the value
    [key_fn] computes from the arguments and [fn] the wrapped call. *)
Definition idempotent (key : string) (fn : M pyval) : M pyval :=
  let* now := time_time in
  let ttl := py_int now + IDEMPOTENCY_TTL_SECONDS in
  let* claimed :=
    put_item_if_absent key
      {| idem_status := Some "IN_FLIGHT"; idem_result := None;
         idem_created_at := Some (py_int now); idem_ttl := Some ttl |} in
  if negb claimed then
    let* existing := get_item key in
    let status := idem_status existing in
    if status_is "COMPLETE" status then
      match idem_result existing with
      | Some j => ret (json_loads j)
      | None => raise (KeyError "result")
      end
    else if status_is "IN_FLIGHT" status then
      raise (IdempotencyAlreadyInProgressError key)
    else
      delete_item key >> raise (IdempotencyError status)
  else
    let* result := try_except fn (fun e => delete_item key >> raise e) in
    match json_dumps result with
    | None => raise TypeError
    | Some j => update_complete key j >> ret result
    end.

End idempotency.

(** ** [services/shared/circuit_breaker.py] *)

Module circuit_breaker.

Record CircuitBreaker : Type := {
  name : string;
  failure_threshold : Z;
  success_threshold : Z;
  timeout_seconds : Z
}.

Definition blank_item : CbItem :=
  {| circuit_state := None; failure_count := None;
     success_count := None; resets_at := None |}.

Definition CircuitState_eqb (a b : CircuitState) : bool :=
  match a, b with
  | CLOSED, CLOSED | OPEN, OPEN | HALF_OPEN, HALF_OPEN => true
  | _, _ => false
  end.

Definition set_closed (it : CbItem) : CbItem :=
  {| circuit_state := Some CLOSED; failure_count := Some 0;
     success_count := Some 0; resets_at := resets_at it |}.

Definition set_success_count (n : Z) (it : CbItem) : CbItem :=
  {| circuit_state := circuit_state it; failure_count := failure_count it;
     success_count := Some n; resets_at := resets_at it |}.

Definition set_failure_count (n : Z) (it : CbItem) : CbItem :=
  {| circuit_state := circuit_state it; failure_count := Some n;
     success_count := success_count it; resets_at := resets_at it |}.

Definition set_open (failures r : Z) (it : CbItem) : CbItem :=
  {| circuit_state := Some OPEN; failure_count := Some failures;
     success_count := Some 0; resets_at := Some r |}.

Definition set_half_open (it : CbItem) : CbItem :=
  {| circuit_state := Some HALF_OPEN; failure_count := failure_count it;
     success_count := Some 0; resets_at := resets_at it |}.

Definition cb_update (self : CircuitBreaker) (f : CbItem -> CbItem) : M unit :=
  modify (set_cb_table (update_item blank_item f (name self))).

(** [reset]: a full [put_item]. *)
Definition reset (self : CircuitBreaker) : M unit :=
  modify (set_cb_table (insert (name self)
    {| circuit_state := Some CLOSED; failure_count := Some 0;
       success_count := Some 0; resets_at := None |})).

Definition default_state : CbItem :=
  {| circuit_state := Some CLOSED; failure_count := Some 0;
     success_count := Some 0; resets_at := None |}.

(** [resp.get("Item") or {...CLOSED, 0, 0}]. *)
Definition _get_state (self : CircuitBreaker) : M CbItem :=
  gets (fun w => default default_state (cb_table w !! name self)).

Definition _record_success (self : CircuitBreaker) (prev_state : CbItem) : M unit :=
  match default CLOSED (circuit_state prev_state) with
  | HALF_OPEN =>
      let new_successes := default 0 (success_count prev_state) + 1 in
      if success_threshold self <=? new_successes then
        cb_update self set_closed
      else
        cb_update self (set_success_count new_successes)
  | CLOSED => cb_update self (set_failure_count 0)
  | OPEN => ret tt
  end.

Definition _record_failure (self : CircuitBreaker) (prev_state : CbItem) : M unit :=
  let new_failures := default 0 (failure_count prev_state) + 1 in
  let state := default CLOSED (circuit_state prev_state) in
  if (failure_threshold self <=? new_failures) && negb (CircuitState_eqb state OPEN) then
    let* now := time_time in
    let r := (now + inject_Z (timeout_seconds self))%Q in
    cb_update self (set_open new_failures (py_int r))
  else
    cb_update self (set_failure_count new_failures).

Definition _transition_to_half_open (self : CircuitBreaker) : M unit :=
  cb_update self set_half_open.

(** The [try] block of [call]: run [fn], then record the outcome. *)
Definition invoke_and_record {A : Type} (self : CircuitBreaker) (state : CbItem)
    (fn : M A) : M A :=
  try_except
    (let* result := fn in _record_success self state >> ret result)
    (fun e => _record_failure self state >> raise e).

Definition call {A : Type} (self : CircuitBreaker) (fn : M A) : M A :=
  let* state := _get_state self in
  let* cs :=
    match circuit_state state with
    | Some c => ret c
    | None => raise (KeyError "circuit_state")
    end in
  let* state :=
    match cs with
    | OPEN =>
        let r := default 0 (resets_at state) in
        let* now := time_time in
        if Qltb now (inject_Z r) then
          raise (CircuitBreakerOpenError (name self) r)
        else
          _transition_to_half_open self >> _get_state self
    | _ => ret state
    end in
  invoke_and_record self state fn.

End circuit_breaker.

(** ** Events handed to the Lambda handlers *)

(** The [event] dictionary of the inventory and payment handlers; an absent
    key is [None]. *)
Record Event : Type := {
  action : option string;
  order_id : option string;
  reservation_id : option string;
  items : option (list OrderItem);
  correlation_id : option string;
  customer_id : option string;
  total_cents : option Z;
  payment_id : option string
}.

(** [d[k]]: [KeyError] when the key is absent. *)
Definition getitem {A : Type} (k : string) (o : option A) : M A :=
  match o with
  | Some a => ret a
  | None => raise (KeyError k)
  end.

(** Building an [OrderItem] from a dictionary: pydantic checks [quantity > 0] and
    [unit_price_cents >= 0]. *)
Definition OrderItem_validate (i : OrderItem) : M OrderItem :=
  if (0 <? item_quantity i) && (0 <=? unit_price_cents i) then ret i
  else raise ValidationError.

(** A list comprehension whose element expression can raise. *)
Fixpoint mapM {A B : Type} (f : A -> M B) (l : list A) : M (list B) :=
  match l with
  | [] => ret []
  | x :: r => let* y := f x in let* ys := mapM f r in ret (y :: ys)
  end.

(** A [for] loop whose body can raise. *)
Fixpoint forM_ {A : Type} (l : list A) (body : A -> M unit) : M unit :=
  match l with
  | [] => ret tt
  | x :: r => body x >> forM_ r body
  end.

(** ** [services/inventory_service/handler.py] *)

Module inventory_service.

(** [SET quantity = quantity - :n, updated_at = :ts] under
    [ConditionExpression "quantity >= :n"]; [false] stands for the
    [ConditionalCheckFailedException], which an absent item raises too. *)
Definition update_item_decrement (product_id : string) (n : Z) : M bool :=
  fun w =>
    match inv_table w !! product_id with
    | Some it =>
        if n <=? quantity it then
          (Ok true,
           set_inv_table
             (insert product_id
                {| quantity := quantity it - n; updated_at := Some (clock w) |}) w)
        else (Ok false, w)
    | None => (Ok false, w)
    end.

Definition _decrement_stock (product_id : string) (quantity : Z)
    (order_id : string) : M unit :=
  let* ok := update_item_decrement product_id quantity in
  if ok then ret tt
  else raise (InsufficientStockError product_id quantity).

(** [UpdateExpression "ADD quantity :n"], unconditional. *)
Definition add_quantity (n : Z) (it : InvItem) : InvItem :=
  {| quantity := quantity it + n; updated_at := updated_at it |}.

Definition update_item_add (product_id : string) (n : Z) : M unit :=
  modify (set_inv_table
    (update_item {| quantity := 0; updated_at := None |} (add_quantity n) product_id)).

Definition set_released (r : ResItem) : ResItem :=
  {| res_order_id := res_order_id r; res_items := res_items r;
     res_status := "RELEASED"; res_created_at := res_created_at r |}.

Definition _do_reserve (order_id reservation_id : string) (items : list OrderItem)
    : M pyval :=
  forM_ items (fun item =>
    _decrement_stock (product_id item) (item_quantity item) order_id) >>
  let* now := time_time in
  modify (set_res_table (insert reservation_id
    {| res_order_id := order_id; res_items := items;
       res_status := "ACTIVE"; res_created_at := now |})) >>
  ret (PDict [("success", PBool true); ("reservation_id", PStr reservation_id)]).

Definition _reserve (event : Event) : M pyval :=
  let* order_id := getitem "order_id" (order_id event) in
  let* raw := getitem "items" (items event) in
  let* items := mapM OrderItem_validate raw in
  let* reservation_id := uuid4 in
  idempotency.idempotent ("reserve-" +:+ order_id)
    (_do_reserve order_id reservation_id items).

Definition _do_release (order_id reservation_id : string) : M pyval :=
  let* reservation := gets (fun w => res_table w !! reservation_id) in
  match reservation with
  | None =>
      ret (PDict [("success", PBool true); ("message", PStr "Nothing to release")])
  | Some reservation =>
      let* items := mapM OrderItem_validate (res_items reservation) in
      forM_ items (fun item =>
        update_item_add (product_id item) (item_quantity item)) >>
      (* the item was read above, so the update edits it *)
      modify (set_res_table (update_item reservation set_released reservation_id)) >>
      ret (PDict [("success", PBool true)])
  end.

Definition _release (event : Event) : M pyval :=
  let* reservation_id := getitem "reservation_id" (reservation_id event) in
  let* order_id := getitem "order_id" (order_id event) in
  idempotency.idempotent ("release-" +:+ reservation_id)
    (_do_release order_id reservation_id).

(** [str(e)] of an [InsufficientStockError]. *)
Definition insufficient_message (product_id : string) (quantity : Z) : string :=
  "Product '" +:+ product_id +:+ "': requested " +:+ string_of_Z quantity
    +:+ ", insufficient stock".

Definition action_is (a : string) (event : Event) : bool :=
  match action event with
  | Some a' => String.eqb a' a
  | None => false
  end.

Definition dispatch (event : Event) : M pyval :=
  if action_is "reserve" event then _reserve event
  else if action_is "release" event then _release event
  else raise (ValueError "Unknown action").

Definition handler (event : Event) : M pyval :=
  try_except (dispatch event) (fun e =>
    match e with
    | InsufficientStockError p q =>
        ret (PDict [("success", PBool false);
                    ("error", PStr "INSUFFICIENT_STOCK");
                    ("message", PStr (insufficient_message p q))])
    | _ => raise e
    end).

(** Events as the saga and the tests build them. *)
Definition reserve_event (oid : string) (its : list OrderItem) : Event :=
  {| action := Some "reserve"; order_id := Some oid; reservation_id := None;
     items := Some its; correlation_id := Some ""; customer_id := None;
     total_cents := None; payment_id := None |}.

Definition release_event (oid rid : string) : Event :=
  {| action := Some "release"; order_id := Some oid; reservation_id := Some rid;
     items := None; correlation_id := Some ""; customer_id := None;
     total_cents := None; payment_id := None |}.

End inventory_service.

(** ** [services/shared/dynamodb.py] *)

Module dynamodb.

Definition row_version (r : OrdersRow) : option Z :=
  match r with
  | MetaRow m => om_version m
  | EventRow _ => None
  end.

Definition with_version (v : Z) (m : OrderMeta) : OrderMeta :=
  {| om_customer_id := om_customer_id m; om_items := om_items m;
     om_total_cents := om_total_cents m; om_status := om_status m;
     om_correlation_id := om_correlation_id m; om_created_at := om_created_at m;
     om_updated_at := om_updated_at m; om_version := Some v |}.

(** The [ConditionExpression] of the two [put_item] calls, evaluated on the
    item stored under the same key: [Attr("pk").not_exists()] for a new item,
    [Attr(version_key).eq(current_version)] otherwise. *)
Definition condition_holds (current_version : Z) (stored : option OrdersRow) : bool :=
  if current_version =? 0 then
    match stored with None => true | Some _ => false end
  else
    match stored with
    | Some r =>
        match row_version r with
        | Some v => v =? current_version
        | None => false
        end
    | None => false
    end.

(** boto3 turns every number of a request into a [Decimal] of at most 38
    significant digits and raises a signal of the [decimal] module ([Inexact],
    [Rounded] or [Overflow], all of them [DecimalException]) for a longer
    one, before anything is sent. *)
Definition dynamodb_number (n : Z) : bool := Z.abs n <? 10 ^ 38.

Definition serializable_item (i : OrderItem) : bool :=
  dynamodb_number (item_quantity i) && dynamodb_number (unit_price_cents i).

Definition serializable_meta (m : OrderMeta) : bool :=
  forallb serializable_item (om_items m)
  && dynamodb_number (default 0 (om_total_cents m))
  && dynamodb_number (default 0 (om_version m)).

Definition put_item_with_optimistic_lock (key : OrdersKey) (item : OrderMeta)
    : M unit :=
  let current_version := default 0 (om_version item) in
  let new_item := with_version (current_version + 1) item in
  fun w =>
    if negb (serializable_meta new_item && dynamodb_number current_version) then
      (Raise DecimalException, w)
    else if condition_holds current_version (orders_table w !! key) then
      (Ok tt, set_orders_table (insert key (MetaRow new_item)) w)
    else (Raise (OptimisticLockError current_version), w).

End dynamodb.

(** ** [services/order_service/repository.py] *)

Module OrderRepository.

Definition meta_key (order_id : string) : OrdersKey := (order_id, None).

(** [_append_event]: the sort key is [EVENT#] followed by
    [int(time.time() * 1_000_000)]. *)
Definition _append_event (order_id : string) (status : OrderStatus)
    (metadata : list (string * pyval)) : M unit :=
  let* now := time_time in
  let ts := py_int (float_mul now (inject_Z 1000000)) in
  modify (set_orders_table (insert (order_id, Some ts)
    (EventRow {| oe_status := status; oe_metadata := metadata;
                 oe_occurred_at := now |}))).

Definition create (order_id customer_id : string) (items : list OrderItem)
    (total_cents : Z) (correlation_id : string) : M OrderMeta :=
  let* now := time_time in
  let item :=
    {| om_customer_id := Some customer_id; om_items := items;
       om_total_cents := Some total_cents; om_status := Some PENDING;
       om_correlation_id := Some correlation_id; om_created_at := Some now;
       om_updated_at := Some now; om_version := Some 0 |} in
  dynamodb.put_item_with_optimistic_lock (meta_key order_id) item >>
  _append_event order_id PENDING [] >>
  ret item.

Definition blank_meta : OrderMeta :=
  {| om_customer_id := None; om_items := []; om_total_cents := None;
     om_status := None; om_correlation_id := None; om_created_at := None;
     om_updated_at := None; om_version := None |}.

(** ["SET #st = :s, updated_at = :u ADD version :one"], no
    [ConditionExpression]. *)
Definition set_status (status : OrderStatus) (now : Q) (r : OrdersRow) : OrdersRow :=
  let m := match r with MetaRow m => m | EventRow _ => blank_meta end in
  MetaRow
    {| om_customer_id := om_customer_id m; om_items := om_items m;
       om_total_cents := om_total_cents m; om_status := Some status;
       om_correlation_id := om_correlation_id m; om_created_at := om_created_at m;
       om_updated_at := Some now; om_version := Some (default 0 (om_version m) + 1) |}.

Definition update_status (order_id : string) (status : OrderStatus)
    (metadata : option (list (string * pyval))) : M unit :=
  let* now := time_time in
  modify (set_orders_table
    (update_item (MetaRow blank_meta) (set_status status now) (meta_key order_id))) >>
  _append_event order_id status (default [] metadata).

Definition get (order_id : string) : M (option OrdersRow) :=
  gets (fun w => orders_table w !! meta_key order_id).

(** The [status] and [version] attributes read back from the [META] item. *)
Definition stored_status (order_id : string) (w : World) : option OrderStatus :=
  match orders_table w !! meta_key order_id with
  | Some (MetaRow m) => om_status m
  | _ => None
  end.

Definition stored_version (order_id : string) (w : World) : option Z :=
  match orders_table w !! meta_key order_id with
  | Some (MetaRow m) => om_version m
  | _ => None
  end.

End OrderRepository.

(** ** [services/payment_service/handler.py] *)

Module payment_service.

Definition payment_circuit_breaker : circuit_breaker.CircuitBreaker :=
  {| circuit_breaker.name := "external-payment-provider";
     circuit_breaker.failure_threshold := 5;
     circuit_breaker.success_threshold := 2;
     circuit_breaker.timeout_seconds := 60 |}.

(** [time.sleep(random.uniform(0.05, 0.15))]. *)
Definition sleep_uniform : M unit :=
  let* u := random_random in
  modify (set_clock (fun t => (t + (5 # 100) + (10 # 100) * u)%Q)).

Definition _call_payment_provider (action : string) : M pyval :=
  sleep_uniform >>
  let* r := random_random in
  if Qltb r (3 # 100) then raise (ConnectionError "Payment provider timed out")
  else if String.eqb action "charge" then
    let* u := uuid4 in
    modify (set_ext_log (cons ("provider charge " +:+ u))) >>
    ret (PDict [("success", PBool true); ("charge_id", PStr ("ch_" +:+ u))])
  else if String.eqb action "refund" then
    modify (set_ext_log (cons "provider refund")) >>
    ret (PDict [("success", PBool true)])
  else raise (ValueError "Unknown provider action").

(** Truth value of [d.get(k)]. *)
Definition py_truthy (v : option pyval) : bool :=
  match v with
  | None | Some PNone => false
  | Some (PBool b) => b
  | Some (PInt z) | Some (PDecimal z) => negb (z =? 0)
  | Some (PStr s) => negb (String.eqb s "")
  | Some (PList l) | Some (PTuple l) => negb (Nat.eqb (List.length l) 0)
  | Some (PDict d) => negb (Nat.eqb (List.length d) 0)
  end.

Definition decline_reason (resp : pyval) : string :=
  match py_get "decline_reason" resp with
  | Some (PStr s) => s
  | _ => "Card declined"
  end.

Definition _do_charge (order_id customer_id : string) (amount_cents : Z)
    (payment_id : string) : M pyval :=
  let* provider_response :=
    circuit_breaker.call payment_circuit_breaker (_call_payment_provider "charge") in
  if negb (py_truthy (py_get "success" provider_response)) then
    raise (PaymentDeclinedError (decline_reason provider_response))
  else
    let* charge_id :=
      match py_get "charge_id" provider_response with
      | Some (PStr c) => ret c
      | _ => raise (KeyError "charge_id")
      end in
    let* now := time_time in
    modify (set_payments_table (insert payment_id
      {| pay_order_id := order_id; pay_customer_id := customer_id;
         pay_amount_cents := amount_cents; provider_charge_id := charge_id;
         pay_status := "CHARGED"; pay_created_at := now |})) >>
    ret (PDict [("success", PBool true); ("payment_id", PStr payment_id)]).

Definition _charge (event : Event) : M pyval :=
  let* order_id := getitem "order_id" (order_id event) in
  let* customer_id := getitem "customer_id" (customer_id event) in
  let* amount_cents := getitem "total_cents" (total_cents event) in
  let* payment_id := uuid4 in
  idempotency.idempotent ("charge-" +:+ order_id)
    (_do_charge order_id customer_id amount_cents payment_id).

Definition set_refunded (p : PayItem) : PayItem :=
  {| pay_order_id := pay_order_id p; pay_customer_id := pay_customer_id p;
     pay_amount_cents := pay_amount_cents p;
     provider_charge_id := provider_charge_id p;
     pay_status := "REFUNDED"; pay_created_at := pay_created_at p |}.

Definition _do_refund (order_id payment_id : string) : M pyval :=
  let* payment := gets (fun w => payments_table w !! payment_id) in
  match payment with
  | None =>
      ret (PDict [("success", PBool true); ("message", PStr "Nothing to refund")])
  | Some payment =>
      circuit_breaker.call payment_circuit_breaker (_call_payment_provider "refund") >>
      (* the item was read above, so the update edits it *)
      modify (set_payments_table (update_item payment set_refunded payment_id)) >>
      ret (PDict [("success", PBool true)])
  end.

Definition _refund (event : Event) : M pyval :=
  let* order_id := getitem "order_id" (order_id event) in
  match payment_id event with
  | None | Some EmptyString =>
      ret (PDict [("success", PBool true); ("message", PStr "Nothing to refund")])
  | Some payment_id =>
      idempotency.idempotent ("refund-" +:+ payment_id)
        (_do_refund order_id payment_id)
  end.

Definition action_is (a : string) (event : Event) : bool :=
  match action event with
  | Some a' => String.eqb a' a
  | None => false
  end.

Definition dispatch (event : Event) : M pyval :=
  if action_is "charge" event then _charge event
  else if action_is "refund" event then _refund event
  else raise (ValueError "Unknown action").

Definition handler (event : Event) : M pyval :=
  try_except (dispatch event) (fun e =>
    match e with
    | CircuitBreakerOpenError _ r =>
        let* now := time_time in
        ret (PDict [("success", PBool false);
                    ("error", PStr "PAYMENT_PROVIDER_UNAVAILABLE");
                    ("message",
                     PStr "Payment service temporarily unavailable. Please retry shortly.");
                    ("retry_after_seconds", PInt (py_int (inject_Z r - now)%Q))])
    | PaymentDeclinedError msg =>
        ret (PDict [("success", PBool false); ("error", PStr "PAYMENT_DECLINED");
                    ("message", PStr msg)])
    | _ => raise e
    end).

End payment_service.

(** ** [infrastructure/cloudflow/saga_stack.py] *)

Module saga_stack.

(** The states [SagaStack.__init__] constructs, named by their construct
    ids; the two Choice states are ["InventoryReserved?"] and
    ["PaymentSucceeded?"]. *)
Inductive State : Type :=
| ReserveInventory
| ReleaseInventory
| ChargePayment
| NotifyOrderConfirmed
| NotifyOrderFailed
| OrderConfirmed
| OrderFailed
| PaymentSucceeded
| InventoryReserved
| SetPaymentFailedError
| SetInventoryFailedError
| NoInventoryToRelease.

Inductive Kind : Type := KTask | KPass | KChoice | KSucceed | KFail.

Definition kind (s : State) : Kind :=
  match s with
  | ReserveInventory | ReleaseInventory | ChargePayment
  | NotifyOrderConfirmed | NotifyOrderFailed => KTask
  | OrderConfirmed => KSucceed
  | OrderFailed => KFail
  | PaymentSucceeded | InventoryReserved => KChoice
  | SetPaymentFailedError | SetInventoryFailedError | NoInventoryToRelease => KPass
  end.

Definition state_id (s : State) : string :=
  match s with
  | ReserveInventory => "ReserveInventory"
  | ReleaseInventory => "ReleaseInventory"
  | ChargePayment => "ChargePayment"
  | NotifyOrderConfirmed => "NotifyOrderConfirmed"
  | NotifyOrderFailed => "NotifyOrderFailed"
  | OrderConfirmed => "OrderConfirmed"
  | OrderFailed => "OrderFailed"
  | PaymentSucceeded => "PaymentSucceeded?"
  | InventoryReserved => "InventoryReserved?"
  | SetPaymentFailedError => "SetPaymentFailedError"
  | SetInventoryFailedError => "SetInventoryFailedError"
  | NoInventoryToRelease => "NoInventoryToRelease"
  end.

Definition State_eqb (a b : State) : bool :=
  String.eqb (state_id a) (state_id b).

(** What the state objects hold while the definition is put together: the
    next state of each state, and the branches and the default of each
    Choice. *)
Record Graph : Type := {
  next_of : State -> option State;
  choices_of : State -> list State;
  default_of : State -> option State
}.

Definition empty_graph : Graph :=
  {| next_of := fun _ => None; choices_of := fun _ => [];
     default_of := fun _ => None |}.

Definition set_next (s n : State) (g : Graph) : Graph :=
  {| next_of := fun x => if State_eqb x s then Some n else next_of g x;
     choices_of := choices_of g; default_of := default_of g |}.

Definition add_choice (s n : State) (g : Graph) : Graph :=
  {| next_of := next_of g;
     choices_of := fun x => if State_eqb x s then choices_of g x ++ [n]
                            else choices_of g x;
     default_of := default_of g |}.

Definition set_default (s n : State) (g : Graph) : Graph :=
  {| next_of := next_of g; choices_of := choices_of g;
     default_of := fun x => if State_eqb x s then Some n else default_of g x |}.

(** The construction runs in a state-and-exception monad over [Graph]: an
    error of aws-cdk surfaces in Python as a [RuntimeError]. *)
Definition Build (A : Type) : Type := Graph -> Outcome A * Graph.

Definition unit_ {A : Type} (a : A) : Build A := fun g => (Ok a, g).

Definition then_ {A B : Type} (c : Build A) (k : A -> Build B) : Build B :=
  fun g =>
    match c g with
    | (Ok a, g') => k a g'
    | (Raise e, g') => (Raise e, g')
    end.

(** An [IChainable]: a state, or a chain of states. *)
Record Chain : Type := {
  startState : State;
  endStates : list State;
  lastAdded : State
}.

(** A state seen as a chainable: Task and Pass states are their own end
    state; Choice, Succeed and Fail states have none. *)
Definition chainable (s : State) : Chain :=
  {| startState := s;
     endStates := match kind s with
                  | KTask | KPass => [s]
                  | _ => []
                  end;
     lastAdded := s |}.

(** [State.makeNext]. *)
Definition makeNext (s n : State) : Build unit :=
  fun g =>
    match next_of g s with
    | Some _ =>
        (Raise (RuntimeError ("State '" +:+ state_id s
                              +:+ "' already has a next state")), g)
    | None => (Ok tt, set_next s n g)
    end.

(** [state.next(n)] on a Task or Pass state: [Chain.sequence(state, n)]. *)
Definition state_next (s : State) (n : Chain) : Build Chain :=
  then_ (makeNext s (startState n)) (fun _ =>
  unit_ {| startState := s; endStates := endStates n; lastAdded := lastAdded n |}).

Fixpoint each_next (ends : list State) (n : Chain) : Build unit :=
  match ends with
  | [] => unit_ tt
  | e :: r => then_ (state_next e n) (fun _ => each_next r n)
  end.

(** [chain.next(n)]. *)
Definition chain_next (c n : Chain) : Build Chain :=
  match endStates c with
  | [] =>
      fun g =>
        (Raise (RuntimeError ("Cannot add to chain: last state in chain ("
                              +:+ state_id (lastAdded c)
                              +:+ ") does not allow it")), g)
  | _ :: _ =>
      then_ (each_next (endStates c) n) (fun _ =>
      unit_ {| startState := startState c; endStates := endStates n;
               lastAdded := lastAdded n |})
  end.

(** [choice.when(condition, n)] and [choice.otherwise(n)]. *)
Definition when (c : State) (n : Chain) : Build unit :=
  fun g => (Ok tt, add_choice c (startState n) g).

Definition otherwise (c : State) (n : Chain) : Build unit :=
  fun g =>
    match default_of g c with
    | Some _ =>
        (Raise (RuntimeError ("Choice '" +:+ state_id c
                              +:+ "' already has a default next state")), g)
    | None => (Ok tt, set_default c (startState n) g)
    end.

(** The chaining statements of [SagaStack.__init__], in the order Python
    evaluates them; the value is the chain handed to [StateMachine]. *)
Definition __init__ : Build Chain :=
  (* compensation_chain *)
  then_ (state_next ReleaseInventory (chainable NotifyOrderFailed)) (fun c =>
  then_ (chain_next c (chainable OrderFailed)) (fun compensation_chain =>
  (* payment_succeeded.when(..., notify_confirmed.next(order_confirmed)) *)
  then_ (state_next NotifyOrderConfirmed (chainable OrderConfirmed)) (fun c =>
  then_ (when PaymentSucceeded c) (fun _ =>
  (* payment_succeeded.otherwise(Pass(...).next(compensation_chain)) *)
  then_ (state_next SetPaymentFailedError compensation_chain) (fun c =>
  then_ (otherwise PaymentSucceeded c) (fun _ =>
  (* charge_payment.next(payment_succeeded) *)
  then_ (state_next ChargePayment (chainable PaymentSucceeded)) (fun _ =>
  (* inventory_succeeded.when(..., charge_payment) *)
  then_ (when InventoryReserved (chainable ChargePayment)) (fun _ =>
  (* inventory_succeeded.otherwise(
       Pass(...).next(Pass(...).next(notify_failed).next(order_failed))) *)
  then_ (state_next NoInventoryToRelease (chainable NotifyOrderFailed)) (fun c =>
  then_ (chain_next c (chainable OrderFailed)) (fun c =>
  then_ (state_next SetInventoryFailedError c) (fun c =>
  then_ (otherwise InventoryReserved c) (fun _ =>
  (* reserve_inventory.next(inventory_succeeded) *)
  state_next ReserveInventory (chainable InventoryReserved))))))))))))).

End saga_stack.

(** ** [IdempotencyKey] and [services/order_service/handler.py] *)

(** The body of [POST /orders] once parsed, with the fields
    [CreateOrderRequest] reads; [body_idempotency_key] is a key named
    [idempotency_key] in the body. *)
Record CreateOrderBody : Type := {
  body_customer_id : option string;
  body_items : option (list OrderItem);
  body_idempotency_key : option string
}.

(** The API Gateway proxy event. *)
Record ApiEvent : Type := {
  httpMethod : option string;
  path : option string;
  headers : option (gmap string string);
  body : option CreateOrderBody
}.

Record Response : Type := {
  statusCode : Z;
  X_Correlation_Id : pyval;
  response_body : json
}.

Module IdempotencyKey.

(** [headers.get(a) or headers.get(b)]: a missing or empty value is falsy. *)
Definition get_or (h : gmap string string) (a b : string) : option string :=
  match h !! a with
  | Some (String c s) => Some (String c s)
  | _ => h !! b
  end.

Definition from_api_gateway (event : ApiEvent) : M string :=
  let headers := default ∅ (headers event) in
  match get_or headers "Idempotency-Key" "idempotency-key" with
  | Some (String c s) => ret (String c s)
  | _ => raise (ValueError "Missing required 'Idempotency-Key' header")
  end.

End IdempotencyKey.

Module order_service.

(** [OrderStatus.X.value]. *)
Definition OrderStatus_value (s : OrderStatus) : string :=
  match s with
  | PENDING => "PENDING"
  | INVENTORY_RESERVED => "INVENTORY_RESERVED"
  | PAYMENT_CHARGED => "PAYMENT_CHARGED"
  | CONFIRMED => "CONFIRMED"
  | INVENTORY_FAILED => "INVENTORY_FAILED"
  | PAYMENT_FAILED => "PAYMENT_FAILED"
  | FAILED => "FAILED"
  | COMPENSATING => "COMPENSATING"
  end.

(** [OrderItem.total_cents] and [CreateOrderRequest.total_cents]. *)
Definition OrderItem_total_cents (i : OrderItem) : Z :=
  item_quantity i * unit_price_cents i.

Definition total_cents_of (items : list OrderItem) : Z :=
  fold_left (fun acc i => acc + OrderItem_total_cents i) items 0.

(** [CreateOrderRequest(idempotency_key=key, customer_id=..., items=...)]
    from the keys of the body: a body that names [idempotency_key] itself
    gives the keyword twice, a [TypeError]; pydantic wants a customer and at
    least one item, each item valid. *)
Definition CreateOrderRequest (b : CreateOrderBody) (idempotency_key : string)
    : M (string * list OrderItem) :=
  match body_idempotency_key b with
  | Some _ => raise TypeError
  | None =>
      match body_customer_id b, body_items b with
      | Some customer_id, Some raw =>
          let* items := mapM OrderItem_validate raw in
          match items with
          | [] => raise ValidationError
          | _ :: _ => ret (customer_id, items)
          end
      | _, _ => raise ValidationError
      end
  end.

Definition empty_body : CreateOrderBody :=
  {| body_customer_id := None; body_items := None; body_idempotency_key := None |}.

(** [events_client.put_events]: the envelope draws its [event_id] from
    [uuid.uuid4()]. *)
Definition _emit_order_created_event (order_id correlation_id : string) : M unit :=
  let* event_id := uuid4 in
  modify (set_ext_log (cons ("put_events cloudflow.order.created " +:+ order_id))).

(** [sfn_client.start_execution(name="order-saga-" + order_id, ...)]. *)
Definition start_execution (order_id : string) : M unit :=
  modify (set_ext_log (cons ("start_execution order-saga-" +:+ order_id))).

Definition _idempotent_create (api_event : ApiEvent) (idempotency_key : string)
    : M pyval :=
  let* request :=
    CreateOrderRequest (default empty_body (body api_event)) idempotency_key in
  let customer_id := fst request in
  let items := snd request in
  let* order_id := uuid4 in
  let* correlation_id := uuid4 in
  let* order :=
    OrderRepository.create order_id customer_id items (total_cents_of items)
      correlation_id in
  _emit_order_created_event order_id correlation_id >>
  start_execution order_id >>
  let* status := getitem "status" (om_status order) in
  ret (PDict [("order_id", PStr order_id);
              ("status", PStr (OrderStatus_value status))]).

Definition _response (status_code : Z) (body : pyval) : M Response :=
  match json_dumps body with
  | Some j =>
      ret {| statusCode := status_code;
             X_Correlation_Id := default (PStr "") (py_get "correlation_id" body);
             response_body := j |}
  | None => raise TypeError
  end.

Definition _create_order (api_event : ApiEvent) : M Response :=
  let* idempotency_key := IdempotencyKey.from_api_gateway api_event in
  let* result :=
    idempotency.idempotent idempotency_key
      (_idempotent_create api_event idempotency_key) in
  _response 202 result.

End order_service.

(** ** [services/notification_service/handler.py] *)

(** The body of a notification message once parsed, with the keys the
    handler reads, and the SQS record that carries it. *)
Record NotifyBody : Type := {
  nb_notification_type : option string;
  nb_order_id : option string;
  nb_customer_id : option string;
  nb_total_cents : option Z;
  nb_error_reason : option string
}.

Record SqsRecord : Type := {
  messageId : option string;
  attributes : option (gmap string string);
  sqs_body : option NotifyBody
}.

Module notification_service.

(** [IdempotencyKey.from_sqs_message]:
    [attrs.get("MessageDeduplicationId") or record["messageId"]]. *)
Definition from_sqs_message (record : SqsRecord) : M string :=
  let attrs := default ∅ (attributes record) in
  match attrs !! "MessageDeduplicationId" with
  | Some (String c s) => ret (String c s)
  | _ => getitem "messageId" (messageId record)
  end.

(** [sns_client.publish]: the log keeps the notification type and the order;
    subject and message text are left out. *)
Definition publish (notification_type order_id : string) : M unit :=
  modify (set_ext_log (cons ("sns publish " +:+ notification_type +:+ " " +:+ order_id))).

(** [a / b] on integers is the correctly rounded float, and raises
    [OverflowError] when that lies beyond the largest float. *)
Definition true_div_overflows (a b : Z) : bool :=
  (2 ^ 1024 - 2 ^ 970) * Z.abs b <=? Z.abs a.

(** [_build_message]: the text it builds is left out; what is kept is that
    the ORDER_CONFIRMED template divides [total_cents] by 100. *)
Definition _build_message (notification_type : string) (body : NotifyBody)
    : M unit :=
  if String.eqb notification_type "ORDER_CONFIRMED" then
    if true_div_overflows (default 0 (nb_total_cents body)) 100
    then raise OverflowError
    else ret tt
  else ret tt.

(** [SNS_TOPIC_ARN] is read from the environment when the module is loaded:
    [topic] here. *)
Definition _do_notify (topic : string) (body : NotifyBody) : M pyval :=
  let notification_type := default "ORDER_CONFIRMED" (nb_notification_type body) in
  let* order_id := getitem "order_id" (nb_order_id body) in
  let* customer_id := getitem "customer_id" (nb_customer_id body) in
  _build_message notification_type body >>
  (match topic with
   | EmptyString => ret tt
   | String _ _ => publish notification_type order_id
   end) >>
  ret (PDict [("sent", PBool true)]).

Definition _process_record (topic : string) (record : SqsRecord) : M unit :=
  let* idempotency_key := from_sqs_message record in
  let* body := getitem "body" (sqs_body record) in
  idempotency.idempotent ("notify-" +:+ idempotency_key) (_do_notify topic body) >>
  ret tt.

(** The loop of [handler]: a record that fails is reported by its
    [messageId]. *)
Fixpoint process_records (topic : string) (records : list SqsRecord)
    (failures : list string) : M (list string) :=
  match records with
  | [] => ret failures
  | record :: rest =>
      let* failures :=
        try_except (_process_record topic record >> ret failures)
          (fun _ =>
             let* message_id := getitem "messageId" (messageId record) in
             ret (failures ++ [message_id])) in
      process_records topic rest failures
  end.

Definition batch_item_failures (failures : list string) : pyval :=
  PDict [("batchItemFailures",
          PList (map (fun i => PDict [("itemIdentifier", PStr i)]) failures))].

Definition handler (topic : string) (records : option (list SqsRecord)) : M pyval :=
  let* failures := process_records topic (default [] records) [] in
  ret (batch_item_failures failures).

End notification_service.

(** ** [decimal_to_python] of [services/shared/dynamodb.py] *)

(** [obj % 1 == 0] is computed in the default [decimal] context, 28 digits:
    for a whole [Decimal] of 29 digits or more the remainder raises
    [InvalidOperation], a [DecimalException]; a shorter one becomes an [int]
    (the numbers stored are whole).  Dictionaries and lists are converted
    element by element, anything else, a tuple included, is returned as it
    is. *)
Fixpoint decimal_to_python (obj : pyval) : Outcome pyval :=
  match obj with
  | PDecimal z =>
      if Z.abs z <? 10 ^ 28 then Ok (PInt z) else Raise DecimalException
  | PDict d =>
      match (fix go (d : list (string * pyval)) : Outcome (list (string * pyval)) :=
               match d with
               | [] => Ok []
               | kv :: r =>
                   match decimal_to_python (snd kv) with
                   | Ok v =>
                       match go r with
                       | Ok r' => Ok ((fst kv, v) :: r')
                       | Raise e => Raise e
                       end
                   | Raise e => Raise e
                   end
               end) d with
      | Ok d' => Ok (PDict d')
      | Raise e => Raise e
      end
  | PList l =>
      match (fix go (l : list pyval) : Outcome (list pyval) :=
               match l with
               | [] => Ok []
               | x :: r =>
                   match decimal_to_python x with
                   | Ok v =>
                       match go r with
                       | Ok r' => Ok (v :: r')
                       | Raise e => Raise e
                       end
                   | Raise e => Raise e
                   end
               end) l with
      | Ok l' => Ok (PList l')
      | Raise e => Raise e
      end
  | _ => Ok obj
  end.

(** ** Induction over nested values *)

Section json_induction.
Variable P : json -> Prop.
Hypothesis Hnull : P JNull.
Hypothesis Hbool : forall b, P (JBool b).
Hypothesis Hnum : forall z, P (JNum z).
Hypothesis Hstr : forall s, P (JStr s).
Hypothesis Harr : forall l, Forall P l -> P (JArr l).
Hypothesis Hobj : forall d, Forall (fun kv => P (snd kv)) d -> P (JObj d).

Fixpoint json_nested_ind (j : json) : P j :=
  match j with
  | JNull => Hnull
  | JBool b => Hbool b
  | JNum z => Hnum z
  | JStr s => Hstr s
  | JArr l =>
      Harr l ((fix go (l : list json) : Forall P l :=
                 match l with
                 | [] => @List.Forall_nil _ P
                 | x :: r => @List.Forall_cons _ P x r (json_nested_ind x) (go r)
                 end) l)
  | JObj d =>
      Hobj d ((fix go (d : list (string * json))
                 : Forall (fun kv => P (snd kv)) d :=
                 match d with
                 | [] => @List.Forall_nil _ _
                 | kv :: r =>
                     @List.Forall_cons _ (fun kv => P (snd kv)) kv r
                       (json_nested_ind (snd kv)) (go r)
                 end) d)
  end.
End json_induction.

Section pyval_induction.
Variable P : pyval -> Prop.
Hypothesis Hnone : P PNone.
Hypothesis Hbool : forall b, P (PBool b).
Hypothesis Hint : forall z, P (PInt z).
Hypothesis Hstr : forall s, P (PStr s).
Hypothesis Hdec : forall z, P (PDecimal z).
Hypothesis Hlist : forall l, Forall P l -> P (PList l).
Hypothesis Htuple : forall l, Forall P l -> P (PTuple l).
Hypothesis Hdict : forall d, Forall (fun kv => P (snd kv)) d -> P (PDict d).

Fixpoint pyval_nested_ind (v : pyval) : P v :=
  match v with
  | PNone => Hnone
  | PBool b => Hbool b
  | PInt z => Hint z
  | PStr s => Hstr s
  | PDecimal z => Hdec z
  | PList l =>
      Hlist l ((fix go (l : list pyval) : Forall P l :=
                  match l with
                  | [] => @List.Forall_nil _ P
                  | x :: r => @List.Forall_cons _ P x r (pyval_nested_ind x) (go r)
                  end) l)
  | PTuple l =>
      Htuple l ((fix go (l : list pyval) : Forall P l :=
                   match l with
                   | [] => @List.Forall_nil _ P
                   | x :: r => @List.Forall_cons _ P x r (pyval_nested_ind x) (go r)
                   end) l)
  | PDict d =>
      Hdict d ((fix go (d : list (string * pyval))
                  : Forall (fun kv => P (snd kv)) d :=
                  match d with
                  | [] => @List.Forall_nil _ _
                  | kv :: r =>
                      @List.Forall_cons _ (fun kv => P (snd kv)) kv r
                        (pyval_nested_ind (snd kv)) (go r)
                  end) d)
  end.
End pyval_induction.

(** ** Vocabulary of the statements *)

(** The item the wrapper writes when it claims a key at time [now], and the
    world right after a successful claim. *)
Definition in_flight_item (now : Q) : IdemItem :=
  {| idem_status := Some "IN_FLIGHT"; idem_result := None;
     idem_created_at := Some (py_int now);
     idem_ttl := Some (py_int now + idempotency.IDEMPOTENCY_TTL_SECONDS) |}.

Definition claimed (key : string) (w : World) : World :=
  set_idempotency_table (insert key (in_flight_item (clock w))) w.

(** A callable that leaves a mark in [ext_log] each time it is executed, as
    the [call_count] of the unit tests does. *)
Definition logged {A : Type} (tag : string) (fn : M A) : M A :=
  fun w => fn (set_ext_log (cons tag) w).

(** A world holding one idempotency record under ["k"], and sample records. *)
Definition world_with_record (it : IdemItem) : World :=
  set_idempotency_table (insert "k" it) (empty_world 0).

Definition complete_item (j : json) : IdemItem :=
  {| idem_status := Some "COMPLETE"; idem_result := Some j;
     idem_created_at := Some 0; idem_ttl := Some 86400 |}.

Definition stale_item : IdemItem :=
  {| idem_status := Some "EXPIRED"; idem_result := None;
     idem_created_at := Some 0; idem_ttl := Some 86400 |}.

(** Callables of the unit tests: one that always raises, one that fails on its
    first execution only, one that returns a pair. *)
Definition always_fails : M pyval :=
  fun w => (Raise (ConnectionError "Provider down"), w).

Definition flaky_fn : M pyval :=
  fun w =>
    if (List.length (ext_log w) <=? 1)%nat
    then (Raise (RuntimeError "Transient failure"), w)
    else (Ok (PDict [("success", PBool true)]), w).

Definition pair_fn : M pyval := ret (PTuple [PInt 1; PInt 2]).

(** Number of executions of a [logged "f"] callable recorded in a world. *)
Definition executions (w : World) : nat := count_occ string_dec (ext_log w) "f".

(** C1 as stated, for two successive calls through the wrapper with the same
    key: the wrapped function is executed at most once, and the two results,
    when both calls return one, are equal. *)
Definition at_most_once_and_equal (key : string) (fn : M pyval) (w : World) : Prop :=
  let c1 := idempotency.idempotent key (logged "f" fn) w in
  let c2 := idempotency.idempotent key (logged "f" fn) (snd c1) in
  (executions (snd c2) <= executions w + 1)%nat /\
  forall a b, fst c1 = Ok a -> fst c2 = Ok b -> a = b.

(** The breaker item stored under the breaker's name once [c] has run. *)
Definition stored_after (self : circuit_breaker.CircuitBreaker) (c : M unit)
    (w : World) : option CbItem :=
  cb_table (snd (c w)) !! circuit_breaker.name self.

(** A world holding one breaker item, at time [t]. *)
Definition world_with_breaker (self : circuit_breaker.CircuitBreaker)
    (st : CbItem) (t : Q) : World :=
  set_cb_table (insert (circuit_breaker.name self) st) (empty_world t).

Definition breaker3 : circuit_breaker.CircuitBreaker :=
  {| circuit_breaker.name := "b"; circuit_breaker.failure_threshold := 3;
     circuit_breaker.success_threshold := 2;
     circuit_breaker.timeout_seconds := 30 |}.

Definition breaker_item (s : CircuitState) (fc sc : Z) (r : option Z) : CbItem :=
  {| circuit_state := Some s; failure_count := Some fc;
     success_count := Some sc; resets_at := r |}.

(** C7 as stated, for a failure recorded in CLOSED: OPEN with
    [resets_at = now + timeout_seconds] and [success_count = 0] when
    [failure_count + 1] equals the threshold, otherwise still CLOSED with the
    count incremented. *)
Definition claimed_failure_in_closed (self : circuit_breaker.CircuitBreaker)
    (st : CbItem) (w : World) : Prop :=
  let fc := default 0 (failure_count st) in
  match stored_after self (circuit_breaker._record_failure self st) w with
  | Some st' =>
      if fc + 1 =? circuit_breaker.failure_threshold self then
        circuit_state st' = Some OPEN /\ success_count st' = Some 0 /\
        exists r, resets_at st' = Some r /\
          (inject_Z r == clock w + inject_Z (circuit_breaker.timeout_seconds self))%Q
      else
        circuit_state st' = Some CLOSED /\ failure_count st' = Some (fc + 1)
  | None => False
  end.

(** C7 as stated, for a probe failure in HALF_OPEN: back to OPEN. *)
Definition claimed_probe_failure (self : circuit_breaker.CircuitBreaker)
    (st : CbItem) (w : World) : Prop :=
  match stored_after self (circuit_breaker._record_failure self st) w with
  | Some st' => circuit_state st' = Some OPEN
  | None => False
  end.

(** No product has a negative stored quantity. *)
Definition stock_nonneg (w : World) : Prop :=
  forall p it, inv_table w !! p = Some it -> 0 <= quantity it.

(** The stored quantity of product [p] is at least [q]. *)
Definition stock_at_least (p : string) (q : Z) (w : World) : Prop :=
  exists it, inv_table w !! p = Some it /\ q <= quantity it.

(** World properties that do not look at the table or counter named. *)
Definition stable_idem (P : World -> Prop) : Prop :=
  forall f w, P w -> P (set_idempotency_table f w).
Definition stable_cb (P : World -> Prop) : Prop :=
  forall f w, P w -> P (set_cb_table f w).
Definition stable_inv (P : World -> Prop) : Prop :=
  forall f w, P w -> P (set_inv_table f w).
Definition stable_res (P : World -> Prop) : Prop :=
  forall f w, P w -> P (set_res_table f w).
Definition stable_payments (P : World -> Prop) : Prop :=
  forall f w, P w -> P (set_payments_table f w).
Definition stable_queue (P : World -> Prop) : Prop :=
  forall f w, P w -> P (set_notification_queue f w).
Definition stable_ext (P : World -> Prop) : Prop :=
  forall f w, P w -> P (set_ext_log f w).
Definition stable_clock (P : World -> Prop) : Prop :=
  forall f w, P w -> P (set_clock f w).
Definition stable_uuid (P : World -> Prop) : Prop :=
  forall f w, P w -> P (set_uuid_counter f w).
Definition stable_random (P : World -> Prop) : Prop :=
  forall f w, P w -> P (set_random_pos f w).

(** Sample inventory: 5 of product A, none of product B. *)
Definition item_A2 : OrderItem :=
  {| product_id := "A"; item_quantity := 2; unit_price_cents := 100 |}.
Definition item_B1 : OrderItem :=
  {| product_id := "B"; item_quantity := 1; unit_price_cents := 100 |}.

Definition stocked_world : World :=
  set_inv_table
    (fun _ => <["A" := {| quantity := 5; updated_at := None |}]>
                (<["B" := {| quantity := 0; updated_at := None |}]> ∅))
    (empty_world 100).

(** A world in which reservation ["r1"] of 3 units of A was released long ago:
    its record says RELEASED and the idempotency record of that release has
    been evicted by the TTL. *)
Definition released_world : World :=
  set_res_table
    (insert "r1"
       {| res_order_id := "o1";
          res_items := [{| product_id := "A"; item_quantity := 3;
                           unit_price_cents := 100 |}];
          res_status := "RELEASED"; res_created_at := 0 |})
    stocked_world.

(** C6, first sentence as stated: a Release whose reservation is absent or
    already RELEASED leaves every inventory quantity as it was. *)
Definition release_is_noop (oid rid : string) (w : World) : Prop :=
  (res_table w !! rid = None \/
   exists r, res_table w !! rid = Some r /\ res_status r = "RELEASED") ->
  inv_table (snd (inventory_service.handler (inventory_service.release_event oid rid) w))
    = inv_table w.

(** The idempotency record under [key], if any, is IN_FLIGHT or COMPLETE: the
    only statuses the wrapper writes. *)
Definition record_well_formed (key : string) (w : World) : Prop :=
  forall it, idempotency_table w !! key = Some it ->
    idem_status it = Some "COMPLETE" \/ idem_status it = Some "IN_FLIGHT".

(** The bounds pydantic checks on an [OrderItem]. *)
Definition valid_item (i : OrderItem) : bool :=
  (0 <? item_quantity i) && (0 <=? unit_price_cents i).

(** The order of the sample scenarios: created PENDING for 2 x A. *)
Definition order_created_world : World :=
  snd (OrderRepository.create "o1" "alice" [item_A2] 200 "corr" stocked_world).

(** Items the breaker itself writes when it starts from [reset] and its calls
    run one after the other: a CLOSED item is below the failure threshold, an
    OPEN or HALF_OPEN item has reached it. *)
Definition own_item (self : circuit_breaker.CircuitBreaker) (st : CbItem) : Prop :=
  exists fc,
    failure_count st = Some fc /\
    match circuit_state st with
    | Some CLOSED => fc < circuit_breaker.failure_threshold self
    | Some OPEN | Some HALF_OPEN => circuit_breaker.failure_threshold self <= fc
    | None => False
    end.

(** Successive calls through the breaker, one after the other. *)
Fixpoint call_each {A : Type} (self : circuit_breaker.CircuitBreaker)
    (fns : list (M A)) (w : World) : World :=
  match fns with
  | [] => w
  | fn :: r => call_each self r (snd (circuit_breaker.call self fn w))
  end.

(** Callables that always raise, or always return, and leave the breaker
    table alone. *)
Definition fails_leaving_breaker {A : Type} (fn : M A) : Prop :=
  forall w, (exists e, fst (fn w) = Raise e) /\ cb_table (snd (fn w)) = cb_table w.

Definition returns_leaving_breaker {A : Type} (fn : M A) : Prop :=
  forall w, (exists a, fst (fn w) = Ok a) /\ cb_table (snd (fn w)) = cb_table w.

(** Successive status writes on one order. *)
Fixpoint update_each (oid : string) (statuses : list OrderStatus) (w : World) : World :=
  match statuses with
  | [] => w
  | s :: r => update_each oid r (snd (OrderRepository.update_status oid s None w))
  end.

(** The sort-key timestamp [_append_event] derives from the clock. *)
Definition ts_of (t : Q) : Z := py_int (float_mul t (inject_Z 1000000)).

(** The numbers of an order that [create] sends to DynamoDB all fit its 38
    digits. *)
Definition storable_order (its : list OrderItem) (total : Z) : bool :=
  forallb dynamodb.serializable_item its && dynamodb.dynamodb_number total.

(** The item [create] builds, and the world it leaves on a fresh order id. *)
Definition new_order (cid : string) (its : list OrderItem) (total : Z)
    (corr : string) (now : Q) : OrderMeta :=
  {| om_customer_id := Some cid; om_items := its;
     om_total_cents := Some total; om_status := Some PENDING;
     om_correlation_id := Some corr; om_created_at := Some now;
     om_updated_at := Some now; om_version := Some 0 |}.

Definition order_stored (oid cid : string) (its : list OrderItem) (total : Z)
    (corr : string) (w : World) : World :=
  set_orders_table
    (insert (oid, Some (ts_of (clock w)))
       (EventRow {| oe_status := PENDING; oe_metadata := [];
                    oe_occurred_at := clock w |}))
    (set_orders_table
       (insert (OrderRepository.meta_key oid)
          (MetaRow (dynamodb.with_version 1 (new_order cid its total corr (clock w)))))
       w).
Definition event_ts (w : World) : Z := ts_of (clock w).

(** Units of product [p] that a list of items asks for, and the stored
    quantity of [p]. *)
Fixpoint total_for (p : string) (its : list OrderItem) : Z :=
  match its with
  | [] => 0
  | i :: r =>
      (if String.eqb (product_id i) p then item_quantity i else 0) + total_for p r
  end.

Definition stock_of (w : World) (p : string) : option Z :=
  quantity <$> inv_table w !! p.



Definition add_all (its : list OrderItem) : M unit :=
  forM_ its (fun item =>
    inventory_service.update_item_add (product_id item) (item_quantity item)).

(** The reservation id the next [uuid.uuid4()] yields, and the answers of a
    Reserve. *)
Definition next_uuid (w : World) : string :=
  "uuid-" +:+ string_of_nat (uuid_counter w).



(** Events as the saga builds them for the payment service. *)
Definition charge_event (oid cid : string) (total : Z) : Event :=
  {| action := Some "charge"; order_id := Some oid; reservation_id := None;
     items := None; correlation_id := Some ""; customer_id := Some cid;
     total_cents := Some total; payment_id := None |}.

Definition refund_event (oid : string) (pid : option string) : Event :=
  {| action := Some "refund"; order_id := Some oid; reservation_id := None;
     items := None; correlation_id := Some ""; customer_id := None;
     total_cents := None; payment_id := pid |}.

(** The answer of the payment handler while the breaker is open. *)
Definition provider_unavailable (retry_after : Z) : pyval :=
  PDict [("success", PBool false);
         ("error", PStr "PAYMENT_PROVIDER_UNAVAILABLE");
         ("message",
          PStr "Payment service temporarily unavailable. Please retry shortly.");
         ("retry_after_seconds", PInt retry_after)].

Definition charge_success (pid : string) : pyval :=
  PDict [("success", PBool true); ("payment_id", PStr pid)].

Definition nothing_to_refund : pyval :=
  PDict [("success", PBool true); ("message", PStr "Nothing to refund")].

(** A body [CreateOrderRequest] accepts: no [idempotency_key] of its own, a
    customer, and at least one item, all items valid. *)
Definition valid_request (b : CreateOrderBody) : bool :=
  match body_idempotency_key b, body_customer_id b, body_items b with
  | None, Some _, Some (i :: r) => forallb valid_item (i :: r)
  | _, _, _ => false
  end.

(** What [CreateOrderRequest] raises on a body it rejects. *)
Definition request_error (b : CreateOrderBody) : exn :=
  match body_idempotency_key b with
  | Some _ => TypeError
  | None => ValidationError
  end.

Definition request_body (ev : ApiEvent) : CreateOrderBody :=
  default order_service.empty_body (body ev).

(** The [202 Accepted] answer of [POST /orders]. *)
Definition accepted (order_id : string) : Response :=
  {| statusCode := 202; X_Correlation_Id := PStr "";
     response_body := JObj [("order_id", JStr order_id); ("status", JStr "PENDING")] |}.

Definition falsy (v : option string) : Prop := v = None \/ v = Some EmptyString.

(** A [POST /orders] request carrying [key] in its [Idempotency-Key] header. *)
Definition post_event (key : string) (b : CreateOrderBody) : ApiEvent :=
  {| httpMethod := Some "POST"; path := Some "/orders";
     headers := Some {["Idempotency-Key" := key]}; body := Some b |}.

Definition body_A2 : CreateOrderBody :=
  {| body_customer_id := Some "c1"; body_items := Some [item_A2];
     body_idempotency_key := None |}.

(** The key [from_sqs_message] derives from a record, if any. *)
Definition record_key (r : SqsRecord) : option string :=
  match default ∅ (attributes r) !! "MessageDeduplicationId" with
  | Some (String c s) => Some (String c s)
  | _ => messageId r
  end.

(** The message of the body cannot be built: its template divides a total
    too large for a float. *)
Definition message_overflows (b : NotifyBody) : bool :=
  String.eqb (default "ORDER_CONFIRMED" (nb_notification_type b)) "ORDER_CONFIRMED"
  && notification_service.true_div_overflows (default 0 (nb_total_cents b)) 100.

(** A record whose body names the order and the customer, and whose message
    can be built. *)
Definition sendable (r : SqsRecord) : bool :=
  match sqs_body r with
  | Some b =>
      match nb_order_id b, nb_customer_id b with
      | Some _, Some _ => negb (message_overflows b)
      | _, _ => false
      end
  | None => false
  end.

Definition completed_record (o : option IdemItem) : Prop :=
  exists it j, o = Some it /\ idem_status it = Some "COMPLETE" /\ idem_result it = Some j.

(** The key of the record is unclaimed, or holds a COMPLETE record with its
    result. *)
Definition clean (r : SqsRecord) (w : World) : Prop :=
  forall k, record_key r = Some k ->
    idempotency_table w !! ("notify-" +:+ k) = None \/
    completed_record (idempotency_table w !! ("notify-" +:+ k)).

(** Processing the record again changes nothing: its key is COMPLETE, or
    unclaimed while the record cannot be sent. *)
Definition settled (r : SqsRecord) (w : World) : Prop :=
  forall k, record_key r = Some k ->
    completed_record (idempotency_table w !! ("notify-" +:+ k)) \/
    (idempotency_table w !! ("notify-" +:+ k) = None /\ sendable r = false).

(** A confirmation message for order [oid], delivered as SQS record [mid]. *)
Definition confirmed_record (mid oid : string) : SqsRecord :=
  {| messageId := Some mid; attributes := None;
     sqs_body := Some {| nb_notification_type := Some "ORDER_CONFIRMED";
                         nb_order_id := Some oid; nb_customer_id := Some "c1";
                         nb_total_cents := Some 200; nb_error_reason := None |} |}.

(** Values that hold no tuple, as the items DynamoDB returns. *)
Fixpoint tuple_free (v : pyval) : bool :=
  match v with
  | PTuple _ => false
  | PList l => forallb tuple_free l
  | PDict d => forallb (fun kv => tuple_free (snd kv)) d
  | _ => true
  end.

(** Every [Decimal] the conversion reaches has fewer than 29 digits. *)
Fixpoint small_decimals (v : pyval) : bool :=
  match v with
  | PDecimal z => Z.abs z <? 10 ^ 28
  | PList l => forallb small_decimals l
  | PDict d => forallb (fun kv => small_decimals (snd kv)) d
  | _ => true
  end.

(** * Properties *)

(** ** Reasoning rules for [M] *)

(** A Hoare triple over the world: from a world satisfying [P], the outcome
    and the final world of [c] satisfy [Q]. *)
Definition hoare {A : Type} (P : World -> Prop) (c : M A)
    (Q : Outcome A -> World -> Prop) : Prop :=
  forall w, P w -> Q (fst (c w)) (snd (c w)).

(** [c] keeps the world property [P], whatever its outcome. *)
Definition preserves {A : Type} (P : World -> Prop) (c : M A) : Prop :=
  hoare P c (fun _ w' => P w').

(** [I] holds on every successful result of [c], and [P] is kept. *)
Definition yields {A : Type} (P : World -> Prop) (c : M A) (I : A -> Prop) : Prop :=
  hoare P c (fun o w' => P w' /\ match o with Ok a => I a | Raise _ => True end).

Lemma hoare_bind {A B : Type} (P : World -> Prop) (c : M A) (k : A -> M B)
    (R : A -> World -> Prop) (Q : Outcome B -> World -> Prop) :
  hoare P c (fun o w' => match o with Ok a => R a w' | Raise e => Q (Raise e) w' end) ->
  (forall a, hoare (R a) (k a) Q) ->
  hoare P (bind c k) Q.
Proof.
  intros Hc Hk w HP. specialize (Hc w HP). unfold bind.
  destruct (c w) as [[a|e] w']; simpl in *.
  - apply Hk, Hc.
  - exact Hc.
Qed.

Lemma preserves_ret {A : Type} (P : World -> Prop) (a : A) : preserves P (ret a).
Proof. intros w HP. exact HP. Qed.

Lemma preserves_raise {A : Type} (P : World -> Prop) (e : exn) :
  preserves P (@raise A e).
Proof. intros w HP. exact HP. Qed.

Lemma preserves_gets {A : Type} (P : World -> Prop) (f : World -> A) :
  preserves P (gets f).
Proof. intros w HP. exact HP. Qed.

Lemma preserves_modify (P : World -> Prop) (f : World -> World) :
  (forall w, P w -> P (f w)) -> preserves P (modify f).
Proof. intros Hf w HP. apply Hf, HP. Qed.

Lemma preserves_bind {A B : Type} (P : World -> Prop) (c : M A) (k : A -> M B) :
  preserves P c -> (forall a, preserves P (k a)) -> preserves P (bind c k).
Proof.
  intros Hc Hk. apply hoare_bind with (R := fun _ w' => P w').
  - intros w HP. specialize (Hc w HP). destruct (c w) as [[a|e] w']; exact Hc.
  - exact Hk.
Qed.

Lemma preserves_bind_yields {A B : Type} (P : World -> Prop) (c : M A)
    (k : A -> M B) (I : A -> Prop) :
  yields P c I -> (forall a, I a -> preserves P (k a)) -> preserves P (bind c k).
Proof.
  intros Hc Hk. apply hoare_bind with (R := fun a w' => P w' /\ I a).
  - intros w HP. specialize (Hc w HP).
    destruct (c w) as [[a|e] w']; simpl in *; tauto.
  - intros a w [HP HI]. apply (Hk a HI w HP).
Qed.

Lemma preserves_try_except {A : Type} (P : World -> Prop) (c : M A)
    (h : exn -> M A) :
  preserves P c -> (forall e, preserves P (h e)) -> preserves P (try_except c h).
Proof.
  intros Hc Hh w HP. specialize (Hc w HP). unfold try_except.
  destruct (c w) as [[a|e] w']; simpl in *.
  - exact Hc.
  - apply Hh, Hc.
Qed.

Lemma preserves_getitem {A : Type} (P : World -> Prop) (k : string) (o : option A) :
  preserves P (getitem k o).
Proof. destruct o; intros w HP; exact HP. Qed.

Lemma preserves_forM_ {A : Type} (P : World -> Prop) (l : list A)
    (body : A -> M unit) :
  Forall (fun x => preserves P (body x)) l -> preserves P (forM_ l body).
Proof.
  induction 1 as [|x r Hx _ IH]; simpl.
  - apply preserves_ret.
  - apply preserves_bind; [exact Hx | intros _; exact IH].
Qed.

Lemma OrderItem_validate_cases (i : OrderItem) (w : World) :
  (OrderItem_validate i w = (Ok i, w) /\ 0 < item_quantity i) \/
  OrderItem_validate i w = (Raise ValidationError, w).
Proof.
  unfold OrderItem_validate.
  destruct (0 <? item_quantity i) eqn:Hq; simpl; [|right; reflexivity].
  destruct (0 <=? unit_price_cents i); simpl; [|right; reflexivity].
  left. split; [reflexivity | lia].
Qed.

(** Validation returns the list it was given, touches nothing, and succeeds
    only when every item passes the pydantic bounds. *)
Lemma mapM_validate (l : list OrderItem) (w : World) :
  (mapM OrderItem_validate l w = (Ok l, w) /\
   Forall (fun i => 0 < item_quantity i) l) \/
  mapM OrderItem_validate l w = (Raise ValidationError, w).
Proof.
  induction l as [|i r IH]; simpl.
  - left. split; [reflexivity | constructor].
  - unfold bind.
    destruct (OrderItem_validate_cases i w) as [[Ei Hq] | Ei]; rewrite Ei;
      [|right; reflexivity].
    destruct IH as [[Er Hall] | Er]; rewrite Er; [|right; reflexivity].
    left. split; [reflexivity | constructor; assumption].
Qed.

Lemma yields_mapM_validate (P : World -> Prop) (l : list OrderItem) :
  yields P (mapM OrderItem_validate l)
    (fun l' => l' = l /\ Forall (fun i => 0 < item_quantity i) l).
Proof.
  intros w HP. destruct (mapM_validate l w) as [[E Hall] | E]; rewrite E; simpl; auto.
Qed.

(** ** JSON round trips *)


(** Serialising a deserialised document gives the document back. *)
Lemma json_dumps_loads (j : json) : json_dumps (json_loads j) = Some j.
Proof.
  induction j as [| | | |l IH|d IH] using json_nested_ind; try reflexivity.
  - simpl. induction IH as [|x r Hx _ IHr]; [reflexivity|].
    simpl in *. rewrite Hx.
    destruct ((fix go (l : list pyval) : option (list json) := _) (List.map json_loads r));
      simpl in *; congruence.
  - simpl. induction IH as [|[k x] r Hx _ IHr]; [reflexivity|].
    simpl in *. rewrite Hx.
    destruct ((fix go (d : list (string * pyval)) : option (list (string * json)) := _)
                (List.map (fun kv => (fst kv, json_loads (snd kv))) r));
      simpl in *; congruence.
Qed.

(** A JSON-stable value survives the round trip unchanged. *)
Lemma json_stable_roundtrip (v : pyval) :
  json_stable v = true ->
  exists j, json_dumps v = Some j /\ json_loads j = v.
Proof.
  induction v as [| | | | |l IH|l IH|d IH] using pyval_nested_ind;
    simpl; try discriminate; try (intros _; eexists; split; reflexivity).
  - intros Hs.
    assert (exists js, (fix go (l : list pyval) : option (list json) :=
                          match l with
                          | [] => Some []
                          | x :: r =>
                              match json_dumps x, go r with
                              | Some a, Some b => Some (a :: b)
                              | _, _ => None
                              end
                          end) l = Some js /\ List.map json_loads js = l) as (js & -> & Hjs).
    { induction IH as [|x r Hx _ IHr]; [exists []; split; reflexivity|].
      simpl in Hs. apply andb_true_iff in Hs as [Hsx Hsr].
      destruct (Hx Hsx) as (jx & -> & Hjx). destruct (IHr Hsr) as (jr & -> & Hjr).
      exists (jx :: jr). simpl. split; congruence. }
    exists (JArr js). simpl. split; congruence.
  - intros Hs.
    assert (exists js, (fix go (d : list (string * pyval))
                          : option (list (string * json)) :=
                          match d with
                          | [] => Some []
                          | (k, x) :: r =>
                              match json_dumps x, go r with
                              | Some a, Some b => Some ((k, a) :: b)
                              | _, _ => None
                              end
                          end) d = Some js /\
                       List.map (fun kv => (fst kv, json_loads (snd kv))) js = d)
      as (js & -> & Hjs).
    { induction IH as [|[k x] r Hx _ IHr]; [exists []; split; reflexivity|].
      simpl in Hs, Hx. apply andb_true_iff in Hs as [Hsx Hsr].
      destruct (Hx Hsx) as (jx & -> & Hjx). destruct (IHr Hsr) as (jr & -> & Hjr).
      exists ((k, jx) :: jr). simpl. split; congruence. }
    exists (JObj js). simpl. split; congruence.
Qed.

(** ** The idempotency wrapper *)

Lemma status_is_true (s : string) (status : option string) :
  idempotency.status_is s status = true <-> status = Some s.
Proof.
  destruct status as [s'|]; simpl; [|split; discriminate].
  rewrite String.eqb_eq. split; congruence.
Qed.

Lemma status_is_false (s : string) (status : option string) :
  status <> Some s -> idempotency.status_is s status = false.
Proof.
  intros Hne. destruct (idempotency.status_is s status) eqn:E; [|reflexivity].
  apply status_is_true in E. contradiction.
Qed.

(** What the wrapper does when the conditional put fails. *)
Lemma idempotent_existing (key : string) (fn : M pyval) (w : World) (it : IdemItem) :
  idempotency_table w !! key = Some it ->
  idempotency.idempotent key fn w =
    if idempotency.status_is "COMPLETE" (idem_status it) then
      match idem_result it with
      | Some j => (Ok (json_loads j), w)
      | None => (Raise (KeyError "result"), w)
      end
    else if idempotency.status_is "IN_FLIGHT" (idem_status it) then
      (Raise (IdempotencyAlreadyInProgressError key), w)
    else
      (Raise (IdempotencyError (idem_status it)), set_idempotency_table (delete key) w).
Proof.
  intros Hit.
  unfold idempotency.idempotent, bind, time_time, gets,
    idempotency.put_item_if_absent, idempotency.get_item.
  rewrite Hit. simpl. rewrite Hit. simpl.
  destruct (idempotency.status_is "COMPLETE" (idem_status it)).
  - destruct (idem_result it); reflexivity.
  - destruct (idempotency.status_is "IN_FLIGHT" (idem_status it)); reflexivity.
Qed.

(** What the wrapper does when the conditional put succeeds. *)
Lemma idempotent_fresh (key : string) (fn : M pyval) (w : World) :
  idempotency_table w !! key = None ->
  idempotency.idempotent key fn w =
    match fn (claimed key w) with
    | (Ok r, w1) =>
        match json_dumps r with
        | Some j =>
            (Ok r, set_idempotency_table
                     (update_item idempotency.blank_item
                        (idempotency.set_complete j) key) w1)
        | None => (Raise TypeError, w1)
        end
    | (Raise e, w1) => (Raise e, set_idempotency_table (delete key) w1)
    end.
Proof.
  intros Hnone.
  unfold idempotency.idempotent, bind, time_time, gets,
    idempotency.put_item_if_absent, try_except.
  rewrite Hnone. simpl. fold (in_flight_item (clock w)). fold (claimed key w).
  destruct (fn (claimed key w)) as [[r|e] w1]; simpl.
  - destruct (json_dumps r); reflexivity.
  - reflexivity.
Qed.

(** C8: the outcomes of the claim. With a stored record the result does not
    depend on [fn] and the world is returned as it was (COMPLETE: the
    deserialised cached result; IN_FLIGHT: the in-progress error) or with the
    record deleted (any other status: the invalid-state error), so [fn] is not
    run. With no stored record the claim succeeds, and when [fn] raises the
    record is deleted and the exception rethrown, leaving no record for the
    key. *)
Theorem idempotent_claim_outcomes (key : string) (fn : M pyval) (w : World) :
  (forall it j,
      idempotency_table w !! key = Some it ->
      idem_status it = Some "COMPLETE" -> idem_result it = Some j ->
      idempotency.idempotent key fn w = (Ok (json_loads j), w)) /\
  (forall it,
      idempotency_table w !! key = Some it ->
      idem_status it = Some "IN_FLIGHT" ->
      idempotency.idempotent key fn w
        = (Raise (IdempotencyAlreadyInProgressError key), w)) /\
  (forall it,
      idempotency_table w !! key = Some it ->
      idem_status it <> Some "COMPLETE" -> idem_status it <> Some "IN_FLIGHT" ->
      idempotency.idempotent key fn w
        = (Raise (IdempotencyError (idem_status it)),
           set_idempotency_table (delete key) w)) /\
  (forall e w1,
      idempotency_table w !! key = None ->
      fn (claimed key w) = (Raise e, w1) ->
      idempotency.idempotent key fn w
        = (Raise e, set_idempotency_table (delete key) w1) /\
      idempotency_table (snd (idempotency.idempotent key fn w)) !! key = None).
Proof.
  split; [|split; [|split]].
  - intros it j Hit Hs Hr. rewrite (idempotent_existing _ _ _ _ Hit), Hs, Hr.
    reflexivity.
  - intros it Hit Hs. rewrite (idempotent_existing _ _ _ _ Hit), Hs. reflexivity.
  - intros it Hit Hc Hf. rewrite (idempotent_existing _ _ _ _ Hit).
    rewrite (status_is_false _ _ Hc), (status_is_false _ _ Hf). reflexivity.
  - intros e w1 Hnone Hfn. rewrite (idempotent_fresh _ _ _ Hnone), Hfn.
    split; [reflexivity|]. simpl. apply lookup_delete_eq.
Qed.

Lemma idempotent_claim_outcomes_witness :
  idempotency.idempotent "k" always_fails (world_with_record (complete_item (JStr "r")))
    = (Ok (PStr "r"), world_with_record (complete_item (JStr "r"))) /\
  idempotency.idempotent "k" always_fails (world_with_record (in_flight_item 0))
    = (Raise (IdempotencyAlreadyInProgressError "k"),
       world_with_record (in_flight_item 0)) /\
  idempotency.idempotent "k" always_fails (world_with_record stale_item)
    = (Raise (IdempotencyError (Some "EXPIRED")),
       set_idempotency_table (delete "k") (world_with_record stale_item)) /\
  idempotency_table
    (snd (idempotency.idempotent "k" always_fails (empty_world 0))) !! "k" = None.
Proof.
  split; [|split; [|split]].
  - apply (proj1 (idempotent_claim_outcomes "k" always_fails
                    (world_with_record (complete_item (JStr "r"))))
             (complete_item (JStr "r")) (JStr "r")); reflexivity.
  - apply (proj1 (proj2 (idempotent_claim_outcomes "k" always_fails
                           (world_with_record (in_flight_item 0))))
             (in_flight_item 0)); reflexivity.
  - apply (proj1 (proj2 (proj2 (idempotent_claim_outcomes "k" always_fails
                                  (world_with_record stale_item))))
             stale_item); [reflexivity | discriminate | discriminate].
  - apply (proj2 (proj2 (proj2 (idempotent_claim_outcomes "k" always_fails
                                  (empty_world 0))))
             (ConnectionError "Provider down") (claimed "k" (empty_world 0)));
      reflexivity.
Defined.

(** A later call finds the record of a call that returned. *)
Lemma idempotent_result_recorded (key : string) (fn : M pyval) (w w1 : World)
    (r : pyval) :
  idempotency.idempotent key fn w = (Ok r, w1) ->
  exists j it,
    json_dumps r = Some j /\
    idempotency_table w1 !! key = Some it /\
    idem_status it = Some "COMPLETE" /\ idem_result it = Some j.
Proof.
  intros Hcall. destruct (idempotency_table w !! key) as [it|] eqn:Hit.
  - rewrite (idempotent_existing _ _ _ _ Hit) in Hcall.
    destruct (idempotency.status_is "COMPLETE" (idem_status it)) eqn:Hs.
    + apply status_is_true in Hs. destruct (idem_result it) as [j|] eqn:Hr;
        [|discriminate]. inversion Hcall; subst.
      exists j, it. rewrite json_dumps_loads. auto.
    + destruct (idempotency.status_is "IN_FLIGHT" (idem_status it)); discriminate.
  - rewrite (idempotent_fresh _ _ _ Hit) in Hcall.
    destruct (fn (claimed key w)) as [[r0|e] w2]; [|discriminate].
    destruct (json_dumps r0) as [j|] eqn:Hj; [|discriminate].
    inversion Hcall; subst. exists j. eexists. split; [exact Hj|].
    split; [apply lookup_insert_eq|]. split; reflexivity.
Qed.

(** C1, amended: once a call with key [key] has returned a result [r], every
    later call with that key made while the record is still stored returns
    [json.loads (json.dumps r)] whatever function it wraps and hands the world
    back untouched, so the wrapped function is not executed again; the value
    is [r] itself when [r] is JSON-stable. *)
Theorem idempotent_later_calls_cached (key : string) (fn fn' : M pyval)
    (w w1 w' : World) (r : pyval) :
  idempotency.idempotent key fn w = (Ok r, w1) ->
  idempotency_table w' !! key = idempotency_table w1 !! key ->
  exists j,
    json_dumps r = Some j /\
    idempotency.idempotent key fn' w' = (Ok (json_loads j), w') /\
    (json_stable r = true -> json_loads j = r).
Proof.
  intros Hcall Hsame.
  destruct (idempotent_result_recorded _ _ _ _ _ Hcall) as (j & it & Hj & Hit & Hs & Hr).
  exists j. split; [exact Hj|]. split.
  - rewrite <- Hsame in Hit.
    rewrite (idempotent_existing _ _ _ _ Hit), Hs, Hr. reflexivity.
  - intros Hst. destruct (json_stable_roundtrip r Hst) as (j' & Hj' & Hl).
    congruence.
Qed.

Lemma idempotent_later_calls_cached_witness :
  exists j,
    json_dumps (PDict [("success", PBool true)]) = Some j /\
    idempotency.idempotent "k" always_fails
      (snd (idempotency.idempotent "k" (ret (PDict [("success", PBool true)]))
              (empty_world 0)))
      = (Ok (json_loads j),
         snd (idempotency.idempotent "k" (ret (PDict [("success", PBool true)]))
                (empty_world 0))) /\
    (json_stable (PDict [("success", PBool true)]) = true ->
     json_loads j = PDict [("success", PBool true)]).
Proof.
  apply (idempotent_later_calls_cached "k"
           (ret (PDict [("success", PBool true)])) always_fails (empty_world 0)
           (snd (idempotency.idempotent "k" (ret (PDict [("success", PBool true)]))
                   (empty_world 0)))); reflexivity.
Defined.

(** Once the wrapped function has returned under a fresh claim, no later call
    with the key executes a function: the outcome of a later call is fixed by
    the stored record (the cached result, or the in-progress error when the
    value could not be serialised) and the world is handed back untouched. *)
Lemma idempotent_success_not_rerun (key : string) (fn : M pyval) (w w1 : World)
    (r : pyval) :
  idempotency_table w !! key = None ->
  fn (claimed key w) = (Ok r, w1) ->
  idempotency_table w1 !! key = Some (in_flight_item (clock w)) ->
  exists o, forall fn',
    idempotency.idempotent key fn' (snd (idempotency.idempotent key fn w))
      = (o, snd (idempotency.idempotent key fn w)).
Proof.
  intros Hnone Hfn Hkept. rewrite (idempotent_fresh key fn w Hnone), Hfn.
  destruct (json_dumps r) as [j|]; simpl.
  - exists (Ok (json_loads j)). intros fn'.
    erewrite idempotent_existing by (simpl; apply lookup_insert_eq).
    reflexivity.
  - exists (Raise (IdempotencyAlreadyInProgressError key)). intros fn'.
    rewrite (idempotent_existing key fn' w1 _ Hkept). reflexivity.
Qed.

(** C1 as stated fails twice over: a function that raises on its first
    execution is executed again by the second call, and a function returning
    a tuple gets a list back from the cache. *)
Lemma idempotent_at_most_once_counterexample :
  ~ at_most_once_and_equal "retry-key" flaky_fn (empty_world 0) /\
  ~ at_most_once_and_equal "k" pair_fn (empty_world 0).
Proof.
  split.
  - intros [Hcount _]. vm_compute in Hcount. lia.
  - intros [_ Heq].
    specialize (Heq (PTuple [PInt 1; PInt 2]) (PList [PInt 1; PInt 2])).
    assert (PTuple [PInt 1; PInt 2] = PList [PInt 1; PInt 2]) as Habs
      by (apply Heq; vm_compute; reflexivity).
    discriminate Habs.
Qed.

(** ** The circuit breaker *)

Lemma Qltb_true (a b : Q) : (a < b)%Q -> Qltb a b = true.
Proof.
  intros Hlt. unfold Qltb. destruct (Qle_bool b a) eqn:E; [|reflexivity].
  apply Qle_bool_iff in E. exfalso. exact (Qlt_not_le _ _ Hlt E).
Qed.

Lemma Qltb_false (a b : Q) : (b <= a)%Q -> Qltb a b = false.
Proof.
  intros Hle. unfold Qltb. apply Qle_bool_iff in Hle. rewrite Hle. reflexivity.
Qed.

Lemma _record_success_ok (self : circuit_breaker.CircuitBreaker) (st : CbItem)
    (w : World) :
  fst (circuit_breaker._record_success self st w) = Ok tt.
Proof.
  unfold circuit_breaker._record_success.
  destruct (default CLOSED (circuit_state st)); try reflexivity.
  destruct (_ <=? _); reflexivity.
Qed.

Lemma _record_failure_ok (self : circuit_breaker.CircuitBreaker) (st : CbItem)
    (w : World) :
  fst (circuit_breaker._record_failure self st w) = Ok tt.
Proof.
  unfold circuit_breaker._record_failure.
  destruct (_ && _); reflexivity.
Qed.

(** The [try] block: [fn] runs first, on the world it is given, and the
    outcome is recorded afterwards. *)
Lemma invoke_and_record_eq {A : Type} (self : circuit_breaker.CircuitBreaker)
    (st : CbItem) (fn : M A) (w : World) :
  circuit_breaker.invoke_and_record self st fn w =
    match fn w with
    | (Ok a, w1) => (Ok a, snd (circuit_breaker._record_success self st w1))
    | (Raise e, w1) => (Raise e, snd (circuit_breaker._record_failure self st w1))
    end.
Proof.
  unfold circuit_breaker.invoke_and_record, try_except, bind.
  destruct (fn w) as [[a|e] w1].
  - pose proof (_record_success_ok self st w1) as Hok.
    destruct (circuit_breaker._record_success self st w1) as [[[]|e] w2];
      simpl in *; [reflexivity | discriminate].
  - pose proof (_record_failure_ok self st w1) as Hok.
    destruct (circuit_breaker._record_failure self st w1) as [[[]|e'] w2];
      simpl in *; [reflexivity | discriminate].
Qed.

(** C2: with a stored OPEN item whose [resets_at] lies strictly in the
    future, [call] raises [CircuitBreakerOpenError] and returns the world
    untouched whatever [fn] is, so [fn] is not invoked; at or after
    [resets_at] the stored item becomes HALF_OPEN and [fn] is invoked on that
    world as a probe, its outcome being recorded against the HALF_OPEN
    item. *)
Theorem call_open_rejects_then_probes {A : Type}
    (self : circuit_breaker.CircuitBreaker) (fn : M A) (w : World)
    (st : CbItem) (r : Z) :
  cb_table w !! circuit_breaker.name self = Some st ->
  circuit_state st = Some OPEN ->
  resets_at st = Some r ->
  ((clock w < inject_Z r)%Q ->
     circuit_breaker.call self fn w
       = (Raise (CircuitBreakerOpenError (circuit_breaker.name self) r), w)) /\
  ((inject_Z r <= clock w)%Q ->
     let probe :=
       {| circuit_state := Some HALF_OPEN; failure_count := failure_count st;
          success_count := Some 0; resets_at := resets_at st |} in
     let w' := set_cb_table (insert (circuit_breaker.name self) probe) w in
     circuit_breaker.call self fn w =
       match fn w' with
       | (Ok a, w1) => (Ok a, snd (circuit_breaker._record_success self probe w1))
       | (Raise e, w1) => (Raise e, snd (circuit_breaker._record_failure self probe w1))
       end).
Proof.
  intros Hst Hopen Hr. split.
  - intros Hlt.
    unfold circuit_breaker.call, bind, circuit_breaker._get_state, gets, time_time.
    simpl. rewrite Hst. simpl. rewrite Hopen. simpl. rewrite Hr. simpl.
    rewrite (Qltb_true _ _ Hlt). reflexivity.
  - intros Hle probe w'.
    unfold circuit_breaker.call, bind, circuit_breaker._get_state, gets, time_time.
    simpl. rewrite Hst. simpl. rewrite Hopen. simpl. rewrite Hr. simpl.
    rewrite (Qltb_false _ _ Hle). simpl.
    subst w'. unfold set_cb_table, update_item. simpl. rewrite Hst. simpl.
    rewrite lookup_insert_eq. simpl.
    apply invoke_and_record_eq.
Qed.

Lemma call_open_rejects_then_probes_witness :
  circuit_breaker.call breaker3 (logged "f" always_fails)
    (world_with_breaker breaker3 (breaker_item OPEN 3 0 (Some 130)) 100)
    = (Raise (CircuitBreakerOpenError "b" 130),
       world_with_breaker breaker3 (breaker_item OPEN 3 0 (Some 130)) 100) /\
  executions (snd (circuit_breaker.call breaker3 (logged "f" always_fails)
    (world_with_breaker breaker3 (breaker_item OPEN 3 0 (Some 130)) 130))) = 1%nat.
Proof.
  split.
  - apply (proj1 (call_open_rejects_then_probes breaker3 (logged "f" always_fails)
                    (world_with_breaker breaker3 (breaker_item OPEN 3 0 (Some 130)) 100)
                    (breaker_item OPEN 3 0 (Some 130)) 130
                    eq_refl eq_refl eq_refl)).
    reflexivity.
  - rewrite (proj2 (call_open_rejects_then_probes breaker3 (logged "f" always_fails)
                      (world_with_breaker breaker3 (breaker_item OPEN 3 0 (Some 130)) 130)
                      (breaker_item OPEN 3 0 (Some 130)) 130
                      eq_refl eq_refl eq_refl)).
    + reflexivity.
    + discriminate.
Defined.

(** The item stored once an [update_item] on the breaker's item has run. *)
Lemma stored_after_cb_update (self : circuit_breaker.CircuitBreaker)
    (f : CbItem -> CbItem) (w : World) (st : CbItem) :
  cb_table w !! circuit_breaker.name self = Some st ->
  stored_after self (circuit_breaker.cb_update self f) w = Some (f st).
Proof.
  intros Hst. unfold stored_after, circuit_breaker.cb_update, modify, update_item.
  simpl. rewrite Hst. apply lookup_insert_eq.
Qed.

(** C7, amended: the counters are compared with [>=], the stored [resets_at]
    is [int(now + timeout_seconds)], and the move out of HALF_OPEN on a probe
    failure is stated for [failure_count + 1 >= failure_threshold]. *)
Theorem record_transitions (self : circuit_breaker.CircuitBreaker) (st : CbItem)
    (w : World) :
  cb_table w !! circuit_breaker.name self = Some st ->
  let fc := default 0 (failure_count st) in
  let sc := default 0 (success_count st) in
  let opened :=
    {| circuit_state := Some OPEN; failure_count := Some (fc + 1);
       success_count := Some 0;
       resets_at := Some (py_int (clock w
                            + inject_Z (circuit_breaker.timeout_seconds self))%Q) |} in
  (circuit_state st = Some CLOSED ->
     (circuit_breaker.failure_threshold self <= fc + 1 ->
        stored_after self (circuit_breaker._record_failure self st) w = Some opened) /\
     (fc + 1 < circuit_breaker.failure_threshold self ->
        stored_after self (circuit_breaker._record_failure self st) w
          = Some {| circuit_state := Some CLOSED; failure_count := Some (fc + 1);
                    success_count := success_count st; resets_at := resets_at st |}) /\
     stored_after self (circuit_breaker._record_success self st) w
       = Some {| circuit_state := Some CLOSED; failure_count := Some 0;
                 success_count := success_count st; resets_at := resets_at st |}) /\
  (circuit_state st = Some HALF_OPEN ->
     (circuit_breaker.success_threshold self <= sc + 1 ->
        stored_after self (circuit_breaker._record_success self st) w
          = Some {| circuit_state := Some CLOSED; failure_count := Some 0;
                    success_count := Some 0; resets_at := resets_at st |}) /\
     (sc + 1 < circuit_breaker.success_threshold self ->
        stored_after self (circuit_breaker._record_success self st) w
          = Some {| circuit_state := Some HALF_OPEN; failure_count := failure_count st;
                    success_count := Some (sc + 1); resets_at := resets_at st |}) /\
     (circuit_breaker.failure_threshold self <= fc + 1 ->
        stored_after self (circuit_breaker._record_failure self st) w = Some opened)).
Proof.
  intros Hst fc sc opened. split; intros Hcs.
  - split; [|split].
    + intros Hge. unfold circuit_breaker._record_failure. rewrite Hcs. simpl.
      fold fc. replace (circuit_breaker.failure_threshold self <=? fc + 1) with true
        by (symmetry; apply Z.leb_le; exact Hge).
      simpl. unfold bind, time_time, gets. simpl.
      first [apply (stored_after_cb_update self _ w st Hst)
            | rewrite (stored_after_cb_update self _ w st Hst); reflexivity].
    + intros Hlt. unfold circuit_breaker._record_failure. rewrite Hcs. simpl.
      fold fc. replace (circuit_breaker.failure_threshold self <=? fc + 1) with false
        by (symmetry; apply Z.leb_gt; exact Hlt).
      simpl. rewrite (stored_after_cb_update self _ w st Hst).
      unfold circuit_breaker.set_failure_count. rewrite Hcs. reflexivity.
    + unfold circuit_breaker._record_success. rewrite Hcs. simpl.
      rewrite (stored_after_cb_update self _ w st Hst).
      unfold circuit_breaker.set_failure_count. rewrite Hcs. reflexivity.
  - split; [|split].
    + intros Hge. unfold circuit_breaker._record_success. rewrite Hcs. simpl.
      fold sc. replace (circuit_breaker.success_threshold self <=? sc + 1) with true
        by (symmetry; apply Z.leb_le; exact Hge).
      first [apply (stored_after_cb_update self _ w st Hst)
            | rewrite (stored_after_cb_update self _ w st Hst); reflexivity].
    + intros Hlt. unfold circuit_breaker._record_success. rewrite Hcs. simpl.
      fold sc. replace (circuit_breaker.success_threshold self <=? sc + 1) with false
        by (symmetry; apply Z.leb_gt; exact Hlt).
      rewrite (stored_after_cb_update self _ w st Hst).
      unfold circuit_breaker.set_success_count. rewrite Hcs. reflexivity.
    + intros Hge. unfold circuit_breaker._record_failure. rewrite Hcs. simpl.
      fold fc. replace (circuit_breaker.failure_threshold self <=? fc + 1) with true
        by (symmetry; apply Z.leb_le; exact Hge).
      simpl. unfold bind, time_time, gets. simpl.
      first [apply (stored_after_cb_update self _ w st Hst)
            | rewrite (stored_after_cb_update self _ w st Hst); reflexivity].
Qed.

Lemma record_transitions_witness :
  stored_after breaker3 (circuit_breaker._record_failure breaker3 (breaker_item CLOSED 2 0 None))
    (world_with_breaker breaker3 (breaker_item CLOSED 2 0 None) (201 # 2))
    = Some (breaker_item OPEN 3 0 (Some 130)) /\
  stored_after breaker3 (circuit_breaker._record_success breaker3 (breaker_item HALF_OPEN 3 1 (Some 130)))
    (world_with_breaker breaker3 (breaker_item HALF_OPEN 3 1 (Some 130)) 131)
    = Some (breaker_item CLOSED 0 0 (Some 130)).
Proof.
  split.
  - apply (proj1 (proj1 (record_transitions breaker3 (breaker_item CLOSED 2 0 None)
                           (world_with_breaker breaker3 (breaker_item CLOSED 2 0 None) (201 # 2))
                           eq_refl) eq_refl)).
    simpl. lia.
  - apply (proj1 (proj2 (record_transitions breaker3
                           (breaker_item HALF_OPEN 3 1 (Some 130))
                           (world_with_breaker breaker3
                              (breaker_item HALF_OPEN 3 1 (Some 130)) 131)
                           eq_refl) eq_refl)).
    simpl. lia.
Defined.

(** C7 as stated fails on three counts: a CLOSED item whose count is already
    past the threshold opens instead of staying CLOSED; a HALF_OPEN item with a
    low failure count stays HALF_OPEN after a probe failure; and the stored
    [resets_at] is truncated to whole seconds. *)
Lemma record_transitions_counterexample :
  ~ claimed_failure_in_closed breaker3 (breaker_item CLOSED 5 0 None)
      (world_with_breaker breaker3 (breaker_item CLOSED 5 0 None) 100) /\
  ~ claimed_probe_failure breaker3 (breaker_item HALF_OPEN 0 0 (Some 130))
      (world_with_breaker breaker3 (breaker_item HALF_OPEN 0 0 (Some 130)) 131) /\
  ~ claimed_failure_in_closed breaker3 (breaker_item CLOSED 2 0 None)
      (world_with_breaker breaker3 (breaker_item CLOSED 2 0 None) (201 # 2)).
Proof.
  split; [|split].
  - intros H. vm_compute in H. destruct H as [H _]. discriminate H.
  - intros H. vm_compute in H. discriminate H.
  - intros H. unfold claimed_failure_in_closed in H.
    assert (stored_after breaker3
              (circuit_breaker._record_failure breaker3 (breaker_item CLOSED 2 0 None))
              (world_with_breaker breaker3 (breaker_item CLOSED 2 0 None) (201 # 2))
            = Some (breaker_item OPEN 3 0 (Some 130))) as E by (vm_compute; reflexivity).
    rewrite E in H. simpl in H. destruct H as (_ & _ & r & Hr & Hq).
    inversion Hr; subst r. vm_compute in Hq. discriminate Hq.
Qed.

(** *** Items the breaker writes itself *)

(** [call] on a stored item that has its [circuit_state]. *)
Lemma call_stored {A : Type} (self : circuit_breaker.CircuitBreaker) (fn : M A)
    (w : World) (st : CbItem) (cs : CircuitState) :
  cb_table w !! circuit_breaker.name self = Some st ->
  circuit_state st = Some cs ->
  circuit_breaker.call self fn w =
    match cs with
    | OPEN =>
        if Qltb (clock w) (inject_Z (default 0 (resets_at st))) then
          (Raise (CircuitBreakerOpenError (circuit_breaker.name self)
                    (default 0 (resets_at st))), w)
        else
          circuit_breaker.invoke_and_record self (circuit_breaker.set_half_open st) fn
            (set_cb_table
               (insert (circuit_breaker.name self) (circuit_breaker.set_half_open st)) w)
    | _ => circuit_breaker.invoke_and_record self st fn w
    end.
Proof.
  intros Hst Hcs.
  unfold circuit_breaker.call, bind, circuit_breaker._get_state, gets, time_time.
  simpl. rewrite Hst. simpl. rewrite Hcs. simpl.
  destruct cs; simpl; try reflexivity.
  destruct (Qltb (clock w) (inject_Z (default 0 (resets_at st)))); simpl;
    [reflexivity|].
  unfold set_cb_table, update_item. simpl. rewrite Hst. simpl.
  rewrite lookup_insert_eq. reflexivity.
Qed.

(** A stored item without [circuit_state] makes [call] raise [KeyError]
    before [fn] is run. *)
Lemma call_partial_item {A : Type} (self : circuit_breaker.CircuitBreaker)
    (fn : M A) (w : World) (st : CbItem) :
  cb_table w !! circuit_breaker.name self = Some st ->
  circuit_state st = None ->
  circuit_breaker.call self fn w = (Raise (KeyError "circuit_state"), w).
Proof.
  intros Hst Hcs.
  unfold circuit_breaker.call, bind, circuit_breaker._get_state, gets.
  simpl. rewrite Hst. simpl. rewrite Hcs. reflexivity.
Qed.

(** Recording an outcome against an item of the breaker's own gives an item
    of the breaker's own. *)
Lemma record_own_item (self : circuit_breaker.CircuitBreaker) (st : CbItem)
    (w : World) (failed : bool) :
  1 <= circuit_breaker.failure_threshold self ->
  cb_table w !! circuit_breaker.name self = Some st ->
  own_item self st ->
  circuit_state st <> Some OPEN ->
  exists st',
    stored_after self
      (if failed then circuit_breaker._record_failure self st
       else circuit_breaker._record_success self st) w = Some st' /\
    own_item self st'.
Proof.
  intros HT Hst (fc & Hfc & Hown) Hnot.
  destruct failed.
  - unfold circuit_breaker._record_failure. rewrite Hfc. simpl.
    destruct (circuit_state st) as [[| |]|] eqn:Hcs; try contradiction;
      try (exfalso; apply Hnot; reflexivity); simpl.
    + destruct (circuit_breaker.failure_threshold self <=? fc + 1) eqn:Hle; simpl.
      * unfold bind, time_time, gets. simpl.
        eexists. split; [apply (stored_after_cb_update self _ w st Hst)|].
        exists (fc + 1). simpl. split; [reflexivity | apply Z.leb_le, Hle].
      * eexists. split; [apply (stored_after_cb_update self _ w st Hst)|].
        exists (fc + 1). simpl. rewrite Hcs. split; [reflexivity | apply Z.leb_gt, Hle].
    + replace (circuit_breaker.failure_threshold self <=? fc + 1) with true
        by (symmetry; apply Z.leb_le; lia).
      simpl. unfold bind, time_time, gets. simpl.
      eexists. split; [apply (stored_after_cb_update self _ w st Hst)|].
      exists (fc + 1). simpl. split; [reflexivity | lia].
  - unfold circuit_breaker._record_success.
    destruct (circuit_state st) as [[| |]|] eqn:Hcs; try contradiction;
      try (exfalso; apply Hnot; reflexivity); simpl.
    + eexists. split; [apply (stored_after_cb_update self _ w st Hst)|].
      exists 0. simpl. rewrite Hcs. split; [reflexivity | lia].
    + destruct (circuit_breaker.success_threshold self <=? _).
      * eexists. split; [apply (stored_after_cb_update self _ w st Hst)|].
        exists 0. simpl. split; [reflexivity | lia].
      * eexists. split; [apply (stored_after_cb_update self _ w st Hst)|].
        exists fc. simpl. rewrite Hcs. split; [exact Hfc | exact Hown].
Qed.

(** Started from [reset] and called one call after the other, with a callable
    that leaves the breaker table alone, the breaker only ever stores items
    of its own. *)
Lemma call_keeps_own_items {A : Type} (self : circuit_breaker.CircuitBreaker)
    (fn : M A) (w : World) (st : CbItem) :
  1 <= circuit_breaker.failure_threshold self ->
  (forall w0, cb_table (snd (fn w0)) = cb_table w0) ->
  cb_table w !! circuit_breaker.name self = Some st ->
  own_item self st ->
  exists st',
    cb_table (snd (circuit_breaker.call self fn w)) !! circuit_breaker.name self
      = Some st' /\
    own_item self st'.
Proof.
  intros HT Hfn Hst Hown.
  assert (forall st0 w0,
            cb_table w0 !! circuit_breaker.name self = Some st0 ->
            own_item self st0 -> circuit_state st0 <> Some OPEN ->
            exists st',
              cb_table (snd (circuit_breaker.invoke_and_record self st0 fn w0))
                !! circuit_breaker.name self = Some st' /\ own_item self st') as Hrec.
  { intros st0 w0 Hst0 Hown0 Hnot. rewrite invoke_and_record_eq.
    pose proof (Hfn w0) as Hframe.
    destruct (fn w0) as [[a|e] w1]; simpl in *; rewrite <- Hframe in Hst0.
    - apply (record_own_item self st0 w1 false HT Hst0 Hown0 Hnot).
    - apply (record_own_item self st0 w1 true HT Hst0 Hown0 Hnot). }
  destruct Hown as (fc & Hfc & Hown).
  destruct (circuit_state st) as [cs|] eqn:Hcs; [|contradiction].
  rewrite (call_stored self fn w st cs Hst Hcs).
  destruct cs.
  - apply Hrec; [exact Hst | exists fc; rewrite Hcs; auto | congruence].
  - destruct (Qltb _ _); simpl.
    + exists st. split; [exact Hst|]. exists fc. rewrite Hcs. auto.
    + apply Hrec; [apply lookup_insert_eq | exists fc; simpl; auto | discriminate].
  - apply Hrec; [exact Hst | exists fc; rewrite Hcs; auto | congruence].
Qed.

Lemma reset_own_item (self : circuit_breaker.CircuitBreaker) (w : World) :
  1 <= circuit_breaker.failure_threshold self ->
  exists st,
    cb_table (snd (circuit_breaker.reset self w)) !! circuit_breaker.name self
      = Some st /\
    own_item self st.
Proof.
  intros HT. eexists. split; [apply lookup_insert_eq|].
  exists 0. simpl. split; [reflexivity | lia].
Qed.

(** On such items the [>=] tests decide as [==] would: a CLOSED item opens
    exactly when [failure_count + 1] equals the threshold, and a HALF_OPEN
    item always passes the test that reopens it. *)
Lemma own_item_thresholds (self : circuit_breaker.CircuitBreaker) (st : CbItem) :
  own_item self st ->
  let fc := default 0 (failure_count st) in
  (circuit_state st = Some CLOSED ->
     (circuit_breaker.failure_threshold self <= fc + 1 <->
      fc + 1 = circuit_breaker.failure_threshold self)) /\
  (circuit_state st = Some HALF_OPEN ->
     circuit_breaker.failure_threshold self <= fc + 1).
Proof.
  intros (fc & Hfc & Hown). rewrite Hfc. simpl.
  split; intros Hcs; rewrite Hcs in Hown; lia.
Qed.

(** With no stored item the breaker reads as CLOSED with zero counters and
    runs [fn]. *)
Lemma call_without_record {A : Type} (self : circuit_breaker.CircuitBreaker)
    (fn : M A) (w : World) :
  cb_table w !! circuit_breaker.name self = None ->
  circuit_breaker._get_state self w = (Ok (breaker_item CLOSED 0 0 None), w) /\
  circuit_breaker.call self fn w =
    match fn w with
    | (Ok a, w1) =>
        (Ok a, snd (circuit_breaker._record_success self (breaker_item CLOSED 0 0 None) w1))
    | (Raise e, w1) =>
        (Raise e, snd (circuit_breaker._record_failure self (breaker_item CLOSED 0 0 None) w1))
    end.
Proof.
  intros Hnone. split.
  - unfold circuit_breaker._get_state, gets. rewrite Hnone. reflexivity.
  - unfold circuit_breaker.call, bind, circuit_breaker._get_state, gets.
    rewrite Hnone. simpl. apply invoke_and_record_eq.
Qed.

(** With no stored item, a first failing call below the threshold leaves an
    item that holds [failure_count] alone. *)
Lemma first_failure_leaves_partial_item {A : Type}
    (self : circuit_breaker.CircuitBreaker) (fn : M A) (w w1 : World) (e : exn) :
  cb_table w !! circuit_breaker.name self = None ->
  2 <= circuit_breaker.failure_threshold self ->
  fn w = (Raise e, w1) ->
  cb_table w1 = cb_table w ->
  cb_table (snd (circuit_breaker.call self fn w)) !! circuit_breaker.name self
    = Some {| circuit_state := None; failure_count := Some 1;
              success_count := None; resets_at := None |}.
Proof.
  intros Hnone HT Hfn Hframe.
  rewrite (proj2 (call_without_record self fn w Hnone)), Hfn. simpl.
  unfold circuit_breaker._record_failure. simpl.
  replace (circuit_breaker.failure_threshold self <=? 0 + 1) with false
    by (symmetry; apply Z.leb_gt; lia).
  simpl. unfold update_item. rewrite Hframe, Hnone. simpl.
  apply lookup_insert_eq.
Qed.

(** C10, evaluated: a breaker with threshold 3 and no stored item. The first
    failing call runs [fn] and leaves an item holding only [failure_count];
    the second call raises [KeyError] on that item without running [fn], and
    so does every call after it: the breaker never opens. Started from
    [reset], the same three failures open it. *)
Theorem call_without_record_keyerror :
  let f := logged "f" always_fails in
  let c1 := circuit_breaker.call breaker3 f (empty_world 100) in
  let c2 := circuit_breaker.call breaker3 f (snd c1) in
  let c3 := circuit_breaker.call breaker3 f (snd c2) in
  let r0 := snd (circuit_breaker.reset breaker3 (empty_world 100)) in
  let r3 := snd (circuit_breaker.call breaker3 f
              (snd (circuit_breaker.call breaker3 f
                 (snd (circuit_breaker.call breaker3 f r0))))) in
  fst c1 = Raise (ConnectionError "Provider down") /\
  executions (snd c1) = 1%nat /\
  cb_table (snd c1) !! "b"
    = Some {| circuit_state := None; failure_count := Some 1;
              success_count := None; resets_at := None |} /\
  fst c2 = Raise (KeyError "circuit_state") /\
  executions (snd c2) = 1%nat /\
  fst c3 = Raise (KeyError "circuit_state") /\
  executions (snd c3) = 1%nat /\
  cb_table (snd c3) !! "b" = cb_table (snd c1) !! "b" /\
  cb_table r3 !! "b" = Some (breaker_item OPEN 3 0 (Some 130)) /\
  executions r3 = 3%nat.
Proof. vm_compute. repeat split; reflexivity. Qed.

(** ** What the wrappers and handlers leave alone *)

Ltac pres :=
  repeat match goal with
    | |- preserves _ (ret _) => apply preserves_ret
    | |- preserves _ (raise _) => apply preserves_raise
    | |- preserves _ (gets _) => apply preserves_gets
    | |- preserves _ time_time => apply preserves_gets
    | |- preserves _ (getitem _ _) => apply preserves_getitem
    | |- preserves _ (bind _ _) => apply preserves_bind; [|intros ?]
    | |- preserves _ (try_except _ _) => apply preserves_try_except; [|intros ?]
    | _ => assumption
    end.

Lemma preserves_uuid4 (P : World -> Prop) : stable_uuid P -> preserves P uuid4.
Proof. intros Hs w HP. apply Hs, HP. Qed.

Lemma preserves_random (P : World -> Prop) :
  stable_random P -> preserves P random_random.
Proof. intros Hs w HP. apply Hs, HP. Qed.

(** The wrapper keeps every property its function keeps, provided the
    property does not look at the idempotency table. *)
Lemma idempotent_preserves (P : World -> Prop) (key : string) (fn : M pyval) :
  stable_idem P -> preserves P fn -> preserves P (idempotency.idempotent key fn).
Proof.
  intros Hs Hfn. unfold idempotency.idempotent.
  apply preserves_bind; [apply preserves_gets|]. intros now.
  apply preserves_bind.
  { intros w HP. unfold idempotency.put_item_if_absent.
    destruct (idempotency_table w !! key); simpl; [exact HP | apply Hs, HP]. }
  intros [|]; simpl.
  - apply preserves_bind.
    + apply preserves_try_except; [exact Hfn|]. intros e.
      apply preserves_bind; [|intros; apply preserves_raise].
      apply preserves_modify. intros w HP. apply Hs, HP.
    + intros r. destruct (json_dumps r); [|apply preserves_raise].
      apply preserves_bind; [|intros; apply preserves_ret].
      apply preserves_modify. intros w HP. apply Hs, HP.
  - apply preserves_bind; [apply preserves_gets|]. intros existing.
    destruct (idempotency.status_is "COMPLETE" (idem_status existing)).
    + destruct (idem_result existing); pres.
    + destruct (idempotency.status_is "IN_FLIGHT" (idem_status existing)); pres.
      apply preserves_modify. intros w HP. apply Hs, HP.
Qed.

Lemma cb_update_preserves (P : World -> Prop)
    (self : circuit_breaker.CircuitBreaker) (f : CbItem -> CbItem) :
  stable_cb P -> preserves P (circuit_breaker.cb_update self f).
Proof. intros Hs. apply preserves_modify. intros w HP. apply Hs, HP. Qed.

(** The breaker keeps every property its callable keeps, provided the
    property does not look at the breaker table. *)
Lemma call_preserves {A : Type} (P : World -> Prop)
    (self : circuit_breaker.CircuitBreaker) (fn : M A) :
  stable_cb P -> preserves P fn -> preserves P (circuit_breaker.call self fn).
Proof.
  intros Hs Hfn. unfold circuit_breaker.call.
  apply preserves_bind; [apply preserves_gets|]. intros state.
  apply preserves_bind; [destruct (circuit_state state); pres|]. intros cs.
  apply preserves_bind.
  { destruct cs; pres. destruct (Qltb _ _); pres.
    - apply cb_update_preserves, Hs.
    - apply preserves_gets. }
  intros state'. unfold circuit_breaker.invoke_and_record.
  apply preserves_try_except.
  - apply preserves_bind; [exact Hfn|]. intros r.
    apply preserves_bind; [|intros; apply preserves_ret].
    unfold circuit_breaker._record_success.
    destruct (default CLOSED (circuit_state state')); pres;
      try (apply cb_update_preserves, Hs).
    destruct (_ <=? _); apply cb_update_preserves, Hs.
  - intros e. apply preserves_bind; [|intros; apply preserves_raise].
    unfold circuit_breaker._record_failure.
    destruct (_ && _); pres; apply cb_update_preserves, Hs.
Qed.

(** The two handlers of the inventory service, for a property that the two
    inventory updates keep. *)
Section inventory_frame.
Variable P : World -> Prop.
Hypothesis Hidem : stable_idem P.
Hypothesis Hres : stable_res P.
Hypothesis Huuid : stable_uuid P.
Hypothesis Hadd : forall p n, 0 < n ->
  preserves P (inventory_service.update_item_add p n).

Lemma _do_release_preserves (oid rid : string) :
  preserves P (inventory_service._do_release oid rid).
Proof.
  unfold inventory_service._do_release.
  apply preserves_bind; [apply preserves_gets|]. intros [r|]; [|apply preserves_ret].
  apply preserves_bind_yields with
    (I := fun l' => l' = res_items r /\ Forall (fun i => 0 < item_quantity i) (res_items r));
    [apply yields_mapM_validate|].
  intros items [-> Hall].
  apply preserves_bind.
  { apply preserves_forM_. eapply Forall_impl; [exact Hall|].
    intros i Hi. apply Hadd, Hi. }
  intros _. apply preserves_bind; [|intros; apply preserves_ret].
  apply preserves_modify. intros w HP. apply Hres, HP.
Qed.

Lemma _release_preserves (ev : Event) :
  preserves P (inventory_service._release ev).
Proof.
  unfold inventory_service._release. pres.
  apply idempotent_preserves; [exact Hidem | apply _do_release_preserves].
Qed.

Hypothesis Hdec : forall p n,
  preserves P (inventory_service.update_item_decrement p n).

Lemma _decrement_stock_preserves (p : string) (n : Z) (oid : string) :
  preserves P (inventory_service._decrement_stock p n oid).
Proof.
  unfold inventory_service._decrement_stock.
  apply preserves_bind; [apply Hdec|]. intros [|]; pres.
Qed.

Lemma _do_reserve_preserves (oid rid : string) (its : list OrderItem) :
  preserves P (inventory_service._do_reserve oid rid its).
Proof.
  unfold inventory_service._do_reserve.
  apply preserves_bind.
  { apply preserves_forM_. apply Forall_forall. intros i _.
    apply _decrement_stock_preserves. }
  intros _. pres. apply preserves_modify. intros w HP. apply Hres, HP.
Qed.

Lemma _reserve_preserves (ev : Event) :
  preserves P (inventory_service._reserve ev).
Proof.
  unfold inventory_service._reserve. pres.
  - intros w HP. destruct (mapM_validate a0 w) as [[E _] | E]; rewrite E; exact HP.
  - apply preserves_uuid4, Huuid.
  - apply idempotent_preserves; [exact Hidem | apply _do_reserve_preserves].
Qed.

Lemma inventory_handler_preserves (ev : Event) :
  preserves P (inventory_service.handler ev).
Proof.
  unfold inventory_service.handler. apply preserves_try_except.
  - unfold inventory_service.dispatch.
    destruct (inventory_service.action_is "reserve" ev); [apply _reserve_preserves|].
    destruct (inventory_service.action_is "release" ev); [apply _release_preserves|].
    apply preserves_raise.
  - intros e. destruct e; pres.
Qed.
End inventory_frame.

(** ** Inventory *)

Lemma update_item_decrement_nonneg (p : string) (n : Z) :
  preserves stock_nonneg (inventory_service.update_item_decrement p n).
Proof.
  intros w HP. unfold inventory_service.update_item_decrement.
  destruct (inv_table w !! p) as [it|] eqn:Hit; [|exact HP].
  destruct (n <=? quantity it) eqn:Hn; [|exact HP].
  apply Z.leb_le in Hn. intros p' it'. simpl.
  destruct (decide (p = p')) as [->|Hne].
  - rewrite lookup_insert_eq. intros [= <-]. simpl. lia.
  - rewrite lookup_insert_ne by exact Hne. apply HP.
Qed.

Lemma update_item_add_nonneg (p : string) (n : Z) :
  0 < n -> preserves stock_nonneg (inventory_service.update_item_add p n).
Proof.
  intros Hn w HP p' it'. unfold inventory_service.update_item_add, modify, update_item.
  simpl. destruct (decide (p = p')) as [->|Hne].
  - rewrite lookup_insert_eq. intros [= <-].
    destruct (inv_table w !! p') as [it|] eqn:Hit; simpl.
    + specialize (HP _ _ Hit). lia.
    + lia.
  - rewrite lookup_insert_ne by exact Hne. apply HP.
Qed.

Lemma update_item_add_at_least (p0 : string) (q : Z) (p : string) (n : Z) :
  0 < n -> preserves (stock_at_least p0 q) (inventory_service.update_item_add p n).
Proof.
  intros Hn w (it & Hit & Hq).
  unfold stock_at_least, inventory_service.update_item_add, modify, update_item.
  simpl. destruct (decide (p = p0)) as [->|Hne].
  - rewrite lookup_insert_eq, Hit. simpl. eexists. split; [reflexivity|].
    simpl. lia.
  - rewrite lookup_insert_ne by exact Hne. exists it. auto.
Qed.

(** The handler never changes a world outcome into another world: its
    [except] clauses only rewrite the result. *)
Lemma inventory_handler_world (ev : Event) (w : World) :
  snd (inventory_service.handler ev w) = snd (inventory_service.dispatch ev w).
Proof.
  unfold inventory_service.handler, try_except.
  destruct (inventory_service.dispatch ev w) as [[r|e] w']; [reflexivity|].
  destruct e; reflexivity.
Qed.

(** C3: both operations of the inventory service keep every stored quantity
    non-negative; a decrement that succeeds found the guard [quantity >= n]
    true and took exactly [n]; a decrement whose guard fails raises
    [InsufficientStockError] and leaves the world as it was; a release never
    lowers a quantity. *)
Theorem inventory_never_negative :
  (forall ev w, stock_nonneg w -> stock_nonneg (snd (inventory_service.handler ev w))) /\
  (forall p n oid w,
      fst (inventory_service._decrement_stock p n oid w) = Ok tt ->
      exists it,
        inv_table w !! p = Some it /\ n <= quantity it /\
        quantity <$> inv_table (snd (inventory_service._decrement_stock p n oid w)) !! p
          = Some (quantity it - n)) /\
  (forall p n oid w,
      (forall it, inv_table w !! p = Some it -> quantity it < n) ->
      inventory_service._decrement_stock p n oid w
        = (Raise (InsufficientStockError p n), w)) /\
  (forall oid rid w p q,
      stock_at_least p q w ->
      stock_at_least p q
        (snd (inventory_service.handler (inventory_service.release_event oid rid) w))).
Proof.
  split; [|split; [|split]].
  - intros ev w HP.
    apply (inventory_handler_preserves stock_nonneg); try exact HP;
      try (intros f w' H; exact H).
    + apply update_item_add_nonneg.
    + apply update_item_decrement_nonneg.
  - intros p n oid w.
    unfold inventory_service._decrement_stock, bind,
      inventory_service.update_item_decrement.
    destruct (inv_table w !! p) as [it|] eqn:Hit; simpl; [|discriminate].
    destruct (n <=? quantity it) eqn:Hn; simpl; [|discriminate].
    intros _. exists it. split; [reflexivity|]. split; [apply Z.leb_le, Hn|].
    rewrite lookup_insert_eq. reflexivity.
  - intros p n oid w Hlt.
    unfold inventory_service._decrement_stock, bind,
      inventory_service.update_item_decrement.
    destruct (inv_table w !! p) as [it|] eqn:Hit; simpl; [|reflexivity].
    specialize (Hlt it eq_refl). apply Z.leb_gt in Hlt. rewrite Hlt.
    reflexivity.
  - intros oid rid w p q HP. rewrite inventory_handler_world.
    change (inventory_service.dispatch (inventory_service.release_event oid rid) w)
      with (inventory_service._release (inventory_service.release_event oid rid) w).
    apply (_release_preserves (stock_at_least p q)); try exact HP;
      try (intros f w' H; exact H).
    intros p' n Hn. apply update_item_add_at_least, Hn.
Qed.

Lemma inventory_never_negative_witness :
  stock_nonneg
    (snd (inventory_service.handler
            (inventory_service.reserve_event "o1" [item_A2]) stocked_world)) /\
  inventory_service._decrement_stock "A" 9 "o1" stocked_world
    = (Raise (InsufficientStockError "A" 9), stocked_world) /\
  stock_at_least "A" 5
    (snd (inventory_service.handler
            (inventory_service.release_event "o1" "r1") released_world)).
Proof.
  assert (stock_nonneg stocked_world) as Hnn.
  { intros p it. unfold stocked_world. simpl.
    destruct (decide ("A" = p)) as [<-|Ha].
    - rewrite lookup_insert_eq. intros [= <-]. simpl. lia.
    - rewrite lookup_insert_ne by exact Ha.
      destruct (decide ("B" = p)) as [<-|Hb].
      + rewrite lookup_insert_eq. intros [= <-]. simpl. lia.
      + rewrite lookup_insert_ne by exact Hb. rewrite lookup_empty. discriminate. }
  split; [|split].
  - apply (proj1 inventory_never_negative). exact Hnn.
  - apply (proj1 (proj2 (proj2 inventory_never_negative))).
    intros it. unfold stocked_world. simpl. rewrite lookup_insert_eq.
    intros [= <-]. simpl. lia.
  - apply (proj2 (proj2 (proj2 inventory_never_negative))).
    exists {| quantity := 5; updated_at := None |}. split; [reflexivity | simpl; lia].
Defined.

(** A failed [_do_reserve] has written no reservation: the record is put
    only after the loop of decrements. *)
Lemma _do_reserve_failure_no_reservation (oid rid : string) (its : list OrderItem)
    (w : World) (e : exn) :
  fst (inventory_service._do_reserve oid rid its w) = Raise e ->
  res_table (snd (inventory_service._do_reserve oid rid its w)) = res_table w.
Proof.
  unfold inventory_service._do_reserve.
  set (loop := forM_ its _).
  assert (preserves (fun w' => res_table w' = res_table w) loop) as Hloop.
  { apply preserves_forM_, Forall_forall. intros i _.
    apply _decrement_stock_preserves. intros p n w' H.
    unfold inventory_service.update_item_decrement.
    destruct (inv_table w' !! p) as [it|]; [|exact H].
    destruct (n <=? quantity it); exact H. }
  specialize (Hloop w eq_refl).
  unfold bind, time_time, gets, modify, ret.
  destruct (loop w) as [[[]|e'] w1]; simpl in *.
  - discriminate.
  - intros _. exact Hloop.
Qed.

(** C4, evaluated: stock A = 5, B = 0 and a Reserve of 2 x A then 1 x B. The
    decrement of B fails its predicate, the handler returns the
    INSUFFICIENT_STOCK failure, and A is left at 3: the 2 units already taken
    are not added back. No reservation and no idempotency record remain. *)
Theorem reserve_partial_failure_not_rolled_back :
  let c := inventory_service.handler
             (inventory_service.reserve_event "o1" [item_A2; item_B1]) stocked_world in
  fst c = Ok (PDict [("success", PBool false);
                     ("error", PStr "INSUFFICIENT_STOCK");
                     ("message", PStr "Product 'B': requested 1, insufficient stock")]) /\
  quantity <$> inv_table stocked_world !! "A" = Some 5 /\
  quantity <$> inv_table (snd c) !! "A" = Some 3 /\
  quantity <$> inv_table (snd c) !! "B" = Some 0 /\
  res_table (snd c) = res_table stocked_world /\
  idempotency_table (snd c) !! "reserve-o1" = None.
Proof. vm_compute. repeat split; reflexivity. Qed.

(** *** Release *)

Lemma mapM_validate_eq (l : list OrderItem) (w : World) :
  mapM OrderItem_validate l w =
    if forallb valid_item l then (Ok l, w) else (Raise ValidationError, w).
Proof.
  induction l as [|i r IH]; simpl; [reflexivity|].
  unfold bind. unfold OrderItem_validate at 1. fold (valid_item i).
  destruct (valid_item i); simpl; [|reflexivity].
  rewrite IH. destruct (forallb valid_item r); reflexivity.
Qed.

Lemma forM_add_ok (l : list OrderItem) (w : World) :
  fst (forM_ l (fun item =>
         inventory_service.update_item_add (product_id item) (item_quantity item)) w)
    = Ok tt.
Proof.
  revert w. induction l as [|i r IH]; intros w; simpl; [reflexivity|].
  unfold bind. simpl. apply IH.
Qed.

(** [_do_release] in closed form. *)
Lemma _do_release_eq (oid rid : string) (w : World) :
  inventory_service._do_release oid rid w =
    match res_table w !! rid with
    | None =>
        (Ok (PDict [("success", PBool true); ("message", PStr "Nothing to release")]), w)
    | Some r =>
        if forallb valid_item (res_items r) then
          (Ok (PDict [("success", PBool true)]),
           set_res_table (update_item r inventory_service.set_released rid)
             (snd (forM_ (res_items r) (fun item =>
                     inventory_service.update_item_add (product_id item)
                       (item_quantity item)) w)))
        else (Raise ValidationError, w)
    end.
Proof.
  unfold inventory_service._do_release, bind at 1, gets. simpl.
  destruct (res_table w !! rid) as [r|]; [|reflexivity].
  unfold bind at 1. rewrite mapM_validate_eq.
  destruct (forallb valid_item (res_items r)); [|reflexivity].
  unfold bind at 1.
  pose proof (forM_add_ok (res_items r) w) as Hok.
  destruct (forM_ (res_items r) _ w) as [[[]|e] w1]; simpl in *; [reflexivity|discriminate].
Qed.

(** Two calls through the wrapper leave the world as one does, when the
    stored record is well formed, the wrapped function returns serialisable
    values, and a run that raises has changed nothing. *)
Lemma idempotent_twice (key : string) (fn : M pyval) (w : World) :
  record_well_formed key w ->
  (forall w0 r w1, fn w0 = (Ok r, w1) -> json_dumps r <> None) ->
  (forall w0 e w1, fn w0 = (Raise e, w1) ->
     w1 = w0 /\
     forall f, fn (set_idempotency_table f w0) = (Raise e, set_idempotency_table f w0)) ->
  snd (idempotency.idempotent key fn (snd (idempotency.idempotent key fn w)))
    = snd (idempotency.idempotent key fn w).
Proof.
  intros Hwf Hser Hraise.
  destruct (idempotency_table w !! key) as [it|] eqn:Hit.
  - rewrite (idempotent_existing key fn w it Hit).
    destruct (Hwf it Hit) as [Hs|Hs]; rewrite Hs; simpl.
    + destruct (idem_result it) eqn:Hr; simpl;
        rewrite (idempotent_existing key fn w it Hit), Hs, Hr; reflexivity.
    + rewrite (idempotent_existing key fn w it Hit), Hs. reflexivity.
  - rewrite (idempotent_fresh key fn w Hit).
    destruct (fn (claimed key w)) as [[r|e] w1] eqn:Hfn.
    + destruct (json_dumps r) as [j|] eqn:Hj;
        [|exfalso; exact (Hser _ _ _ Hfn Hj)].
      simpl.
      erewrite idempotent_existing by (simpl; apply lookup_insert_eq).
      reflexivity.
    + destruct (Hraise _ _ _ Hfn) as [-> Hins]. simpl.
      set (w' := set_idempotency_table (delete key) (claimed key w)).
      assert (idempotency_table w' !! key = None) as Hnone
        by apply lookup_delete_eq.
      rewrite (idempotent_fresh key fn w' Hnone).
      change (claimed key w') with
        (set_idempotency_table
           (fun m => <[key := in_flight_item (clock w)]> (delete key m))
           (claimed key w)).
      rewrite Hins. simpl. unfold w', claimed, set_idempotency_table. simpl.
      f_equal. rewrite delete_insert_eq.
      apply delete_id, lookup_delete_eq.
Qed.

Lemma release_dispatch (oid rid : string) (w : World) :
  inventory_service.dispatch (inventory_service.release_event oid rid) w
    = idempotency.idempotent ("release-" +:+ rid)
        (inventory_service._do_release oid rid) w.
Proof. reflexivity. Qed.

(** What does hold of a repeated Release: a Release whose reservation is
    absent leaves the inventory as it was, and answers success when it runs;
    a Release whose idempotency record is COMPLETE returns the cached result
    and leaves the world as it was; and with a well-formed idempotency record
    two Releases leave the world, hence every inventory quantity, as one
    Release does. The repeat is absorbed by the idempotency record, for as
    long as that record is kept. *)
Theorem release_twice_is_release_once (oid rid : string) (w : World) :
  let ev := inventory_service.release_event oid rid in
  let key := "release-" +:+ rid in
  (res_table w !! rid = None ->
     inv_table (snd (inventory_service.handler ev w)) = inv_table w /\
     (idempotency_table w !! key = None ->
        fst (inventory_service.handler ev w)
          = Ok (PDict [("success", PBool true);
                       ("message", PStr "Nothing to release")]))) /\
  (forall it j,
     idempotency_table w !! key = Some it ->
     idem_status it = Some "COMPLETE" -> idem_result it = Some j ->
     inventory_service.handler ev w = (Ok (json_loads j), w)) /\
  (record_well_formed key w ->
     snd (inventory_service.handler ev (snd (inventory_service.handler ev w)))
       = snd (inventory_service.handler ev w) /\
     inv_table (snd (inventory_service.handler ev (snd (inventory_service.handler ev w))))
       = inv_table (snd (inventory_service.handler ev w))).
Proof.
  intros ev key. split; [|split].
  - intros Hres. split.
    + rewrite inventory_handler_world. unfold ev. rewrite release_dispatch. fold key.
      destruct (idempotency_table w !! key) as [it|] eqn:Hit.
      * rewrite (idempotent_existing _ _ _ _ Hit).
        destruct (idempotency.status_is "COMPLETE" (idem_status it));
          [destruct (idem_result it); reflexivity|].
        destruct (idempotency.status_is "IN_FLIGHT" (idem_status it)); reflexivity.
      * rewrite (idempotent_fresh _ _ _ Hit), _do_release_eq.
        change (res_table (claimed key w)) with (res_table w). rewrite Hres.
        reflexivity.
    + intros Hit. unfold inventory_service.handler, try_except, ev.
      rewrite release_dispatch. fold key.
      rewrite (idempotent_fresh _ _ _ Hit), _do_release_eq.
      change (res_table (claimed key w)) with (res_table w). rewrite Hres.
      reflexivity.
  - intros it j Hit Hs Hr. unfold inventory_service.handler, try_except, ev.
    rewrite release_dispatch. fold key.
    rewrite (idempotent_existing _ _ _ _ Hit), Hs, Hr. reflexivity.
  - intros Hwf.
    assert (snd (inventory_service.handler ev (snd (inventory_service.handler ev w)))
            = snd (inventory_service.handler ev w)) as Hsame.
    { rewrite !inventory_handler_world. unfold ev. rewrite !release_dispatch.
      apply idempotent_twice; [exact Hwf| |].
      - intros w0 r w1. rewrite _do_release_eq.
        destruct (res_table w0 !! rid) as [res|].
        + destruct (forallb valid_item (res_items res)); intros [= <- _]; discriminate.
        + intros [= <- _]. discriminate.
      - intros w0 e w1. rewrite _do_release_eq.
        destruct (res_table w0 !! rid) as [res|] eqn:Hres; [|discriminate].
        destruct (forallb valid_item (res_items res)) eqn:Hv; [discriminate|].
        intros [= <- <-]. split; [reflexivity|]. intros f.
        rewrite _do_release_eq.
        change (res_table (set_idempotency_table f w0)) with (res_table w0).
        rewrite Hres, Hv. reflexivity. }
    split; [exact Hsame | rewrite Hsame; reflexivity].
Qed.

Lemma release_twice_is_release_once_witness :
  inv_table
    (snd (inventory_service.handler (inventory_service.release_event "o1" "r1")
       (snd (inventory_service.handler (inventory_service.release_event "o1" "r1")
               released_world))))
  = inv_table
      (snd (inventory_service.handler (inventory_service.release_event "o1" "r1")
              released_world)) /\
  inv_table
    (snd (inventory_service.handler (inventory_service.release_event "o1" "none")
            stocked_world))
  = inv_table stocked_world.
Proof.
  split.
  - apply (proj2 (proj2 (release_twice_is_release_once "o1" "r1" released_world))).
    intros it Hit. discriminate Hit.
  - apply (proj1 (release_twice_is_release_once "o1" "none" stocked_world)).
    reflexivity.
Defined.

(** Once the idempotency record of the release is gone, a reservation that is
    already RELEASED is released again. *)
Lemma release_of_released_counterexample :
  ~ release_is_noop "o1" "r1" released_world.
Proof.
  intros H.
  assert (inv_table
            (snd (inventory_service.handler
                    (inventory_service.release_event "o1" "r1") released_world))
          = inv_table released_world) as E.
  { apply H. right. eexists. split; reflexivity. }
  apply (f_equal (fun m => quantity <$> m !! "A")) in E.
  vm_compute in E. discriminate E.
Qed.

(** C6, evaluated: reservation [r1] holds 3 units of A and is RELEASED; the
    idempotency record of its release is gone, as it is once the 24 hours of
    its TTL have passed. A Release of [r1] answers success and adds the 3
    units a second time: the stock of A goes from 5 to 8. [_do_release]
    reads the reservation and never looks at its status. *)
Theorem release_of_released_adds_stock :
  res_status <$> res_table released_world !! "r1" = Some "RELEASED" /\
  idempotency_table released_world !! "release-r1" = None /\
  quantity <$> inv_table released_world !! "A" = Some 5 /\
  fst (inventory_service.handler (inventory_service.release_event "o1" "r1")
         released_world)
    = Ok (PDict [("success", PBool true)]) /\
  quantity <$>
    inv_table (snd (inventory_service.handler
                      (inventory_service.release_event "o1" "r1") released_world))
      !! "A"
    = Some 8.
Proof. repeat split; vm_compute; reflexivity. Qed.

(** ** Order status writes *)

(** C9, evaluated: [update_status] carries no condition. Whatever is stored,
    the write succeeds, sets the status and adds 1 to the version: the
    version is counted and never compared. On the order created at version
    1, a first writer moves the order to CONFIRMED, version 2; a second
    writer, who read the order at version 1, then writes PAYMENT_CHARGED.
    That write succeeds and replaces CONFIRMED, where a write conditioned on
    version 1 would have been refused. *)
Theorem status_write_ignores_version :
  (forall oid status md w,
      fst (OrderRepository.update_status oid status md w) = Ok tt /\
      OrderRepository.stored_status oid
        (snd (OrderRepository.update_status oid status md w)) = Some status /\
      OrderRepository.stored_version oid
        (snd (OrderRepository.update_status oid status md w))
        = Some (default 0 (OrderRepository.stored_version oid w) + 1)) /\
  OrderRepository.stored_version "o1" order_created_world = Some 1 /\
  OrderRepository.stored_version "o1"
    (snd (OrderRepository.update_status "o1" CONFIRMED None order_created_world))
    = Some 2 /\
  fst (OrderRepository.update_status "o1" PAYMENT_CHARGED None
         (snd (OrderRepository.update_status "o1" CONFIRMED None order_created_world)))
    = Ok tt /\
  OrderRepository.stored_status "o1"
    (snd (OrderRepository.update_status "o1" PAYMENT_CHARGED None
            (snd (OrderRepository.update_status "o1" CONFIRMED None
                    order_created_world))))
    = Some PAYMENT_CHARGED /\
  OrderRepository.stored_version "o1"
    (snd (OrderRepository.update_status "o1" PAYMENT_CHARGED None
            (snd (OrderRepository.update_status "o1" CONFIRMED None
                    order_created_world))))
    = Some 3.
Proof.
  split.
  - intros oid status md w.
    unfold OrderRepository.update_status, OrderRepository._append_event,
      OrderRepository.stored_status, OrderRepository.stored_version,
      bind, time_time, gets, modify, update_item. simpl.
    rewrite !lookup_insert_ne by (unfold OrderRepository.meta_key; congruence).
    rewrite !lookup_insert_eq. simpl.
    destruct (orders_table w !! OrderRepository.meta_key oid) as [[m|e]|];
      simpl; auto.
  - repeat split; vm_compute; reflexivity.
Qed.

(** ** What the payment handler leaves alone *)

Lemma payment_handler_preserves (P : World -> Prop) (ev : Event) :
  stable_idem P -> stable_cb P -> stable_clock P -> stable_random P ->
  stable_uuid P -> stable_ext P -> stable_payments P ->
  preserves P (payment_service.handler ev).
Proof.
  intros Hidem Hcb Hclock Hrandom Huuid Hext Hpay.
  assert (forall a, preserves P (payment_service._call_payment_provider a)) as Hprov.
  { intros a. unfold payment_service._call_payment_provider,
      payment_service.sleep_uniform.
    apply preserves_bind.
    { apply preserves_bind; [apply preserves_random, Hrandom|]. intros u.
      apply preserves_modify. intros w HP. apply Hclock, HP. }
    intros _. apply preserves_bind; [apply preserves_random, Hrandom|]. intros r.
    destruct (Qltb r (3 # 100)); [apply preserves_raise|].
    destruct (String.eqb a "charge").
    { apply preserves_bind; [apply preserves_uuid4, Huuid|]. intros u.
      apply preserves_bind; [|intros; apply preserves_ret].
      apply preserves_modify. intros w HP. apply Hext, HP. }
    destruct (String.eqb a "refund"); [|apply preserves_raise].
    apply preserves_bind; [|intros; apply preserves_ret].
    apply preserves_modify. intros w HP. apply Hext, HP. }
  unfold payment_service.handler. apply preserves_try_except.
  - unfold payment_service.dispatch.
    destruct (payment_service.action_is "charge" ev).
    { unfold payment_service._charge. pres.
      - apply preserves_uuid4, Huuid.
      - apply idempotent_preserves; [exact Hidem|].
        unfold payment_service._do_charge.
        apply preserves_bind; [apply call_preserves; [exact Hcb | apply Hprov]|].
        intros resp. destruct (negb _); [apply preserves_raise|].
        apply preserves_bind.
        { destruct (py_get "charge_id" resp) as [[]|]; pres. }
        intros c. pres. apply preserves_modify. intros w HP. apply Hpay, HP. }
    destruct (payment_service.action_is "refund" ev); [|apply preserves_raise].
    unfold payment_service._refund. pres.
    destruct (payment_id ev) as [[|c s]|]; pres.
    apply idempotent_preserves; [exact Hidem|].
    unfold payment_service._do_refund. pres. destruct a0; pres.
    + apply call_preserves; [exact Hcb | apply Hprov].
    + apply preserves_modify. intros w HP. apply Hpay, HP.
  - intros e. destruct e; pres.
Qed.

(** ** The saga definition *)

(** C5: the state machine is never defined. [SagaStack.__init__] gives
    [NotifyOrderFailed] its next state when it builds the compensation chain,
    and asks for it a second time when it builds the branch taken on an
    inventory failure: aws-cdk refuses, whatever the states held before.
    With no definition there is no execution, and nothing that writes an
    order's status. *)
Theorem saga_stack_never_defined :
  fst (saga_stack.__init__ saga_stack.empty_graph)
    = Raise (RuntimeError "State 'NotifyOrderFailed' already has a next state") /\
  saga_stack.next_of (snd (saga_stack.__init__ saga_stack.empty_graph))
    saga_stack.NotifyOrderFailed = Some saga_stack.OrderFailed /\
  saga_stack.next_of (snd (saga_stack.__init__ saga_stack.empty_graph))
    saga_stack.ReserveInventory = None /\
  forall g, exists e, fst (saga_stack.__init__ g) = Raise e.
Proof.
  split; [reflexivity|]. split; [reflexivity|]. split; [reflexivity|].
  intros [nx ch df].
  repeat (vm_compute;
          match goal with
          | |- context [match nx ?s with _ => _ end] => destruct (nx s)
          | |- context [match df ?s with _ => _ end] => destruct (df s)
          end);
    vm_compute; eexists; reflexivity.
Qed.

(** * Further properties *)

(** ** The circuit breaker under runs of calls *)

Lemma call_records_failure {A : Type} (self : circuit_breaker.CircuitBreaker)
    (fn : M A) (w : World) (st : CbItem) (cs : CircuitState) :
  cb_table w !! circuit_breaker.name self = Some st ->
  circuit_state st = Some cs -> cs <> OPEN ->
  fails_leaving_breaker fn ->
  cb_table (snd (circuit_breaker.call self fn w)) !! circuit_breaker.name self
    = stored_after self (circuit_breaker._record_failure self st) (snd (fn w)) /\
  cb_table (snd (fn w)) !! circuit_breaker.name self = Some st.
Proof.
  intros Hst Hcs Hnot Hfn. destruct (Hfn w) as [[e He] Hframe].
  rewrite (call_stored self fn w st cs Hst Hcs).
  assert (circuit_breaker.call self fn w
          = circuit_breaker.invoke_and_record self st fn w) as _.
  { rewrite (call_stored self fn w st cs Hst Hcs). destruct cs; congruence. }
  replace (match cs with
           | OPEN => _
           | _ => circuit_breaker.invoke_and_record self st fn w
           end) with (circuit_breaker.invoke_and_record self st fn w)
    by (destruct cs; congruence).
  rewrite invoke_and_record_eq.
  destruct (fn w) as [[a|e'] w1]; simpl in *; [discriminate|].
  split; [reflexivity | rewrite Hframe; exact Hst].
Qed.

Lemma call_records_success {A : Type} (self : circuit_breaker.CircuitBreaker)
    (fn : M A) (w : World) (st : CbItem) (cs : CircuitState) :
  cb_table w !! circuit_breaker.name self = Some st ->
  circuit_state st = Some cs -> cs <> OPEN ->
  returns_leaving_breaker fn ->
  cb_table (snd (circuit_breaker.call self fn w)) !! circuit_breaker.name self
    = stored_after self (circuit_breaker._record_success self st) (snd (fn w)) /\
  cb_table (snd (fn w)) !! circuit_breaker.name self = Some st.
Proof.
  intros Hst Hcs Hnot Hfn. destruct (Hfn w) as [[a Ha] Hframe].
  rewrite (call_stored self fn w st cs Hst Hcs).
  replace (match cs with
           | OPEN => _
           | _ => circuit_breaker.invoke_and_record self st fn w
           end) with (circuit_breaker.invoke_and_record self st fn w)
    by (destruct cs; congruence).
  rewrite invoke_and_record_eq.
  destruct (fn w) as [[a'|e] w1]; simpl in *; [|discriminate].
  split; [reflexivity | rewrite Hframe; exact Hst].
Qed.

(** X1: a CLOSED breaker counts consecutive failures. While the count stays
    below the threshold the item stays CLOSED with the count raised by the
    number of failing calls; the call that brings the count to the threshold
    leaves the item OPEN with zero successes and a reset time. *)
Theorem consecutive_failures_open {A : Type} (self : circuit_breaker.CircuitBreaker)
    (fns : list (M A)) (w : World) (st : CbItem) (fc : Z) :
  cb_table w !! circuit_breaker.name self = Some st ->
  circuit_state st = Some CLOSED ->
  failure_count st = Some fc ->
  Forall fails_leaving_breaker fns ->
  let n := Z.of_nat (List.length fns) in
  (fc + n < circuit_breaker.failure_threshold self ->
     cb_table (call_each self fns w) !! circuit_breaker.name self
       = Some {| circuit_state := Some CLOSED; failure_count := Some (fc + n);
                 success_count := success_count st; resets_at := resets_at st |}) /\
  (fc + n = circuit_breaker.failure_threshold self -> 0 < n ->
     exists r,
       cb_table (call_each self fns w) !! circuit_breaker.name self
         = Some {| circuit_state := Some OPEN;
                   failure_count := Some (circuit_breaker.failure_threshold self);
                   success_count := Some 0; resets_at := Some r |}).
Proof.
  intros Hst Hcs Hfc Hall. revert w st fc Hst Hcs Hfc.
  induction Hall as [|fn r Hfn _ IH]; intros w st fc Hst Hcs Hfc n.
  - subst n. simpl. split; [|lia]. intros _. rewrite Hst. f_equal.
    destruct st; simpl in *. subst. f_equal. f_equal. lia.
  - subst n. cbn [List.length call_each].
    destruct (call_records_failure self fn w st CLOSED Hst Hcs ltac:(discriminate) Hfn)
      as [Hcall Hst1].
    unfold circuit_breaker._record_failure in Hcall.
    rewrite Hfc, Hcs in Hcall. simpl in Hcall. rewrite andb_true_r in Hcall.
    destruct (circuit_breaker.failure_threshold self <=? fc + 1) eqn:Hle.
    + apply Z.leb_le in Hle. split; [lia|]. intros Heq _.
      assert (r = []) as -> by (destruct r; [reflexivity | simpl in Heq; lia]).
      cbn [call_each].
      unfold stored_after, bind, time_time, gets, circuit_breaker.cb_update,
        modify, update_item in Hcall.
      simpl in Hcall. rewrite Hst1, lookup_insert_eq in Hcall.
      eexists. rewrite Hcall. unfold circuit_breaker.set_open.
      replace (fc + 1) with (circuit_breaker.failure_threshold self) by lia.
      reflexivity.
    + apply Z.leb_gt in Hle.
      rewrite (stored_after_cb_update self _ _ st Hst1) in Hcall.
      specialize (IH (snd (circuit_breaker.call self fn w))
                    (circuit_breaker.set_failure_count (fc + 1) st) (fc + 1)
                    Hcall Hcs eq_refl).
      simpl in IH. destruct IH as [IH1 IH2]. split.
      * intros Hlt. rewrite IH1 by lia. do 3 f_equal. lia.
      * intros Heq _. destruct r as [|fn' r'].
        -- simpl in Heq. lia.
        -- apply IH2; simpl in *; lia.
Qed.

Lemma consecutive_failures_open_witness :
  exists r,
    cb_table (call_each breaker3
                [logged "f" always_fails; logged "f" always_fails;
                 logged "f" always_fails]
                (world_with_breaker breaker3 (breaker_item CLOSED 0 0 None) 100))
      !! "b"
    = Some {| circuit_state := Some OPEN; failure_count := Some 3;
              success_count := Some 0; resets_at := Some r |}.
Proof.
  apply (proj2 (consecutive_failures_open breaker3
                  [logged "f" always_fails; logged "f" always_fails;
                   logged "f" always_fails]
                  (world_with_breaker breaker3 (breaker_item CLOSED 0 0 None) 100)
                  (breaker_item CLOSED 0 0 None) 0 eq_refl eq_refl eq_refl
                  ltac:(repeat (apply List.Forall_cons;
                          [intros w; split; [eexists; reflexivity | reflexivity]|]);
                        apply List.Forall_nil))).
  - reflexivity.
  - reflexivity.
Defined.

(** X2: a HALF_OPEN breaker counts consecutive probe successes. Below the
    success threshold the item stays HALF_OPEN with the count raised; the
    success that reaches the threshold leaves it CLOSED with both counters at
    zero. *)
Theorem consecutive_successes_close {A : Type} (self : circuit_breaker.CircuitBreaker)
    (fns : list (M A)) (w : World) (st : CbItem) (sc : Z) :
  cb_table w !! circuit_breaker.name self = Some st ->
  circuit_state st = Some HALF_OPEN ->
  success_count st = Some sc ->
  Forall returns_leaving_breaker fns ->
  let n := Z.of_nat (List.length fns) in
  (sc + n < circuit_breaker.success_threshold self ->
     cb_table (call_each self fns w) !! circuit_breaker.name self
       = Some {| circuit_state := Some HALF_OPEN; failure_count := failure_count st;
                 success_count := Some (sc + n); resets_at := resets_at st |}) /\
  (sc + n = circuit_breaker.success_threshold self -> 0 < n ->
     cb_table (call_each self fns w) !! circuit_breaker.name self
       = Some {| circuit_state := Some CLOSED; failure_count := Some 0;
                 success_count := Some 0; resets_at := resets_at st |}).
Proof.
  intros Hst Hcs Hsc Hall. revert w st sc Hst Hcs Hsc.
  induction Hall as [|fn r Hfn _ IH]; intros w st sc Hst Hcs Hsc n.
  - subst n. simpl. split; [|lia]. intros _. rewrite Hst. f_equal.
    destruct st; simpl in *. subst. f_equal. f_equal. lia.
  - subst n. cbn [List.length call_each].
    destruct (call_records_success self fn w st HALF_OPEN Hst Hcs ltac:(discriminate) Hfn)
      as [Hcall Hst1].
    unfold circuit_breaker._record_success in Hcall.
    rewrite Hsc, Hcs in Hcall. simpl in Hcall.
    destruct (circuit_breaker.success_threshold self <=? sc + 1) eqn:Hle.
    + apply Z.leb_le in Hle. split; [lia|]. intros Heq _.
      assert (r = []) as -> by (destruct r; [reflexivity | simpl in Heq; lia]).
      simpl. rewrite (stored_after_cb_update self _ _ st Hst1) in Hcall.
      exact Hcall.
    + apply Z.leb_gt in Hle.
      rewrite (stored_after_cb_update self _ _ st Hst1) in Hcall.
      specialize (IH (snd (circuit_breaker.call self fn w))
                    (circuit_breaker.set_success_count (sc + 1) st) (sc + 1)
                    Hcall Hcs eq_refl).
      simpl in IH. destruct IH as [IH1 IH2]. split.
      * intros Hlt. rewrite IH1 by lia. do 3 f_equal. lia.
      * intros Heq _. destruct r as [|fn' r'].
        -- simpl in Heq. lia.
        -- apply IH2; simpl in *; lia.
Qed.

Lemma consecutive_successes_close_witness :
  cb_table (call_each breaker3 [ret (PStr "ok1"); ret (PStr "ok2")]
              (world_with_breaker breaker3 (breaker_item HALF_OPEN 3 0 (Some 130)) 131))
    !! "b"
  = Some (breaker_item CLOSED 0 0 (Some 130)).
Proof.
  apply (proj2 (consecutive_successes_close breaker3
                  [ret (PStr "ok1"); ret (PStr "ok2")]
                  (world_with_breaker breaker3 (breaker_item HALF_OPEN 3 0 (Some 130)) 131)
                  (breaker_item HALF_OPEN 3 0 (Some 130)) 0 eq_refl eq_refl eq_refl
                  ltac:(repeat (apply List.Forall_cons;
                          [intros w; split; [eexists; reflexivity | reflexivity]|]);
                        apply List.Forall_nil))).
  - reflexivity.
  - reflexivity.
Defined.

(** Recording an outcome changes the breaker table and nothing else. *)
Lemma record_only_breaker_table (self : circuit_breaker.CircuitBreaker) st w1 (failed : bool) :
            exists t,
              snd ((if failed then circuit_breaker._record_failure self st
                    else circuit_breaker._record_success self st) w1)
              = set_cb_table (fun _ => t) w1.
Proof.
  destruct w1. destruct failed.
    - unfold circuit_breaker._record_failure. destruct (_ && _).
      + eexists; reflexivity.
      + eexists; reflexivity.
    - unfold circuit_breaker._record_success.
      destruct (default CLOSED (circuit_state st));
        [| |destruct (_ <=? _)]; eexists; reflexivity.
Qed.

(** X3: a breaker that is not OPEN is transparent. With no stored item, or a
    CLOSED or HALF_OPEN one, [call] hands back exactly the result or the
    exception of the callable, and the world it leaves differs from the
    callable's only in the breaker table. *)
Theorem call_is_transparent {A : Type} (self : circuit_breaker.CircuitBreaker)
    (fn : M A) (w : World) :
  (cb_table w !! circuit_breaker.name self = None \/
   exists st cs, cb_table w !! circuit_breaker.name self = Some st /\
                 circuit_state st = Some cs /\ cs <> OPEN) ->
  fst (circuit_breaker.call self fn w) = fst (fn w) /\
  exists t, snd (circuit_breaker.call self fn w)
            = set_cb_table (fun _ => t) (snd (fn w)).
Proof.
  intros Hcase.
  assert (circuit_breaker.call self fn w
          = circuit_breaker.invoke_and_record self
              (default circuit_breaker.default_state
                 (cb_table w !! circuit_breaker.name self)) fn w) as ->.
  { destruct Hcase as [Hnone | (st & cs & Hst & Hcs & Hnot)].
    - rewrite (proj2 (call_without_record self fn w Hnone)), Hnone.
      rewrite invoke_and_record_eq. reflexivity.
    - rewrite (call_stored self fn w st cs Hst Hcs), Hst. simpl.
      (destruct cs; [reflexivity | congruence | reflexivity]). }
  rewrite invoke_and_record_eq.
  destruct (fn w) as [[a|e] w1]; simpl; split; try reflexivity.
  - apply (record_only_breaker_table self _ w1 false).
  - apply (record_only_breaker_table self _ w1 true).
Qed.

Lemma call_is_transparent_witness :
  fst (circuit_breaker.call breaker3 (ret (PStr "ok"))
         (world_with_breaker breaker3 (breaker_item CLOSED 2 0 None) 100))
  = Ok (PStr "ok").
Proof.
  assert (cb_table (world_with_breaker breaker3 (breaker_item CLOSED 2 0 None) 100)
            !! circuit_breaker.name breaker3 = None \/
          exists st cs,
            cb_table (world_with_breaker breaker3 (breaker_item CLOSED 2 0 None) 100)
              !! circuit_breaker.name breaker3 = Some st /\
            circuit_state st = Some cs /\ cs <> OPEN) as H.
  { right. exists (breaker_item CLOSED 2 0 None), CLOSED.
    split; [reflexivity|]. split; [reflexivity | discriminate]. }
  rewrite (proj1 (call_is_transparent breaker3 (ret (PStr "ok")) _ H)).
  reflexivity.
Defined.

(** ** More on the idempotency wrapper *)

(** X4: keys are independent. A call under one key leaves the record of every
    other key as the wrapped function leaves it. *)
Theorem idempotent_other_keys_untouched (key key' : string) (fn : M pyval)
    (w : World) :
  key <> key' ->
  (forall w0, idempotency_table (snd (fn w0)) !! key' = idempotency_table w0 !! key') ->
  idempotency_table (snd (idempotency.idempotent key fn w)) !! key'
    = idempotency_table w !! key'.
Proof.
  intros Hne Hfn. destruct (idempotency_table w !! key) as [it|] eqn:Hit.
  - rewrite (idempotent_existing key fn w it Hit).
    destruct (idempotency.status_is "COMPLETE" (idem_status it));
      [destruct (idem_result it); reflexivity|].
    destruct (idempotency.status_is "IN_FLIGHT" (idem_status it)); [reflexivity|].
    simpl. apply lookup_delete_ne, Hne.
  - rewrite (idempotent_fresh key fn w Hit).
    pose proof (Hfn (claimed key w)) as Hframe.
    destruct (fn (claimed key w)) as [[r|e] w1]; simpl in Hframe.
    + destruct (json_dumps r); simpl.
      * unfold update_item. rewrite lookup_insert_ne by exact Hne.
        rewrite Hframe. apply lookup_insert_ne, Hne.
      * rewrite Hframe. apply lookup_insert_ne, Hne.
    + simpl. rewrite lookup_delete_ne by exact Hne.
      rewrite Hframe. apply lookup_insert_ne, Hne.
Qed.

Lemma idempotent_other_keys_untouched_witness :
  idempotency_table
    (snd (idempotency.idempotent "key-a" (ret (PInt 1))
            (world_with_record (complete_item (JStr "r"))))) !! "k"
  = Some (complete_item (JStr "r")).
Proof.
  rewrite (idempotent_other_keys_untouched "key-a" "k" (ret (PInt 1))
             (world_with_record (complete_item (JStr "r")))).
  - reflexivity.
  - discriminate.
  - intros w0. reflexivity.
Defined.

(** X5: a first call that completes returns the function's own value and
    leaves a COMPLETE record holding the serialised value, the claim time and
    an expiry exactly [IDEMPOTENCY_TTL_SECONDS] after it. *)
Theorem idempotent_completed_record (key : string) (fn : M pyval) (w w1 : World)
    (r : pyval) (j : json) :
  idempotency_table w !! key = None ->
  fn (claimed key w) = (Ok r, w1) ->
  idempotency_table w1 !! key = idempotency_table (claimed key w) !! key ->
  json_dumps r = Some j ->
  fst (idempotency.idempotent key fn w) = Ok r /\
  idempotency_table (snd (idempotency.idempotent key fn w)) !! key
    = Some {| idem_status := Some "COMPLETE"; idem_result := Some j;
              idem_created_at := Some (py_int (clock w));
              idem_ttl := Some (py_int (clock w) + 86400) |}.
Proof.
  intros Hnone Hfn Hkept Hj.
  rewrite (idempotent_fresh key fn w Hnone), Hfn, Hj. simpl.
  split; [reflexivity|]. unfold update_item. rewrite lookup_insert_eq, Hkept.
  unfold claimed. simpl. rewrite lookup_insert_eq. reflexivity.
Qed.

Lemma idempotent_completed_record_witness :
  idempotency_table
    (snd (idempotency.idempotent "k" (ret (PInt 7)) (empty_world (201 # 2)))) !! "k"
  = Some {| idem_status := Some "COMPLETE"; idem_result := Some (JNum 7);
            idem_created_at := Some 100; idem_ttl := Some 86500 |}.
Proof.
  apply (proj2 (idempotent_completed_record "k" (ret (PInt 7)) (empty_world (201 # 2))
                  (claimed "k" (empty_world (201 # 2))) (PInt 7) (JNum 7)
                  eq_refl eq_refl eq_refl eq_refl)).
Defined.

(** X6: a value [json.dumps] rejects leaves the key stuck. The function has
    run and its effects stay, the caller gets [TypeError], the record is
    neither completed nor deleted, and every later call with the key is
    refused as in progress without running anything. *)
Theorem idempotent_unserialisable_stuck (key : string) (fn fn' : M pyval)
    (w w1 : World) (r : pyval) :
  idempotency_table w !! key = None ->
  fn (claimed key w) = (Ok r, w1) ->
  idempotency_table w1 !! key = idempotency_table (claimed key w) !! key ->
  json_dumps r = None ->
  idempotency.idempotent key fn w = (Raise TypeError, w1) /\
  idempotency.idempotent key fn' w1
    = (Raise (IdempotencyAlreadyInProgressError key), w1).
Proof.
  intros Hnone Hfn Hkept Hj.
  rewrite (idempotent_fresh key fn w Hnone), Hfn, Hj. split; [reflexivity|].
  assert (idempotency_table w1 !! key = Some (in_flight_item (clock w))) as Hit.
  { rewrite Hkept. unfold claimed. simpl. apply lookup_insert_eq. }
  rewrite (idempotent_existing key fn' w1 _ Hit). reflexivity.
Qed.

Lemma idempotent_unserialisable_stuck_witness :
  idempotency.idempotent "k" (ret (PList [PDecimal 3])) (empty_world 0)
    = (Raise TypeError, claimed "k" (empty_world 0)) /\
  idempotency.idempotent "k" (ret (PInt 1)) (claimed "k" (empty_world 0))
    = (Raise (IdempotencyAlreadyInProgressError "k"), claimed "k" (empty_world 0)).
Proof.
  apply (idempotent_unserialisable_stuck "k" (ret (PList [PDecimal 3])) (ret (PInt 1))
           (empty_world 0) (claimed "k" (empty_world 0)) (PList [PDecimal 3])
           eq_refl eq_refl eq_refl eq_refl).
Defined.

(** ** More on the order repository *)

Lemma update_status_eq (oid : string) (status : OrderStatus)
    (md : option (list (string * pyval))) (w : World) :
  OrderRepository.update_status oid status md w =
    (Ok tt,
     set_orders_table
       (fun t => <[(oid, Some (event_ts w)) :=
                     EventRow {| oe_status := status; oe_metadata := default [] md;
                                 oe_occurred_at := clock w |}]>
                   (<[OrderRepository.meta_key oid :=
                        OrderRepository.set_status status (clock w)
                          (default (MetaRow OrderRepository.blank_meta)
                             (t !! OrderRepository.meta_key oid))]> t)) w).
Proof. reflexivity. Qed.

Lemma create_eq (oid cid : string) (its : list OrderItem) (total : Z)
    (corr : string) (w : World) :
  OrderRepository.create oid cid its total corr w =
    if storable_order its total then
      match orders_table w !! OrderRepository.meta_key oid with
      | None =>
          (Ok (new_order cid its total corr (clock w)),
           order_stored oid cid its total corr w)
      | Some _ => (Raise (OptimisticLockError 0), w)
      end
    else (Raise DecimalException, w).
Proof.
  unfold OrderRepository.create, bind, time_time, gets,
    dynamodb.put_item_with_optimistic_lock, OrderRepository._append_event,
    modify, storable_order, dynamodb.serializable_meta, order_stored, new_order,
    ts_of.
  cbn [fst snd om_items om_total_cents om_version dynamodb.with_version default
       from_option id].
  change (dynamodb.dynamodb_number (0 + 1)) with true.
  change (dynamodb.dynamodb_number 0) with true.
  rewrite !andb_true_r.
  destruct (forallb dynamodb.serializable_item its && dynamodb.dynamodb_number total);
    [|reflexivity].
  cbn [negb]. unfold dynamodb.condition_holds.
  change (0 =? 0) with true. cbv iota.
  destruct (orders_table w !! OrderRepository.meta_key oid); reflexivity.
Qed.

(** X7: [create] is guarded by the order id. When the numbers of the order
    fit DynamoDB's 38 digits: on a fresh id it stores the META item in
    PENDING at version 1 and appends the PENDING event under the sort key of
    the clock reading, returning the item at version 0; on an id that already
    has a META item it raises [OptimisticLockError] and changes nothing. When
    a quantity, a price or the total has more than 38 digits the request is
    never sent: [create] raises the [decimal] signal and changes nothing. *)
Theorem create_guarded (oid cid : string) (its : list OrderItem) (total : Z)
    (corr : string) (w : World) :
  (storable_order its total = true ->
   orders_table w !! OrderRepository.meta_key oid = None ->
     let c := OrderRepository.create oid cid its total corr w in
     (exists item, fst c = Ok item /\ om_version item = Some 0) /\
     OrderRepository.stored_status oid (snd c) = Some PENDING /\
     OrderRepository.stored_version oid (snd c) = Some 1 /\
     orders_table (snd c) !! (oid, Some (event_ts w))
       = Some (EventRow {| oe_status := PENDING; oe_metadata := [];
                           oe_occurred_at := clock w |})) /\
  (storable_order its total = true ->
   forall row,
     orders_table w !! OrderRepository.meta_key oid = Some row ->
     OrderRepository.create oid cid its total corr w
       = (Raise (OptimisticLockError 0), w)) /\
  (storable_order its total = false ->
     OrderRepository.create oid cid its total corr w = (Raise DecimalException, w)).
Proof.
  rewrite create_eq. split; [|split].
  - intros -> Hnone c. subst c. rewrite Hnone. cbn [fst snd].
    unfold OrderRepository.stored_status, OrderRepository.stored_version,
      order_stored, event_ts.
    cbn [orders_table set_orders_table].
    rewrite !lookup_insert_ne by (unfold OrderRepository.meta_key; congruence).
    rewrite !lookup_insert_eq. cbn.
    split; [eexists; split; reflexivity|]. auto.
  - intros -> row Hrow. rewrite Hrow. reflexivity.
  - intros ->. reflexivity.
Qed.

Lemma create_guarded_witness :
  OrderRepository.stored_version "o9"
    (snd (OrderRepository.create "o9" "bob" [item_A2] 200 "c" order_created_world))
    = Some 1 /\
  OrderRepository.create "o1" "bob" [item_A2] 200 "c" order_created_world
    = (Raise (OptimisticLockError 0), order_created_world) /\
  OrderRepository.create "o9" "bob" [item_A2] (10 ^ 40) "c" order_created_world
    = (Raise DecimalException, order_created_world).
Proof.
  split; [|split].
  - apply (proj1 (create_guarded "o9" "bob" [item_A2] 200 "c" order_created_world));
      reflexivity.
  - eapply (proj1 (proj2 (create_guarded "o1" "bob" [item_A2] 200 "c"
                            order_created_world))); reflexivity.
  - apply (proj2 (proj2 (create_guarded "o9" "bob" [item_A2] (10 ^ 40) "c"
                           order_created_world))).
    reflexivity.
Defined.

(** X8: a status write changes nothing about the order but its status,
    [updated_at] and version, and leaves the META item of every other order
    as it was. *)
Theorem update_status_keeps_order (oid : string) (status : OrderStatus)
    (md : option (list (string * pyval))) (w : World) (m : OrderMeta) :
  orders_table w !! OrderRepository.meta_key oid = Some (MetaRow m) ->
  let w' := snd (OrderRepository.update_status oid status md w) in
  orders_table w' !! OrderRepository.meta_key oid
    = Some (MetaRow
              {| om_customer_id := om_customer_id m; om_items := om_items m;
                 om_total_cents := om_total_cents m; om_status := Some status;
                 om_correlation_id := om_correlation_id m;
                 om_created_at := om_created_at m;
                 om_updated_at := Some (clock w);
                 om_version := Some (default 0 (om_version m) + 1) |}) /\
  (forall oid', oid' <> oid ->
     orders_table w' !! OrderRepository.meta_key oid'
       = orders_table w !! OrderRepository.meta_key oid').
Proof.
  intros Hm w'. subst w'. rewrite update_status_eq. simpl. split.
  - rewrite lookup_insert_ne by (unfold OrderRepository.meta_key; congruence).
    rewrite lookup_insert_eq, Hm. reflexivity.
  - intros oid' Hne.
    rewrite !lookup_insert_ne by (unfold OrderRepository.meta_key; congruence).
    reflexivity.
Qed.

Lemma update_status_keeps_order_witness :
  orders_table
    (snd (OrderRepository.update_status "o1" CONFIRMED None order_created_world))
    !! OrderRepository.meta_key "o2"
  = orders_table order_created_world !! OrderRepository.meta_key "o2".
Proof.
  assert (exists m, orders_table order_created_world !! OrderRepository.meta_key "o1"
                    = Some (MetaRow m)) as [m Hm] by (eexists; reflexivity).
  apply (proj2 (update_status_keeps_order "o1" CONFIRMED None order_created_world m Hm)
           "o2").
  discriminate.
Defined.

(** X9: a status write on an order id that has no META item does not fail:
    it creates an item holding only the status, [updated_at] and version 1,
    with no customer, no items and no total. *)
Theorem update_status_unknown_order (oid : string) (status : OrderStatus)
    (md : option (list (string * pyval))) (w : World) :
  orders_table w !! OrderRepository.meta_key oid = None ->
  fst (OrderRepository.update_status oid status md w) = Ok tt /\
  orders_table (snd (OrderRepository.update_status oid status md w))
    !! OrderRepository.meta_key oid
    = Some (MetaRow
              {| om_customer_id := None; om_items := []; om_total_cents := None;
                 om_status := Some status; om_correlation_id := None;
                 om_created_at := None; om_updated_at := Some (clock w);
                 om_version := Some 1 |}).
Proof.
  intros Hnone. rewrite update_status_eq. simpl. split; [reflexivity|].
  rewrite lookup_insert_ne by (unfold OrderRepository.meta_key; congruence).
  rewrite lookup_insert_eq, Hnone. reflexivity.
Qed.

Lemma update_status_unknown_order_witness :
  fst (OrderRepository.update_status "ghost" FAILED None (empty_world 5)) = Ok tt.
Proof.
  apply (proj1 (update_status_unknown_order "ghost" FAILED None (empty_world 5) eq_refl)).
Defined.

Lemma update_status_stored (oid : string) (status : OrderStatus)
    (md : option (list (string * pyval))) (w : World) :
  OrderRepository.stored_status oid
    (snd (OrderRepository.update_status oid status md w)) = Some status /\
  OrderRepository.stored_version oid
    (snd (OrderRepository.update_status oid status md w))
    = Some (default 0 (OrderRepository.stored_version oid w) + 1).
Proof.
  rewrite update_status_eq.
  unfold OrderRepository.stored_status, OrderRepository.stored_version. simpl.
  rewrite !lookup_insert_ne by (unfold OrderRepository.meta_key; congruence).
  rewrite !lookup_insert_eq.
  destruct (orders_table w !! OrderRepository.meta_key oid) as [[m|e]|];
    simpl; auto.
Qed.

(** X10: the version counts the writes and the status is the last one
    written: after [n] status writes on a stored order the version has grown
    by [n]. *)
Theorem update_each_version (oid : string) (statuses : list OrderStatus)
    (w : World) (v : Z) :
  OrderRepository.stored_version oid w = Some v ->
  OrderRepository.stored_version oid (update_each oid statuses w)
    = Some (v + Z.of_nat (List.length statuses)) /\
  (statuses <> [] ->
   OrderRepository.stored_status oid (update_each oid statuses w)
     = List.last (List.map Some statuses) None).
Proof.
  revert w v. induction statuses as [|s r IH]; intros w v Hv.
  - simpl. split; [rewrite Hv; f_equal; lia | congruence].
  - cbn [update_each List.length].
    destruct (update_status_stored oid s None w) as [Hs Hv'].
    rewrite Hv in Hv'. change (default 0 (Some v)) with v in Hv'.
    destruct (IH _ _ Hv') as [IHv IHs]. split.
    + rewrite IHv. f_equal. lia.
    + intros _. destruct r as [|s' r'].
      * simpl. exact Hs.
      * rewrite IHs by discriminate. reflexivity.
Qed.

Lemma update_each_version_witness :
  OrderRepository.stored_version "o1"
    (update_each "o1" [INVENTORY_RESERVED; PAYMENT_CHARGED; CONFIRMED]
       order_created_world) = Some 4.
Proof.
  apply (proj1 (update_each_version "o1" [INVENTORY_RESERVED; PAYMENT_CHARGED; CONFIRMED]
                  order_created_world 1 eq_refl)).
Defined.

(** X11: the event log can lose an entry. Two status writes on one order,
    made at clock readings [clock w] and [t2], are logged under the sort keys
    of their readings. When the two readings give the same key, as two
    readings within one microsecond do, the log holds a single event for it,
    the later one, and every other row but the META item is as it was before
    the two writes; when the keys differ both events are in the log. *)
Theorem same_instant_event_overwritten (oid : string) (s1 s2 : OrderStatus)
    (w : World) (t2 : Q) :
  let w1 := snd (OrderRepository.update_status oid s1 None w) in
  let w2 := snd (OrderRepository.update_status oid s2 None
                   (set_clock (fun _ => t2) w1)) in
  (ts_of t2 = ts_of (clock w) ->
     orders_table w2 !! (oid, Some (ts_of (clock w)))
       = Some (EventRow {| oe_status := s2; oe_metadata := [];
                           oe_occurred_at := t2 |}) /\
     (forall k, k <> OrderRepository.meta_key oid ->
                k <> (oid, Some (ts_of (clock w))) ->
        orders_table w2 !! k = orders_table w !! k)) /\
  (ts_of t2 <> ts_of (clock w) ->
     orders_table w2 !! (oid, Some (ts_of (clock w)))
       = Some (EventRow {| oe_status := s1; oe_metadata := [];
                           oe_occurred_at := clock w |}) /\
     orders_table w2 !! (oid, Some (ts_of t2))
       = Some (EventRow {| oe_status := s2; oe_metadata := [];
                           oe_occurred_at := t2 |})).
Proof.
  intros w1 w2. subst w1 w2. rewrite !update_status_eq. unfold event_ts.
  cbn [snd clock set_clock orders_table set_orders_table default from_option id].
  split.
  - intros Hts. rewrite Hts. split.
    + apply lookup_insert_eq.
    + intros k Hmeta Hev.
      assert (OrderRepository.meta_key oid <> k) as Hmeta' by congruence.
      assert ((oid, Some (ts_of (clock w))) <> k) as Hev' by congruence.
      rewrite !lookup_insert_ne by first [exact Hmeta' | exact Hev']. reflexivity.
  - intros Hts. split.
    + rewrite lookup_insert_ne by congruence.
      rewrite lookup_insert_ne by (unfold OrderRepository.meta_key; congruence).
      apply lookup_insert_eq.
    + apply lookup_insert_eq.
Qed.

Lemma same_instant_event_overwritten_witness :
  orders_table
    (snd (OrderRepository.update_status "o1" PAYMENT_CHARGED None
            (set_clock (fun _ => (400000001 # 4000000)%Q)
               (snd (OrderRepository.update_status "o1" CONFIRMED None
                       order_created_world)))))
    !! ("o1", Some 100000000)
  = Some (EventRow {| oe_status := PAYMENT_CHARGED; oe_metadata := [];
                      oe_occurred_at := 400000001 # 4000000 |}) /\
  orders_table
    (snd (OrderRepository.update_status "o1" PAYMENT_CHARGED None
            (set_clock (fun _ => 101%Q)
               (snd (OrderRepository.update_status "o1" CONFIRMED None
                       order_created_world)))))
    !! ("o1", Some 100000000)
  = Some (EventRow {| oe_status := CONFIRMED; oe_metadata := [];
                      oe_occurred_at := 100 |}).
Proof.
  split.
  - apply (proj1 (same_instant_event_overwritten "o1" CONFIRMED PAYMENT_CHARGED
                    order_created_world (400000001 # 4000000))).
    vm_compute. reflexivity.
  - apply (proj2 (same_instant_event_overwritten "o1" CONFIRMED PAYMENT_CHARGED
                    order_created_world 101)).
    vm_compute. discriminate.
Defined.

(** ** Reserve and release as a whole *)






(** The loop of additions never fails and adds the totals. *)
Lemma add_all_spec (its : list OrderItem) (w : World) :
  fst (add_all its w) = Ok tt /\
  (forall p q, stock_of w p = Some q ->
     stock_of (snd (add_all its w)) p = Some (q + total_for p its)) /\
  (forall p, stock_of w p = None -> (forall i, In i its -> product_id i <> p) ->
     stock_of (snd (add_all its w)) p = None).
Proof.
  revert w. induction its as [|i r IH]; intros w.
  - simpl. split; [reflexivity|]. split; [|auto].
    intros p q Hq. rewrite Hq. f_equal. lia.
  - unfold add_all. simpl. unfold bind. simpl.
    fold (add_all r).
    set (w' := set_inv_table _ w).
    destruct (IH w') as (Hok & Hpres & Habs).
    split; [exact Hok|]. split.
    + intros p q Hq.
      destruct (String.eqb (product_id i) p) eqn:Hp0.
      * apply String.eqb_eq in Hp0. subst p.
        rewrite (Hpres (product_id i) (q + item_quantity i)); [f_equal; lia|].
        unfold stock_of, w', update_item in *. simpl.
        rewrite lookup_insert_eq.
        destruct (inv_table w !! product_id i); simpl in *; [|discriminate].
        injection Hq as <-. reflexivity.
      * apply String.eqb_neq in Hp0.
        rewrite (Hpres p q); [f_equal; lia|].
        unfold stock_of, w', update_item in *. simpl.
        rewrite lookup_insert_ne by congruence. exact Hq.
    + intros p Hnone Hnot. apply Habs.
      * unfold stock_of, w', update_item in *. simpl.
        rewrite lookup_insert_ne; [exact Hnone|].
        apply Hnot. left. reflexivity.
      * intros i0 Hin. apply Hnot. right. exact Hin.
Qed.


Lemma add_all_only_inventory (its : list OrderItem) (w : World) :
  exists f, snd (add_all its w) = set_inv_table f w.
Proof.
  revert w. induction its as [|i r IH]; intros w.
  - exists (fun m => m). destruct w; reflexivity.
  - unfold add_all. simpl. unfold bind. simpl. fold (add_all r).
    match goal with |- context [set_inv_table ?g w] =>
      destruct (IH (set_inv_table g w)) as [f Hf]; exists (fun m => f (g m)) end.
    rewrite Hf. reflexivity.
Qed.





(** The inventory handler on a Release whose key is not yet claimed and whose
    reservation is stored with items that validate. *)
Lemma release_handler_eq (oid rid : string) (w : World) (r : ResItem) :
  idempotency_table w !! ("release-" +:+ rid) = None ->
  res_table w !! rid = Some r ->
  forallb valid_item (res_items r) = true ->
  exists j,
    inventory_service.handler (inventory_service.release_event oid rid) w
      = (Ok (PDict [("success", PBool true)]),
         set_idempotency_table
           (update_item idempotency.blank_item (idempotency.set_complete j)
              ("release-" +:+ rid))
           (set_res_table (update_item r inventory_service.set_released rid)
              (snd (add_all (res_items r) (claimed ("release-" +:+ rid) w))))).
Proof.
  intros Hfresh Hres Hvalid.
  unfold inventory_service.handler, try_except.
  rewrite release_dispatch, (idempotent_fresh _ _ _ Hfresh), _do_release_eq.
  change (res_table (claimed ("release-" +:+ rid) w)) with (res_table w).
  rewrite Hres, Hvalid. simpl. eexists. reflexivity.
Qed.

(** X13: a first Release of a stored reservation whose items validate
    answers success, adds to every stocked product the total the reservation
    holds of it, and rewrites the reservation as RELEASED. *)
Theorem release_adds_totals (oid rid : string) (w : World) (r : ResItem) :
  idempotency_table w !! ("release-" +:+ rid) = None ->
  res_table w !! rid = Some r ->
  forallb valid_item (res_items r) = true ->
  fst (inventory_service.handler (inventory_service.release_event oid rid) w)
    = Ok (PDict [("success", PBool true)]) /\
  (forall p q, stock_of w p = Some q ->
     stock_of (snd (inventory_service.handler
                      (inventory_service.release_event oid rid) w)) p
       = Some (q + total_for p (res_items r))) /\
  res_table (snd (inventory_service.handler
                    (inventory_service.release_event oid rid) w)) !! rid
    = Some (inventory_service.set_released r).
Proof.
  intros Hfresh Hres Hvalid.
  destruct (release_handler_eq oid rid w r Hfresh Hres Hvalid) as [j ->].
  split; [reflexivity|]. split.
  - intros p q Hq.
    destruct (add_all_spec (res_items r) (claimed ("release-" +:+ rid) w))
      as (_ & Hadd & _).
    exact (Hadd p q Hq).
  - destruct (add_all_only_inventory (res_items r) (claimed ("release-" +:+ rid) w))
      as [g Hg].
    simpl. rewrite Hg. unfold update_item. rewrite lookup_insert_eq. simpl.
    rewrite Hres. reflexivity.
Qed.

Lemma release_adds_totals_witness :
  stock_of (snd (inventory_service.handler
                   (inventory_service.release_event "o1" "r1")
                   (set_res_table
                      (insert "r1" {| res_order_id := "o1"; res_items := [item_A2];
                                      res_status := "ACTIVE"; res_created_at := 0 |})
                      stocked_world))) "A"
    = Some 7.
Proof.
  exact (proj1 (proj2 (release_adds_totals "o1" "r1"
           (set_res_table
              (insert "r1" {| res_order_id := "o1"; res_items := [item_A2];
                              res_status := "ACTIVE"; res_created_at := 0 |})
              stocked_world) _ eq_refl eq_refl eq_refl)) "A" 5 eq_refl).
Defined.





(** ** The payment service *)

Lemma call_open_rejects {A : Type} (self : circuit_breaker.CircuitBreaker)
    (fn : M A) (w : World) (st : CbItem) (r : Z) :
  cb_table w !! circuit_breaker.name self = Some st ->
  circuit_state st = Some OPEN ->
  resets_at st = Some r ->
  (clock w < inject_Z r)%Q ->
  circuit_breaker.call self fn w
    = (Raise (CircuitBreakerOpenError (circuit_breaker.name self) r), w).
Proof.
  intros Hst Hopen Hr Hlt.
  unfold circuit_breaker.call, bind, circuit_breaker._get_state, gets, time_time.
  simpl. rewrite Hst. simpl. rewrite Hopen. simpl. rewrite Hr. simpl.
  rewrite (Qltb_true _ _ Hlt). reflexivity.
Qed.

Lemma py_int_nonneg (q : Q) : (0 <= q)%Q -> 0 <= py_int q.
Proof.
  intros Hq. unfold py_int. apply Z.quot_pos; [|lia].
  unfold Qle in Hq. simpl in Hq. lia.
Qed.

Lemma claim_released (key : string) (w : World) :
  idempotency_table w !! key = None ->
  set_idempotency_table (delete key) (claimed key w) = w.
Proof.
  intros Hfresh. unfold claimed. destruct w as [idem ? ? ? ? ? ? ? ? ? ? ?].
  unfold set_idempotency_table. simpl in *. f_equal.
  rewrite delete_insert_eq. apply delete_id. exact Hfresh.
Qed.

(** X16: while the provider's breaker is OPEN and its reset time lies ahead,
    a first Charge answers PAYMENT_PROVIDER_UNAVAILABLE with the whole seconds
    left until the reset, a non-negative number, and changes nothing but the
    uuid counter: the provider is not called, no payment is stored, the
    breaker item is untouched and the claim on the order is released. *)
Theorem charge_fails_fast (oid cid : string) (total : Z) (w : World)
    (st : CbItem) (r : Z) :
  cb_table w !! circuit_breaker.name payment_service.payment_circuit_breaker = Some st ->
  circuit_state st = Some OPEN ->
  resets_at st = Some r ->
  (clock w < inject_Z r)%Q ->
  idempotency_table w !! ("charge-" +:+ oid) = None ->
  payment_service.handler (charge_event oid cid total) w
    = (Ok (provider_unavailable (py_int (inject_Z r - clock w))),
       set_uuid_counter S w) /\
  0 <= py_int (inject_Z r - clock w).
Proof.
  intros Hst Hopen Hr Hlt Hfresh. split.
  - unfold payment_service.handler, try_except, payment_service.dispatch,
      payment_service.action_is, charge_event. simpl.
    unfold payment_service._charge. simpl.
    unfold bind at 1. simpl. unfold bind at 1. simpl. unfold bind at 1. simpl.
    unfold bind at 1, uuid4.
    rewrite idempotent_fresh by exact Hfresh.
    unfold payment_service._do_charge. unfold bind at 1.
    rewrite (call_open_rejects _ _
               (claimed ("charge-" +:+ oid) (set_uuid_counter S w)) st r
               Hst Hopen Hr Hlt).
    rewrite (claim_released _ (set_uuid_counter S w)) by exact Hfresh.
    reflexivity.
  - apply py_int_nonneg. apply Qlt_le_weak. unfold Qminus.
    rewrite <- (Qplus_opp_r (clock w)). apply Qplus_lt_le_compat; [exact Hlt|].
    apply Qle_refl.
Qed.

Lemma charge_fails_fast_witness :
  payment_service.handler (charge_event "o1" "c1" 200)
    (world_with_breaker payment_service.payment_circuit_breaker
       (breaker_item OPEN 5 0 (Some 130)) 100)
  = (Ok (provider_unavailable 30),
     set_uuid_counter S
       (world_with_breaker payment_service.payment_circuit_breaker
          (breaker_item OPEN 5 0 (Some 130)) 100)).
Proof.
  assert ((100 < inject_Z 130)%Q) as Hlt by reflexivity.
  exact (proj1 (charge_fails_fast "o1" "c1" 200
           (world_with_breaker payment_service.payment_circuit_breaker
              (breaker_item OPEN 5 0 (Some 130)) 100)
           (breaker_item OPEN 5 0 (Some 130)) 130
           eq_refl eq_refl eq_refl Hlt eq_refl)).
Defined.

(** What [_do_charge] returns when it returns. *)
Lemma _do_charge_ok (oid cid : string) (total : Z) (pid : string)
    (w w1 : World) (r : pyval) :
  payment_service._do_charge oid cid total pid w = (Ok r, w1) ->
  r = charge_success pid.
Proof.
  unfold payment_service._do_charge, bind.
  destruct (circuit_breaker.call _ _ w) as [[resp|e] w']; [|discriminate].
  destruct (negb _); [discriminate|].
  destruct (py_get "charge_id" resp) as [[]|]; simpl; try discriminate.
  intros [= <- _]. reflexivity.
Qed.

(** The payment handler on a Charge carrying the three fields it reads. *)
Lemma charge_handler_eq (oid cid : string) (total : Z) (w : World) :
  payment_service.handler (charge_event oid cid total) w
    = try_except
        (idempotency.idempotent ("charge-" +:+ oid)
           (payment_service._do_charge oid cid total (next_uuid w)))
        (fun e =>
           match e with
           | CircuitBreakerOpenError _ r =>
               let* now := time_time in
               ret (provider_unavailable (py_int (inject_Z r - now)%Q))
           | PaymentDeclinedError msg =>
               ret (PDict [("success", PBool false); ("error", PStr "PAYMENT_DECLINED");
                           ("message", PStr msg)])
           | _ => raise e
           end)
        (set_uuid_counter S w).
Proof. reflexivity. Qed.

(** X17: a charge that succeeded is not repeated. When the first Charge for
    an order answered success, a later Charge for the same order, whatever
    customer and amount it names, answers the same payment id and changes
    nothing but the uuid counter: the provider is not called again and no
    second payment is stored. *)
Theorem charge_not_repeated (oid cid cid' : string) (total total' : Z)
    (pid : string) (w : World) :
  idempotency_table w !! ("charge-" +:+ oid) = None ->
  fst (payment_service.handler (charge_event oid cid total) w)
    = Ok (charge_success pid) ->
  payment_service.handler (charge_event oid cid' total')
    (snd (payment_service.handler (charge_event oid cid total) w))
  = (Ok (charge_success pid),
     set_uuid_counter S
       (snd (payment_service.handler (charge_event oid cid total) w))).
Proof.
  intros Hfresh.
  remember (payment_service.handler (charge_event oid cid total) w) as c1 eqn:Hc1.
  rewrite charge_handler_eq in Hc1. unfold try_except in Hc1.
  rewrite (idempotent_fresh _ _ (set_uuid_counter S w)) in Hc1 by exact Hfresh.
  destruct (payment_service._do_charge oid cid total (next_uuid w)
              (claimed ("charge-" +:+ oid) (set_uuid_counter S w)))
    as [[r|e] w1] eqn:Hdo.
  - apply _do_charge_ok in Hdo. subst r. simpl in Hc1. subst c1.
    cbn [fst snd]. intros [= <-].
    rewrite charge_handler_eq. unfold try_except.
    rewrite (idempotent_existing ("charge-" +:+ oid) _ _
               (idempotency.set_complete
                  (JObj [("success", JBool true);
                         ("payment_id", JStr (next_uuid w))])
                  (default idempotency.blank_item
                     (idempotency_table w1 !! ("charge-" +:+ oid))))).
    + reflexivity.
    + simpl. unfold update_item. rewrite lookup_insert_eq. reflexivity.
  - subst c1. destruct e; simpl; discriminate.
Qed.

Lemma charge_not_repeated_witness :
  fst (payment_service.handler (charge_event "o1" "c2" 999)
         (snd (payment_service.handler (charge_event "o1" "c1" 200)
                 (world_with_breaker payment_service.payment_circuit_breaker
                    (breaker_item CLOSED 0 0 None) 100))))
    = Ok (charge_success "uuid-0").
Proof.
  rewrite (charge_not_repeated "o1" "c1" "c2" 200 999 "uuid-0"
             (world_with_breaker payment_service.payment_circuit_breaker
                (breaker_item CLOSED 0 0 None) 100)
             eq_refl eq_refl).
  reflexivity.
Defined.

Lemma _call_payment_provider_preserves (P : World -> Prop) (a : string) :
  stable_clock P -> stable_random P -> stable_uuid P -> stable_ext P ->
  preserves P (payment_service._call_payment_provider a).
Proof.
  intros Hclock Hrandom Huuid Hext.
  unfold payment_service._call_payment_provider, payment_service.sleep_uniform.
  apply preserves_bind.
  { apply preserves_bind; [apply preserves_random, Hrandom|]. intros u.
    apply preserves_modify. intros w HP. apply Hclock, HP. }
  intros _. apply preserves_bind; [apply preserves_random, Hrandom|]. intros r.
  destruct (Qltb r (3 # 100)); [apply preserves_raise|].
  destruct (String.eqb a "charge").
  { apply preserves_bind; [apply preserves_uuid4, Huuid|]. intros u.
    apply preserves_bind; [|intros; apply preserves_ret].
    apply preserves_modify. intros w HP. apply Hext, HP. }
  destruct (String.eqb a "refund"); [|apply preserves_raise].
  apply preserves_bind; [|intros; apply preserves_ret].
  apply preserves_modify. intros w HP. apply Hext, HP.
Qed.

(** A call to the provider through the breaker writes neither the payments
    table nor the idempotency table. *)
Lemma provider_call_keeps_tables (a : string) (w : World) :
  payments_table
    (snd (circuit_breaker.call payment_service.payment_circuit_breaker
            (payment_service._call_payment_provider a) w)) = payments_table w /\
  idempotency_table
    (snd (circuit_breaker.call payment_service.payment_circuit_breaker
            (payment_service._call_payment_provider a) w)) = idempotency_table w.
Proof.
  apply (call_preserves
           (fun w' => payments_table w' = payments_table w /\
                      idempotency_table w' = idempotency_table w)
           payment_service.payment_circuit_breaker
           (payment_service._call_payment_provider a)).
  - intros f w' H. exact H.
  - apply _call_payment_provider_preserves; intros f w' H; exact H.
  - split; reflexivity.
Qed.

(** X18: a first Refund of a stored payment marks it REFUNDED exactly when it
    answers success. On every other outcome, the breaker being open or the
    provider failing, the payment is left as it was and the claim on the
    refund is released, so the refund can be asked again. *)
Theorem refund_marks_iff_success (oid pid : string) (p : PayItem) (w : World) :
  pid <> EmptyString ->
  payments_table w !! pid = Some p ->
  idempotency_table w !! ("refund-" +:+ pid) = None ->
  (fst (payment_service.handler (refund_event oid (Some pid)) w)
     = Ok (PDict [("success", PBool true)]) /\
   payments_table (snd (payment_service.handler (refund_event oid (Some pid)) w)) !! pid
     = Some (payment_service.set_refunded p)) \/
  (fst (payment_service.handler (refund_event oid (Some pid)) w)
     <> Ok (PDict [("success", PBool true)]) /\
   payments_table (snd (payment_service.handler (refund_event oid (Some pid)) w)) !! pid
     = Some p /\
   idempotency_table (snd (payment_service.handler (refund_event oid (Some pid)) w))
     !! ("refund-" +:+ pid) = None).
Proof.
  intros Hne Hpay Hfresh.
  remember (payment_service.handler (refund_event oid (Some pid)) w) as c0 eqn:Hc.
  unfold payment_service.handler, try_except, payment_service.dispatch,
    payment_service.action_is, refund_event in Hc. simpl in Hc.
  unfold payment_service._refund in Hc. simpl in Hc. unfold bind at 1 in Hc.
  simpl in Hc.
  destruct pid as [|c s]; [contradiction|].
  rewrite idempotent_fresh in Hc by exact Hfresh.
  unfold payment_service._do_refund in Hc. unfold bind at 1, gets in Hc.
  change (payments_table (claimed ("refund-" +:+ String c s) w))
    with (payments_table w) in Hc.
  rewrite Hpay in Hc. unfold bind at 1 in Hc.
  destruct (provider_call_keeps_tables "refund" (claimed ("refund-" +:+ String c s) w))
    as [Hp Hi].
  destruct (circuit_breaker.call payment_service.payment_circuit_breaker
              (payment_service._call_payment_provider "refund")
              (claimed ("refund-" +:+ String c s) w)) as [[r|e] w1];
    simpl in Hp, Hi.
  - left. simpl in Hc. subst c0. cbn [fst snd]. split; [reflexivity|].
    simpl. unfold update_item. rewrite lookup_insert_eq, Hp.
    simpl in Hpay. rewrite Hpay. reflexivity.
  - right.
    assert (payments_table w1 !! String c s = Some p) as Hp1
      by (rewrite Hp; exact Hpay).
    destruct e; simpl in Hc; subst c0; cbn [fst snd];
      (split; [discriminate|]; split; [exact Hp1 | apply lookup_delete_eq]).
Qed.

Lemma refund_marks_iff_success_witness :
  pay_status <$>
    payments_table
      (snd (payment_service.handler (refund_event "o1" (Some "p1"))
              (set_payments_table
                 (insert "p1"
                    {| pay_order_id := "o1"; pay_customer_id := "c1";
                       pay_amount_cents := 200; provider_charge_id := "ch_1";
                       pay_status := "CHARGED"; pay_created_at := 100 |})
                 (world_with_breaker payment_service.payment_circuit_breaker
                    (breaker_item CLOSED 0 0 None) 100)))) !! "p1"
    = Some "REFUNDED".
Proof.
  destruct (refund_marks_iff_success "o1" "p1"
              {| pay_order_id := "o1"; pay_customer_id := "c1";
                 pay_amount_cents := 200; provider_charge_id := "ch_1";
                 pay_status := "CHARGED"; pay_created_at := 100 |}
              (set_payments_table
                 (insert "p1"
                    {| pay_order_id := "o1"; pay_customer_id := "c1";
                       pay_amount_cents := 200; provider_charge_id := "ch_1";
                       pay_status := "CHARGED"; pay_created_at := 100 |})
                 (world_with_breaker payment_service.payment_circuit_breaker
                    (breaker_item CLOSED 0 0 None) 100))
              ltac:(discriminate) eq_refl eq_refl) as [[_ H]|[H _]].
  - rewrite H. reflexivity.
  - exfalso. apply H. reflexivity.
Defined.

(** ** The order service *)

(** X21: the key taken from the request headers is never empty. It is the
    value of [Idempotency-Key] when that is present and not empty, otherwise
    the value of [idempotency-key]; when neither holds a non-empty value the
    request is refused with [ValueError]. The store is not touched. *)
Theorem from_api_gateway_key (ev : ApiEvent) (w : World) :
  match IdempotencyKey.from_api_gateway ev w with
  | (Ok k, w') =>
      w' = w /\ k <> EmptyString /\
      exists h, headers ev = Some h /\
        (h !! "Idempotency-Key" = Some k \/
         (falsy (h !! "Idempotency-Key") /\ h !! "idempotency-key" = Some k))
  | (Raise e, w') =>
      w' = w /\ e = ValueError "Missing required 'Idempotency-Key' header" /\
      forall h, headers ev = Some h ->
        falsy (h !! "Idempotency-Key") /\ falsy (h !! "idempotency-key")
  end.
Proof.
  unfold IdempotencyKey.from_api_gateway, IdempotencyKey.get_or, falsy.
  destruct (headers ev) as [h|]; simpl.
  - destruct (h !! "Idempotency-Key") as [[|c s]|] eqn:H1;
      [destruct (h !! "idempotency-key") as [[|c s]|] eqn:H2 | |
       destruct (h !! "idempotency-key") as [[|c s]|] eqn:H2]; simpl;
      (split; [reflexivity|]); split;
      try reflexivity; try discriminate;
      try (intros h' [= <-]; rewrite H1, H2; auto);
      exists h; split; try reflexivity;
      rewrite ?H1, ?H2; auto.
  - split; [reflexivity|]. split; [reflexivity|]. discriminate.
Qed.

Lemma from_api_gateway_pure (ev : ApiEvent) (w : World) :
  IdempotencyKey.from_api_gateway ev w
    = (fst (IdempotencyKey.from_api_gateway ev (empty_world 0)), w).
Proof.
  unfold IdempotencyKey.from_api_gateway.
  destruct (IdempotencyKey.get_or _ _ _) as [[|c s]|]; reflexivity.
Qed.

Lemma CreateOrderRequest_eq (b : CreateOrderBody) (key : string) (w : World) :
  order_service.CreateOrderRequest b key w =
    if valid_request b then
      (Ok (default EmptyString (body_customer_id b), default [] (body_items b)), w)
    else (Raise (request_error b), w).
Proof.
  unfold order_service.CreateOrderRequest, valid_request, request_error.
  destruct (body_idempotency_key b); [reflexivity|].
  destruct (body_customer_id b) as [cid|]; [|reflexivity].
  destruct (body_items b) as [its|]; [|reflexivity].
  unfold bind. rewrite mapM_validate_eq.
  destruct its as [|i r]; [reflexivity|].
  destruct (forallb valid_item (i :: r)); reflexivity.
Qed.

Lemma total_cents_of_shift (its : list OrderItem) (a : Z) :
  fold_left (fun acc i => acc + order_service.OrderItem_total_cents i) its a
    = a + order_service.total_cents_of its.
Proof.
  unfold order_service.total_cents_of. revert a.
  induction its as [|i r IH]; intros a; simpl; [lia|].
  rewrite (IH (a + _)), (IH (0 + _)). lia.
Qed.

Lemma total_cents_of_nonneg (its : list OrderItem) :
  forallb valid_item its = true -> 0 <= order_service.total_cents_of its.
Proof.
  induction its as [|i r IH]; intros H; [unfold order_service.total_cents_of; simpl; lia|].
  simpl in H. apply andb_true_iff in H as [Hi Hr].
  unfold order_service.total_cents_of. simpl. rewrite total_cents_of_shift.
  specialize (IH Hr). unfold valid_item in Hi. apply andb_true_iff in Hi as [Hq Hp].
  unfold order_service.OrderItem_total_cents. nia.
Qed.

(** What [_idempotent_create] returns when it returns. *)
Lemma _idempotent_create_ok (ev : ApiEvent) (key : string) (w w1 : World) (r : pyval) :
  order_service._idempotent_create ev key w = (Ok r, w1) ->
  exists oid s,
    r = PDict [("order_id", PStr oid); ("status", PStr s)].
Proof.
  unfold order_service._idempotent_create. unfold bind at 1.
  destruct (order_service.CreateOrderRequest _ key w) as [[req|e] w0]; [|discriminate].
  unfold bind at 1, uuid4. unfold bind at 1. unfold bind at 1.
  destruct (OrderRepository.create _ _ _ _ _ _) as [[order|e] w2]; [|discriminate].
  unfold bind at 1.
  destruct (order_service._emit_order_created_event _ _ w2) as [[[]|e] w3];
    [|discriminate].
  unfold bind at 1.
  destruct (order_service.start_execution _ w3) as [[[]|e] w4]; [|discriminate].
  unfold bind at 1.
  destruct (getitem "status" (om_status order) w4) as [[s|e] w5]; [|discriminate].
  intros [= <- _]. eauto.
Qed.

(** X22: a first [POST /orders] with a body the request model accepts and
    numbers that fit DynamoDB's 38 digits, a key not yet stored and a fresh
    order id answers 202 with the new order id and status PENDING, stores the
    order PENDING at version 1 with the total of its items, which is not
    negative, and starts exactly one saga execution, named after the order,
    after publishing the creation event. *)
Theorem create_order_accepted (ev : ApiEvent) (key : string) (w : World) :
  fst (IdempotencyKey.from_api_gateway ev w) = Ok key ->
  valid_request (request_body ev) = true ->
  storable_order (default [] (body_items (request_body ev)))
    (order_service.total_cents_of (default [] (body_items (request_body ev)))) = true ->
  idempotency_table w !! key = None ->
  orders_table w !! OrderRepository.meta_key (next_uuid w) = None ->
  fst (order_service._create_order ev w) = Ok (accepted (next_uuid w)) /\
  OrderRepository.stored_status (next_uuid w) (snd (order_service._create_order ev w))
    = Some PENDING /\
  OrderRepository.stored_version (next_uuid w) (snd (order_service._create_order ev w))
    = Some 1 /\
  (exists m,
     orders_table (snd (order_service._create_order ev w))
       !! OrderRepository.meta_key (next_uuid w) = Some (MetaRow m) /\
     om_customer_id m = body_customer_id (request_body ev) /\
     Some (om_items m) = body_items (request_body ev) /\
     om_total_cents m = Some (order_service.total_cents_of (om_items m)) /\
     0 <= order_service.total_cents_of (om_items m)) /\
  ext_log (snd (order_service._create_order ev w))
    = ("start_execution order-saga-" +:+ next_uuid w)
        :: ("put_events cloudflow.order.created " +:+ next_uuid w) :: ext_log w.
Proof.
  intros Hkey Hvalid Hstor Hfresh Hoid.
  remember (order_service._create_order ev w) as c eqn:Hc.
  unfold order_service._create_order in Hc. unfold bind at 1 in Hc.
  rewrite from_api_gateway_pure in Hc. rewrite from_api_gateway_pure in Hkey.
  simpl in Hkey. rewrite Hkey in Hc. unfold bind at 1 in Hc.
  rewrite idempotent_fresh in Hc by exact Hfresh.
  unfold order_service._idempotent_create in Hc. unfold bind at 1 in Hc.
  fold (request_body ev) in Hc.
  rewrite CreateOrderRequest_eq, Hvalid in Hc.
  unfold valid_request in Hvalid.
  destruct (body_idempotency_key (request_body ev)); [discriminate|].
  destruct (body_customer_id (request_body ev)) as [cid|] eqn:Hcid; [|discriminate].
  destruct (body_items (request_body ev)) as [[|i r]|] eqn:Hits; try discriminate.
  cbn [default from_option id fst snd] in Hc, Hstor.
  unfold bind at 1, uuid4 in Hc. unfold bind at 1 in Hc.
  unfold bind at 1 in Hc.
  rewrite create_eq, Hstor in Hc.
  cbn [orders_table claimed set_idempotency_table set_uuid_counter uuid_counter] in Hc.
  unfold next_uuid in Hoid |- *. rewrite Hoid in Hc.
  unfold bind, order_service._emit_order_created_event,
    order_service.start_execution, uuid4, modify, order_stored, new_order in Hc.
  cbn in Hc. subst c. unfold ret. cbn [fst snd].
  unfold OrderRepository.stored_status, OrderRepository.stored_version.
  cbn [orders_table ext_log set_orders_table set_ext_log set_uuid_counter
       set_idempotency_table].
  rewrite !lookup_insert_ne by (unfold OrderRepository.meta_key; congruence).
  rewrite !lookup_insert_eq. cbn.
  split; [reflexivity|]. split; [reflexivity|]. split; [reflexivity|].
  split; [|reflexivity].
  eexists. split; [reflexivity|]. cbn.
  split; [reflexivity|]. split; [reflexivity|]. split; [reflexivity|].
  exact (total_cents_of_nonneg (i :: r) Hvalid).
Qed.

Lemma create_order_accepted_witness :
  fst (order_service._create_order (post_event "k1" body_A2) (empty_world 100))
    = Ok (accepted "uuid-0") /\
  ext_log (snd (order_service._create_order (post_event "k1" body_A2) (empty_world 100)))
    = ["start_execution order-saga-uuid-0";
       "put_events cloudflow.order.created uuid-0"].
Proof.
  assert (fst (IdempotencyKey.from_api_gateway (post_event "k1" body_A2) (empty_world 100))
          = Ok "k1") as Hkey by (vm_compute; reflexivity).
  destruct (create_order_accepted (post_event "k1" body_A2) "k1" (empty_world 100)
              Hkey eq_refl eq_refl eq_refl eq_refl) as (H1 & _ & _ & _ & H5).
  split; [exact H1 | exact H5].
Defined.

(** X23: a request repeated under the same headers is answered from the
    record. When [POST /orders] has been answered, a later request with the
    same headers, whatever its body, gets the same answer and changes
    nothing: no second order, no second event, no second execution. *)
Theorem create_order_duplicate (ev ev' : ApiEvent) (w : World) (resp : Response) :
  headers ev' = headers ev ->
  fst (order_service._create_order ev w) = Ok resp ->
  order_service._create_order ev' (snd (order_service._create_order ev w))
    = (Ok resp, snd (order_service._create_order ev w)).
Proof.
  intros Hh.
  assert (forall w0, IdempotencyKey.from_api_gateway ev' w0
                     = (fst (IdempotencyKey.from_api_gateway ev (empty_world 0)), w0))
    as Hkey'.
  { intros w0. rewrite from_api_gateway_pure. f_equal.
    unfold IdempotencyKey.from_api_gateway. rewrite Hh. reflexivity. }
  remember (order_service._create_order ev w) as c eqn:Hc.
  unfold order_service._create_order in Hc |- *.
  unfold bind at 1 in Hc. unfold bind at 1.
  rewrite from_api_gateway_pure in Hc. rewrite Hkey'.
  destruct (fst (IdempotencyKey.from_api_gateway ev (empty_world 0))) as [key|e];
    [|subst c; discriminate].
  unfold bind at 1 in Hc. unfold bind at 1.
  destruct (idempotency_table w !! key) as [it|] eqn:Hit.
  - rewrite (idempotent_existing key _ w it Hit) in Hc.
    destruct (idempotency.status_is "COMPLETE" (idem_status it)) eqn:Hst.
    + destruct (idem_result it) as [j|] eqn:Hj; [|subst c; discriminate].
      cbv beta iota in Hc. unfold order_service._response in Hc.
      rewrite json_dumps_loads in Hc. subst c. cbn [fst snd ret]. intros [= <-].
      rewrite (idempotent_existing key _ w it Hit), Hst, Hj.
      cbv beta iota. unfold order_service._response.
      rewrite json_dumps_loads. reflexivity.
    + destruct (idempotency.status_is "IN_FLIGHT" (idem_status it));
        subst c; discriminate.
  - rewrite (idempotent_fresh key _ w Hit) in Hc.
    destruct (order_service._idempotent_create ev key (claimed key w))
      as [[r|e] w1] eqn:Hfn; [|subst c; discriminate].
    destruct (_idempotent_create_ok _ _ _ _ _ Hfn) as (oid & s & ->).
    simpl in Hc. subst c. cbn [fst snd]. intros [= <-].
    rewrite (idempotent_existing key _ _
               (idempotency.set_complete
                  (JObj [("order_id", JStr oid); ("status", JStr s)])
                  (default idempotency.blank_item (idempotency_table w1 !! key)))).
    + reflexivity.
    + simpl. unfold update_item. rewrite lookup_insert_eq. reflexivity.
Qed.

Lemma create_order_duplicate_witness :
  order_service._create_order
    (post_event "k1" {| body_customer_id := Some "c2"; body_items := Some [item_B1];
                        body_idempotency_key := None |})
    (snd (order_service._create_order (post_event "k1" body_A2) (empty_world 100)))
  = (Ok (accepted "uuid-0"),
     snd (order_service._create_order (post_event "k1" body_A2) (empty_world 100))).
Proof.
  assert (fst (order_service._create_order (post_event "k1" body_A2) (empty_world 100))
          = Ok (accepted "uuid-0")) as H by (vm_compute; reflexivity).
  rewrite (create_order_duplicate (post_event "k1" body_A2)
             (post_event "k1" {| body_customer_id := Some "c2";
                                 body_items := Some [item_B1];
                                 body_idempotency_key := None |})
             (empty_world 100) (accepted "uuid-0") eq_refl H).
  reflexivity.
Defined.

(** X24: a request refused before the order is written leaves the store as
    it was. Without a usable key the request is refused with the error of
    the key lookup; with a key not yet stored and a body the request model
    rejects, it is refused with the model's error, no uuid is drawn, and the
    claim on the key is released so the key can be used again. *)
Theorem create_order_rejected (ev : ApiEvent) (w : World) :
  (forall e,
     fst (IdempotencyKey.from_api_gateway ev w) = Raise e ->
     order_service._create_order ev w = (Raise e, w)) /\
  (forall key,
     fst (IdempotencyKey.from_api_gateway ev w) = Ok key ->
     valid_request (request_body ev) = false ->
     idempotency_table w !! key = None ->
     order_service._create_order ev w = (Raise (request_error (request_body ev)), w)).
Proof.
  split.
  - intros e He. unfold order_service._create_order. unfold bind at 1.
    rewrite from_api_gateway_pure in He |- *. simpl in He. rewrite He. reflexivity.
  - intros key Hkey Hinvalid Hfresh.
    unfold order_service._create_order. unfold bind at 1.
    rewrite from_api_gateway_pure in Hkey |- *. simpl in Hkey. rewrite Hkey.
    unfold bind at 1. rewrite idempotent_fresh by exact Hfresh.
    unfold order_service._idempotent_create. unfold bind at 1.
    fold (request_body ev). rewrite CreateOrderRequest_eq, Hinvalid.
    rewrite claim_released by exact Hfresh. reflexivity.
Qed.

Lemma create_order_rejected_witness :
  order_service._create_order
    (post_event "k1" {| body_customer_id := Some "c1"; body_items := Some [];
                        body_idempotency_key := None |}) (empty_world 100)
    = (Raise ValidationError, empty_world 100) /\
  order_service._create_order
    {| httpMethod := Some "POST"; path := Some "/orders"; headers := None;
       body := Some body_A2 |} (empty_world 100)
    = (Raise (ValueError "Missing required 'Idempotency-Key' header"), empty_world 100).
Proof.
  split.
  - assert (fst (IdempotencyKey.from_api_gateway
                   (post_event "k1" {| body_customer_id := Some "c1";
                                       body_items := Some [];
                                       body_idempotency_key := None |})
                   (empty_world 100)) = Ok "k1") as Hkey by (vm_compute; reflexivity).
    rewrite (proj2 (create_order_rejected
                      (post_event "k1" {| body_customer_id := Some "c1";
                                          body_items := Some [];
                                          body_idempotency_key := None |})
                      (empty_world 100)) "k1" Hkey eq_refl eq_refl).
    reflexivity.
  - rewrite (proj1 (create_order_rejected
                      {| httpMethod := Some "POST"; path := Some "/orders";
                         headers := None; body := Some body_A2 |}
                      (empty_world 100))
               (ValueError "Missing required 'Idempotency-Key' header") eq_refl).
    reflexivity.
Defined.

(** ** The notification service *)

Lemma from_sqs_message_eq (r : SqsRecord) (w : World) :
  notification_service.from_sqs_message r w =
    (match record_key r with
     | Some k => Ok k
     | None => Raise (KeyError "messageId")
     end, w).
Proof.
  unfold notification_service.from_sqs_message, record_key.
  destruct (default ∅ (attributes r) !! "MessageDeduplicationId") as [[|c s]|];
    try reflexivity; destruct (messageId r); reflexivity.
Qed.

Lemma _do_notify_eq (topic : string) (b : NotifyBody) (w : World) :
  notification_service._do_notify topic b w =
    match nb_order_id b, nb_customer_id b with
    | Some oid, Some _ =>
        if message_overflows b then (Raise OverflowError, w)
        else
          (Ok (PDict [("sent", PBool true)]),
           match topic with
           | EmptyString => w
           | String _ _ =>
               set_ext_log
                 (cons ("sns publish "
                        +:+ default "ORDER_CONFIRMED" (nb_notification_type b)
                        +:+ " " +:+ oid)) w
           end)
    | Some _, None => (Raise (KeyError "customer_id"), w)
    | None, _ => (Raise (KeyError "order_id"), w)
    end.
Proof.
  unfold notification_service._do_notify, bind.
  destruct (nb_order_id b) as [oid|]; [|reflexivity]. simpl.
  destruct (nb_customer_id b) as [cid|]; [|reflexivity]. simpl.
  unfold notification_service._build_message, message_overflows.
  destruct (String.eqb _ "ORDER_CONFIRMED"); simpl.
  - destruct (notification_service.true_div_overflows _ 100); simpl; [reflexivity|].
    destruct topic; reflexivity.
  - destruct topic; reflexivity.
Qed.

Lemma _process_record_eq (topic : string) (r : SqsRecord) (w : World) :
  notification_service._process_record topic r w =
    match record_key r with
    | None => (Raise (KeyError "messageId"), w)
    | Some k =>
        match sqs_body r with
        | None => (Raise (KeyError "body"), w)
        | Some b =>
            match idempotency.idempotent ("notify-" +:+ k)
                    (notification_service._do_notify topic b) w with
            | (Ok _, w') => (Ok tt, w')
            | (Raise e, w') => (Raise e, w')
            end
        end
    end.
Proof.
  unfold notification_service._process_record. unfold bind at 1.
  rewrite from_sqs_message_eq. destruct (record_key r) as [k|]; [|reflexivity].
  unfold bind at 1. destruct (sqs_body r) as [b|]; [|reflexivity]. simpl.
  unfold bind. destruct (idempotency.idempotent _ _ w) as [[v|e] w']; reflexivity.
Qed.

Lemma completed_record_cached (key : string) (fn : M pyval) (w : World) :
  completed_record (idempotency_table w !! key) ->
  exists v, idempotency.idempotent key fn w = (Ok v, w).
Proof.
  intros (it & j & Hit & Hst & Hj).
  rewrite (idempotent_existing key fn w it Hit), Hst, Hj. simpl.
  eexists. reflexivity.
Qed.

(** A settled record is processed without any change. *)
Lemma settled_unchanged (topic : string) (r : SqsRecord) (w : World) :
  settled r w -> snd (notification_service._process_record topic r w) = w.
Proof.
  intros Hs. rewrite _process_record_eq.
  destruct (record_key r) as [k|] eqn:Hk; [|reflexivity].
  destruct (sqs_body r) as [b|] eqn:Hb; [|reflexivity].
  destruct (Hs k Hk) as [Hc | [Hnone Hsend]].
  - destruct (completed_record_cached _ (notification_service._do_notify topic b) w Hc)
      as [v ->]. reflexivity.
  - rewrite (idempotent_fresh _ _ _ Hnone), _do_notify_eq.
    unfold sendable in Hsend. rewrite Hb in Hsend.
    destruct (nb_order_id b);
      [destruct (nb_customer_id b);
         [destruct (message_overflows b); [|discriminate]|]|];
      simpl; apply claim_released, Hnone.
Qed.

(** Processing a clean record settles it, and keeps every other record of
    the batch clean, and settled if it was. *)
Lemma clean_step (topic : string) (r : SqsRecord) (w : World) :
  clean r w ->
  settled r (snd (notification_service._process_record topic r w)) /\
  (forall r', clean r' w ->
     clean r' (snd (notification_service._process_record topic r w))) /\
  (forall r', settled r' w ->
     settled r' (snd (notification_service._process_record topic r w))) /\
  (forall e, fst (notification_service._process_record topic r w) = Raise e ->
     snd (notification_service._process_record topic r w) = w).
Proof.
  intros Hclean. rewrite _process_record_eq.
  destruct (record_key r) as [k|] eqn:Hk.
  2:{ cbn [fst snd]. repeat split; auto. intros k Hk'. rewrite Hk in Hk'. discriminate. }
  destruct (sqs_body r) as [b|] eqn:Hb.
  2:{ cbn [fst snd]. repeat split; auto. intros k' Hk'. rewrite Hk in Hk'.
      injection Hk' as <-. destruct (Hclean k Hk) as [Hn|Hc]; [right|left; exact Hc].
      split; [exact Hn|]. unfold sendable. rewrite Hb. reflexivity. }
  destruct (Hclean k Hk) as [Hnone|Hc].
  - rewrite (idempotent_fresh _ _ _ Hnone), _do_notify_eq.
    destruct (nb_order_id b) as [oid|] eqn:Hoid;
      [destruct (nb_customer_id b) as [cid|] eqn:Hcid;
         [destruct (message_overflows b) eqn:Hover|]|].
    + cbn [fst snd]. rewrite claim_released by exact Hnone.
      repeat split; auto. intros k' Hk'. rewrite Hk in Hk'. injection Hk' as <-.
      right. split; [exact Hnone|]. unfold sendable.
      rewrite Hb, Hoid, Hcid, Hover. reflexivity.
    + (* sent: the key becomes COMPLETE *)
      simpl json_dumps. cbv beta iota. cbn [fst snd].
      set (w1 := match topic with EmptyString => _ | String _ _ => _ end).
      assert (idempotency_table w1 = idempotency_table (claimed ("notify-" +:+ k) w))
        as Ht by (subst w1; destruct topic; reflexivity).
      assert (forall key,
                idempotency_table
                  (set_idempotency_table
                     (update_item idempotency.blank_item
                        (idempotency.set_complete (JObj [("sent", JBool true)]))
                        ("notify-" +:+ k)) w1) !! key
                = if decide (key = "notify-" +:+ k)
                  then Some (idempotency.set_complete (JObj [("sent", JBool true)])
                               (in_flight_item (clock w)))
                  else idempotency_table w !! key) as Hlook.
      { intros key. cbn [idempotency_table set_idempotency_table]. rewrite Ht.
        unfold update_item, claimed. cbn [idempotency_table set_idempotency_table].
        destruct (decide (key = "notify-" +:+ k)) as [->|Hne].
        - rewrite !lookup_insert_eq. reflexivity.
        - rewrite !lookup_insert_ne by congruence. reflexivity. }
      assert (forall key, key = "notify-" +:+ k ->
                completed_record
                  (idempotency_table
                     (set_idempotency_table
                        (update_item idempotency.blank_item
                           (idempotency.set_complete (JObj [("sent", JBool true)]))
                           ("notify-" +:+ k)) w1) !! key)) as Hdone.
      { intros key ->. rewrite Hlook. rewrite decide_True by reflexivity.
        eexists _, _. split; [reflexivity|]. split; reflexivity. }
      split; [|split; [|split]].
      * intros k' Hk'. rewrite Hk in Hk'. injection Hk' as <-. left. apply Hdone.
        reflexivity.
      * intros r' Hr' k' Hk'.
        destruct (decide ("notify-" +:+ k' = "notify-" +:+ k)) as [He|Hne].
        -- right. apply Hdone, He.
        -- rewrite Hlook, decide_False by exact Hne. apply Hr', Hk'.
      * intros r' Hr' k' Hk'.
        destruct (decide ("notify-" +:+ k' = "notify-" +:+ k)) as [He|Hne].
        -- left. apply Hdone, He.
        -- rewrite Hlook, decide_False by exact Hne. apply Hr', Hk'.
      * discriminate.
    + cbn [fst snd]. rewrite claim_released by exact Hnone.
      repeat split; auto. intros k' Hk'. rewrite Hk in Hk'. injection Hk' as <-.
      right. split; [exact Hnone|]. unfold sendable. rewrite Hb, Hoid, Hcid. reflexivity.
    + cbn [fst snd]. rewrite claim_released by exact Hnone.
      repeat split; auto. intros k' Hk'. rewrite Hk in Hk'. injection Hk' as <-.
      right. split; [exact Hnone|]. unfold sendable. rewrite Hb, Hoid. reflexivity.
  - destruct (completed_record_cached _ (notification_service._do_notify topic b) w Hc)
      as [v ->]. cbn [fst snd]. repeat split; auto.
    intros k' Hk'. rewrite Hk in Hk'. injection Hk' as <-. left. exact Hc.
Qed.

Lemma process_records_cons (topic : string) (r : SqsRecord) (rest : list SqsRecord)
    (fs : list string) (w : World) :
  notification_service.process_records topic (r :: rest) fs w =
    match notification_service._process_record topic r w with
    | (Ok _, w') => notification_service.process_records topic rest fs w'
    | (Raise _, w') =>
        match messageId r with
        | Some mid => notification_service.process_records topic rest (fs ++ [mid]) w'
        | None => (Raise (KeyError "messageId"), w')
        end
    end.
Proof.
  simpl. unfold bind at 1. unfold try_except. unfold bind at 1.
  destruct (notification_service._process_record topic r w) as [[[]|e] w']; simpl.
  - reflexivity.
  - unfold bind. destruct (messageId r); reflexivity.
Qed.

(** Records that are settled are passed over: the loop stops on one of them
    without any change, or goes on with the rest on the same store. *)
Lemma settled_prefix (topic : string) (l1 l2 : list SqsRecord) (w : World) :
  Forall (fun r => settled r w) l1 ->
  forall fs,
    (exists e, notification_service.process_records topic (l1 ++ l2) fs w
               = (Raise e, w)) \/
    (exists fs', notification_service.process_records topic (l1 ++ l2) fs w
                 = notification_service.process_records topic l2 fs' w).
Proof.
  induction 1 as [|r l Hr Hl IH]; intros fs.
  - right. exists fs. reflexivity.
  - rewrite <- app_comm_cons, process_records_cons.
    pose proof (settled_unchanged topic r w Hr) as Hw.
    destruct (notification_service._process_record topic r w) as [[[]|e] w'];
      simpl in Hw; subst w'.
    + apply IH.
    + destruct (messageId r) as [mid|]; [apply IH | left; eauto].
Qed.

Lemma redelivery_changes_nothing (topic : string) (rs : list SqsRecord) :
  forall (done : list SqsRecord) (fs fs2 : list string) (w : World),
    Forall (fun r => settled r w) done ->
    Forall (fun r => clean r w) rs ->
    snd (notification_service.process_records topic (done ++ rs) fs2
           (snd (notification_service.process_records topic rs fs w)))
      = snd (notification_service.process_records topic rs fs w).
Proof.
  induction rs as [|r rest IH]; intros done fs fs2 w Hdone Hrs.
  - simpl. destruct (settled_prefix topic done [] w Hdone fs2) as [[e ->]|[fs' ->]];
      reflexivity.
  - inversion Hrs as [|r0 l0 Hr Hrest]; subst.
    destruct (clean_step topic r w Hr) as (Hsettled & Hclean & Hkeep & Hraise).
    assert (Forall (fun r' => settled r' (snd (notification_service._process_record
                                                 topic r w))) (done ++ [r])) as Hdone'.
    { apply Forall_app. split.
      - eapply Forall_impl; [exact Hdone | exact Hkeep].
      - apply List.Forall_cons; [exact Hsettled | apply List.Forall_nil]. }
    assert (Forall (fun r' => clean r' (snd (notification_service._process_record
                                               topic r w))) rest) as Hrest'.
    { eapply Forall_impl; [exact Hrest | exact Hclean]. }
    rewrite (process_records_cons topic r rest fs w).
    destruct (notification_service._process_record topic r w) as [[[]|e] w'] eqn:Hp;
      cbn [fst snd] in *.
    + specialize (IH (done ++ [r]) fs fs2 w' Hdone' Hrest').
      rewrite <- app_assoc in IH. exact IH.
    + destruct (messageId r) as [mid|] eqn:Hmid.
      * specialize (IH (done ++ [r]) (fs ++ [mid]) fs2 w' Hdone' Hrest').
        rewrite <- app_assoc in IH. exact IH.
      * cbn [snd]. rewrite (Hraise e eq_refl) in *.
        destruct (settled_prefix topic done (r :: rest) w Hdone fs2)
          as [[e' ->]|[fs' ->]]; [reflexivity|].
        rewrite process_records_cons, Hp, Hmid. reflexivity.
Qed.

(** X25: a batch delivered again changes nothing. When the key of every
    record of the batch is unclaimed or COMPLETE, handling the batch a second
    time leaves the store exactly as the first handling left it: no
    notification is published twice, whatever the records hold and whichever
    of them failed. *)
Theorem notification_redelivery (topic : string) (rs : list SqsRecord) (w : World) :
  Forall (fun r => clean r w) rs ->
  snd (notification_service.handler topic (Some rs)
         (snd (notification_service.handler topic (Some rs) w)))
    = snd (notification_service.handler topic (Some rs) w).
Proof.
  intros Hclean.
  assert (forall w0, snd (notification_service.handler topic (Some rs) w0)
                     = snd (notification_service.process_records topic rs [] w0)) as Hh.
  { intros w0. unfold notification_service.handler, bind. simpl.
    destruct (notification_service.process_records topic rs [] w0) as [[fs|e] w'];
      reflexivity. }
  rewrite !Hh.
  exact (redelivery_changes_nothing topic rs [] [] [] w (@List.Forall_nil _ _) Hclean).
Qed.

Lemma notification_redelivery_witness :
  ext_log (snd (notification_service.handler "arn"
                  (Some [confirmed_record "m1" "o1"; confirmed_record "m2" "o2"])
                  (snd (notification_service.handler "arn"
                          (Some [confirmed_record "m1" "o1"; confirmed_record "m2" "o2"])
                          (empty_world 100)))))
    = ["sns publish ORDER_CONFIRMED o2"; "sns publish ORDER_CONFIRMED o1"].
Proof.
  assert (Forall (fun r => clean r (empty_world 100))
            [confirmed_record "m1" "o1"; confirmed_record "m2" "o2"]) as Hclean.
  { repeat (apply List.Forall_cons; [intros k Hk; left; apply lookup_empty|]).
    apply List.Forall_nil. }
  rewrite (notification_redelivery "arn"
             [confirmed_record "m1" "o1"; confirmed_record "m2" "o2"]
             (empty_world 100) Hclean).
  vm_compute. reflexivity.
Defined.

(** X26: the first delivery of a record that names its order and customer,
    under a key not yet claimed. When the message can be built the delivery
    succeeds and leaves the key COMPLETE: with a topic configured it
    publishes exactly one notification, of the type the body names or
    ORDER_CONFIRMED by default; with no topic configured it publishes nothing
    and still records the message as sent. When the ORDER_CONFIRMED template
    is handed a total too large to divide into a float, the delivery raises
    [OverflowError] before anything is published and leaves the store as it
    was, the claim released. *)
Theorem notify_first_delivery (topic : string) (r : SqsRecord) (k : string)
    (b : NotifyBody) (oid cid : string) (w : World) :
  record_key r = Some k ->
  sqs_body r = Some b ->
  nb_order_id b = Some oid ->
  nb_customer_id b = Some cid ->
  idempotency_table w !! ("notify-" +:+ k) = None ->
  (message_overflows b = false ->
     fst (notification_service._process_record topic r w) = Ok tt /\
     idem_result <$>
       idempotency_table (snd (notification_service._process_record topic r w))
         !! ("notify-" +:+ k)
       = Some (Some (JObj [("sent", JBool true)])) /\
     idem_status <$>
       idempotency_table (snd (notification_service._process_record topic r w))
         !! ("notify-" +:+ k)
       = Some (Some "COMPLETE") /\
     ext_log (snd (notification_service._process_record topic r w))
       = match topic with
         | EmptyString => ext_log w
         | String _ _ =>
             ("sns publish " +:+ default "ORDER_CONFIRMED" (nb_notification_type b)
                +:+ " " +:+ oid) :: ext_log w
         end) /\
  (message_overflows b = true ->
     notification_service._process_record topic r w = (Raise OverflowError, w)).
Proof.
  intros Hk Hb Hoid Hcid Hnone.
  rewrite _process_record_eq, Hk, Hb, (idempotent_fresh _ _ _ Hnone), _do_notify_eq,
    Hoid, Hcid.
  split; intros ->.
  - simpl json_dumps. cbv beta iota. cbn [fst snd].
    split; [reflexivity|].
    destruct topic as [|c s]; cbn [idempotency_table set_idempotency_table ext_log
                                     set_ext_log claimed];
      unfold update_item; rewrite !lookup_insert_eq; repeat split; reflexivity.
  - rewrite claim_released by exact Hnone. reflexivity.
Qed.

Lemma notify_first_delivery_witness :
  ext_log (snd (notification_service._process_record ""
                  (confirmed_record "m1" "o1") (empty_world 100))) = [] /\
  ext_log (snd (notification_service._process_record "arn"
                  (confirmed_record "m1" "o1") (empty_world 100)))
    = ["sns publish ORDER_CONFIRMED o1"] /\
  notification_service._process_record "arn"
    {| messageId := Some "m1"; attributes := None;
       sqs_body := Some {| nb_notification_type := None;
                           nb_order_id := Some "o1"; nb_customer_id := Some "c1";
                           nb_total_cents := Some (2 ^ 1031);
                           nb_error_reason := None |} |} (empty_world 100)
    = (Raise OverflowError, empty_world 100).
Proof.
  set (big := {| messageId := Some "m1"; attributes := None;
                 sqs_body := Some {| nb_notification_type := None;
                                     nb_order_id := Some "o1";
                                     nb_customer_id := Some "c1";
                                     nb_total_cents := Some (2 ^ 1031);
                                     nb_error_reason := None |} |}).
  assert (message_overflows
            {| nb_notification_type := Some "ORDER_CONFIRMED";
               nb_order_id := Some "o1"; nb_customer_id := Some "c1";
               nb_total_cents := Some 200; nb_error_reason := None |} = false)
    as Hsmall by (vm_compute; reflexivity).
  assert (message_overflows
            {| nb_notification_type := None;
               nb_order_id := Some "o1"; nb_customer_id := Some "c1";
               nb_total_cents := Some (2 ^ 1031); nb_error_reason := None |} = true)
    as Hbig by (vm_compute; reflexivity).
  split; [|split].
  - exact (proj2 (proj2 (proj2 (proj1 (notify_first_delivery ""
             (confirmed_record "m1" "o1") "m1" _ "o1" "c1" (empty_world 100)
             eq_refl eq_refl eq_refl eq_refl eq_refl) Hsmall)))).
  - exact (proj2 (proj2 (proj2 (proj1 (notify_first_delivery "arn"
             (confirmed_record "m1" "o1") "m1" _ "o1" "c1" (empty_world 100)
             eq_refl eq_refl eq_refl eq_refl eq_refl) Hsmall)))).
  - exact (proj2 (notify_first_delivery "arn" big "m1" _ "o1" "c1" (empty_world 100)
             eq_refl eq_refl eq_refl eq_refl eq_refl) Hbig).
Defined.

(** ** Conversion of stored items *)

Lemma decimal_to_python_spec (v : pyval) :
  if small_decimals v then
    exists v', decimal_to_python v = Ok v' /\
               (tuple_free v = true -> json_stable v' = true) /\
               decimal_to_python v' = Ok v'
  else decimal_to_python v = Raise DecimalException.
Proof.
  induction v as [| | | |z|l IH|l IH|d IH] using pyval_nested_ind;
    try (simpl; eexists; split; [reflexivity|]; split;
         [first [reflexivity | discriminate] | reflexivity]).
  - cbn [small_decimals decimal_to_python].
    destruct (Z.abs z <? 10 ^ 28); [|reflexivity].
    eexists. split; [reflexivity|]. split; reflexivity.
  - assert (if forallb small_decimals l then
              exists l',
                (fix go (l : list pyval) : Outcome (list pyval) :=
                   match l with
                   | [] => Ok []
                   | x :: r =>
                       match decimal_to_python x with
                       | Ok v =>
                           match go r with
                           | Ok r' => Ok (v :: r')
                           | Raise e => Raise e
                           end
                       | Raise e => Raise e
                       end
                   end) l = Ok l' /\
                (forallb tuple_free l = true -> forallb json_stable l' = true) /\
                decimal_to_python (PList l') = Ok (PList l')
            else
              (fix go (l : list pyval) : Outcome (list pyval) :=
                 match l with
                 | [] => Ok []
                 | x :: r =>
                     match decimal_to_python x with
                     | Ok v =>
                         match go r with
                         | Ok r' => Ok (v :: r')
                         | Raise e => Raise e
                         end
                     | Raise e => Raise e
                     end
                 end) l = Raise DecimalException) as H.
    { induction IH as [|x r Hx _ IHr].
      - simpl. exists []. split; [reflexivity|]. split; reflexivity.
      - cbn [forallb]. destruct (small_decimals x).
        + destruct Hx as (x' & -> & Hsx & Hix). cbn [andb].
          destruct (forallb small_decimals r).
          * destruct IHr as (r' & -> & Hsr & Hir).
            exists (x' :: r'). split; [reflexivity|]. split.
            -- intros Ht. apply andb_true_iff in Ht as [Htx Htr].
               cbn [forallb]. rewrite (Hsx Htx), (Hsr Htr). reflexivity.
            -- cbn [decimal_to_python] in Hir |- *. rewrite Hix.
               destruct ((fix go (l : list pyval) : Outcome (list pyval) := _) r')
                 as [r''|e]; [|discriminate].
               injection Hir as ->. reflexivity.
          * rewrite IHr. reflexivity.
        + rewrite Hx. reflexivity. }
    cbn [small_decimals decimal_to_python tuple_free].
    destruct (forallb small_decimals l).
    + destruct H as (l' & -> & Hs & Hi). exists (PList l').
      split; [reflexivity|]. split; [exact Hs | exact Hi].
    + rewrite H. reflexivity.
  - assert (if forallb (fun kv => small_decimals (snd kv)) d then
              exists d',
                (fix go (d : list (string * pyval))
                   : Outcome (list (string * pyval)) :=
                   match d with
                   | [] => Ok []
                   | kv :: r =>
                       match decimal_to_python (snd kv) with
                       | Ok v =>
                           match go r with
                           | Ok r' => Ok ((fst kv, v) :: r')
                           | Raise e => Raise e
                           end
                       | Raise e => Raise e
                       end
                   end) d = Ok d' /\
                (forallb (fun kv => tuple_free (snd kv)) d = true ->
                 forallb (fun kv => json_stable (snd kv)) d' = true) /\
                decimal_to_python (PDict d') = Ok (PDict d')
            else
              (fix go (d : list (string * pyval))
                 : Outcome (list (string * pyval)) :=
                 match d with
                 | [] => Ok []
                 | kv :: r =>
                     match decimal_to_python (snd kv) with
                     | Ok v =>
                         match go r with
                         | Ok r' => Ok ((fst kv, v) :: r')
                         | Raise e => Raise e
                         end
                     | Raise e => Raise e
                     end
                 end) d = Raise DecimalException) as H.
    { induction IH as [|[k x] r Hx _ IHr].
      - simpl. exists []. split; [reflexivity|]. split; reflexivity.
      - cbn [forallb snd fst] in *. destruct (small_decimals x).
        + destruct Hx as (x' & -> & Hsx & Hix). cbn [andb].
          destruct (forallb (fun kv => small_decimals (snd kv)) r).
          * destruct IHr as (r' & -> & Hsr & Hir).
            exists ((k, x') :: r'). split; [reflexivity|]. split.
            -- intros Ht. apply andb_true_iff in Ht as [Htx Htr].
               cbn [forallb snd]. rewrite (Hsx Htx), (Hsr Htr). reflexivity.
            -- cbn [decimal_to_python snd fst] in Hir |- *. rewrite Hix.
               destruct ((fix go (d : list (string * pyval))
                            : Outcome (list (string * pyval)) := _) r')
                 as [r''|e]; [|discriminate].
               injection Hir as ->. reflexivity.
          * rewrite IHr. reflexivity.
        + rewrite Hx. reflexivity. }
    cbn [small_decimals decimal_to_python tuple_free].
    destruct (forallb (fun kv => small_decimals (snd kv)) d).
    + destruct H as (d' & -> & Hs & Hi). exists (PDict d').
      split; [reflexivity|]. split; [exact Hs | exact Hi].
    + rewrite H. reflexivity.
Qed.

(** X27: when a converted item can be serialised. The conversion succeeds
    exactly when every [Decimal] it reaches has fewer than 29 digits, and
    raises the [decimal] signal otherwise, as for a stored number of 29 to 38
    digits. When it succeeds on a value that holds no tuple, [json.dumps]
    accepts the result and [json.loads] gives it back unchanged; and
    converting the result again changes nothing. *)
Theorem decimal_to_python_serialisable (v : pyval) :
  (small_decimals v = true ->
     exists v',
       decimal_to_python v = Ok v' /\
       decimal_to_python v' = Ok v' /\
       (tuple_free v = true ->
          exists j, json_dumps v' = Some j /\ json_loads j = v')) /\
  (small_decimals v = false -> decimal_to_python v = Raise DecimalException).
Proof.
  pose proof (decimal_to_python_spec v) as H.
  split; intros Hs; rewrite Hs in H.
  - destruct H as (v' & Hv & Hstable & Hidem). exists v'.
    split; [exact Hv|]. split; [exact Hidem|].
    intros Hfree. apply json_stable_roundtrip, Hstable, Hfree.
  - exact H.
Qed.

Lemma decimal_to_python_serialisable_witness :
  (exists v',
     decimal_to_python
       (PDict [("version", PDecimal 1);
               ("items", PList [PDict [("quantity", PDecimal 2)]])]) = Ok v' /\
     exists j, json_dumps v' = Some j) /\
  decimal_to_python (PDict [("total_cents", PDecimal (10 ^ 28))])
    = Raise DecimalException.
Proof.
  split.
  - destruct (proj1 (decimal_to_python_serialisable
                       (PDict [("version", PDecimal 1);
                               ("items", PList [PDict [("quantity", PDecimal 2)]])]))
                eq_refl) as (v' & Hv & _ & Hj).
    exists v'. split; [exact Hv|].
    destruct (Hj eq_refl) as (j & Hd & _). exists j. exact Hd.
  - apply (proj2 (decimal_to_python_serialisable
                    (PDict [("total_cents", PDecimal (10 ^ 28))]))).
    vm_compute. reflexivity.
Defined.
